(** * The chat session controller of the SFC Wizard web UI

    A shallow embedding of [sfc_wizard/ui.py]: the output capture
    ([StreamingOutputCapture]), the socket handlers of [ChatUI]
    ([handle_message], [handle_stop_generation],
    [handle_clear_conversation]), the thread body [process_agent_response]
    and the supervisor [StoppableAgent] of [_run_agent_with_stop_check].

    Conventions.
    - A Python [str] is the list of its code points, so [len] is [length].
    - [time.time()] is a rational number of seconds.
    - A dictionary is a [gmap]; [threading.Event] objects live in a heap
      and are named by their index, so two tokens can be told apart.
    - What the other threads do (the agent call, a stop request) is a
      [world]: a schedule over logical instants, one instant for every
      look the controlling thread takes at shared state. *)

From Stdlib Require Import QArith Qround Lqa.
From Stdlib Require Ascii String DecimalString.
Import Stdlib.Strings.String.StringSyntax.
Bind Scope string_scope with String.string.
From stdpp Require Import gmap list.

Local Open Scope nat_scope.

(** ** Python strings *)

Module Py.

Abbreviation str := (list N).

(** Reading a literal: the code points of a UTF-8 byte sequence.  Only
    used to write the constants of the source down. *)
Fixpoint utf8 (bs : list N) (more : nat) (acc : N) : str :=
  match bs with
  | [] => []
  | b :: rest =>
      match more with
      | O =>
          if (b <? 128)%N then b :: utf8 rest 0 0%N
          else if (b <? 224)%N then utf8 rest 1 (b - 192)%N
          else if (b <? 240)%N then utf8 rest 2 (b - 224)%N
          else utf8 rest 3 (b - 240)%N
      | S n =>
          let acc' := (acc * 64 + (b - 128))%N in
          match n with
          | O => acc' :: utf8 rest 0 0%N
          | S _ => utf8 rest n acc'
          end
      end
  end.

Definition lit (s : String.string) : str :=
  utf8 (map Ascii.N_of_ascii (String.list_ascii_of_string s)) 0 0%N.

(** [str.isspace] on one code point: the table of CPython's
    [_PyUnicode_IsWhitespace]. *)
Definition isspace (c : N) : bool :=
  ((9 <=? c) && (c <=? 13) || (28 <=? c) && (c <=? 32)
   || (c =? 133) || (c =? 160) || (c =? 5760)
   || (8192 <=? c) && (c <=? 8202)
   || (c =? 8232) || (c =? 8233) || (c =? 8239) || (c =? 8287)
   || (c =? 12288))%N.

Fixpoint lstrip (s : str) : str :=
  match s with
  | c :: rest => if isspace c then lstrip rest else s
  | [] => []
  end.

Definition rstrip (s : str) : str := reverse (lstrip (reverse s)).

(** [s.strip()] *)
Definition strip (s : str) : str := rstrip (lstrip s).

(** Truth value of a string: [if s:] holds for a non-empty one. *)
Definition truthy (s : str) : bool :=
  match s with [] => false | _ :: _ => true end.

(** [s.lower()] on the ASCII letters.  The other code points are left as
    they are: Python lowers none of them to an ASCII letter except the
    Kelvin sign (to k), so whether [lower s] equals an ASCII word without
    the letter k, as [handle_message] asks, is the same in both. *)
Definition lower_cp (c : N) : N :=
  if ((65 <=? c) && (c <=? 90))%N then (c + 32)%N else c.

Definition lower (s : str) : str := map lower_cp s.

Fixpoint startswith (s p : str) : bool :=
  match p, s with
  | [], _ => true
  | _ :: _, [] => false
  | a :: p', b :: s' => (a =? b)%N && startswith s' p'
  end.

(** [p in s] for strings *)
Fixpoint contains (s p : str) : bool :=
  startswith s p ||
  match s with
  | [] => false
  | _ :: s' => contains s' p
  end.

(** [s in l] for a list of strings *)
Definition mem (s : str) (l : list str) : bool := bool_decide (s ∈ l).

(** [str(n)] for an integer *)
Definition of_int (n : Z) : str :=
  lit (DecimalString.NilZero.string_of_int (Z.to_int n)).

End Py.

Import Py.

(** ** Messages and the events sent to the client *)

Inductive role := user | assistant.

(** A transcript entry: the dictionary with the keys [role], [content]
    and [timestamp]. *)
Record message := Message {
  msg_role : role;
  msg_content : str;
  msg_timestamp : str
}.

(** One constructor for every event name given to [emit]; [room] is the
    [room=] argument, absent for an emit that answers the caller. *)
Inductive event :=
| agent_not_ready (text : str)
| message_received (msg : message)
| agent_response (msg : message) (room : option str)
| agent_typing (typing : bool) (room : str)
| agent_streaming_start (sess : str) (room : str)
| agent_streaming (text stamp : str) (room : str)
| agent_streaming_end (room : str)
| generation_stopped (text : str) (room : str)
| generation_stop_acknowledged (sess : str)
| generation_stop_error (text : str)
| conversation_cleared (messages : list message).

#[global] Instance role_eq_dec : EqDecision role.
Proof. solve_decision. Defined.
#[global] Instance message_eq_dec : EqDecision message.
Proof. solve_decision. Defined.
#[global] Instance event_eq_dec : EqDecision event.
Proof. solve_decision. Defined.

(** ** StreamingOutputCapture *)

(** What a method reads from its surroundings when it runs:
    [time.time()], [datetime.now().isoformat()], and the state of the
    stop event the capture was built with. *)
Record ambient := Ambient {
  time_time : Q;
  now_iso : str;
  is_set : bool
}.

Record StreamingOutputCapture := Capture {
  session_id : str;
  original_stdout : list str;   (* what was written to it, oldest first *)
  accumulated_output : str;
  last_emit_time : Q;
  emit_interval : Q;
  stop_event : option nat
}.

(** [StreamingOutputCapture(socketio, session_id, stop_event=...)] *)
Definition new_capture (now : Q) (sess : str) (ev : option nat)
  : StreamingOutputCapture :=
  {| session_id := sess; original_stdout := [];
     accumulated_output := []; last_emit_time := now;
     emit_interval := 1 # 10; stop_event := ev |}.

Definition set_accumulated (c : StreamingOutputCapture) (s : str) :=
  {| session_id := session_id c; original_stdout := original_stdout c;
     accumulated_output := s; last_emit_time := last_emit_time c;
     emit_interval := emit_interval c; stop_event := stop_event c |}.

Definition set_last_emit (c : StreamingOutputCapture) (t : Q) :=
  {| session_id := session_id c; original_stdout := original_stdout c;
     accumulated_output := accumulated_output c; last_emit_time := t;
     emit_interval := emit_interval c; stop_event := stop_event c |}.

Definition stdout_write (c : StreamingOutputCapture) (text : str) :=
  {| session_id := session_id c;
     original_stdout := original_stdout c ++ [text];
     accumulated_output := accumulated_output c;
     last_emit_time := last_emit_time c;
     emit_interval := emit_interval c; stop_event := stop_event c |}.

(** [not self.stop_event or not self.stop_event.is_set()]: an Event
    object is always true, so the first test asks whether there is one. *)
Definition not_stopped (a : ambient) (c : StreamingOutputCapture) : bool :=
  match stop_event c with
  | None => true
  | Some _ => negb (is_set a)
  end.

Definition emit_partial_response (a : ambient) (c : StreamingOutputCapture)
  : StreamingOutputCapture * list event :=
  if truthy (strip (accumulated_output c)) && not_stopped a c then
    (set_accumulated c [],
     [agent_streaming (accumulated_output c) (now_iso a) (session_id c)])
  else (c, []).

(** [write] gives back the capture, the events emitted and the value
    returned. *)
Definition write (a : ambient) (text : str) (c : StreamingOutputCapture)
  : StreamingOutputCapture * list event * nat :=
  let '(c1, evs) :=
    if truthy (strip text) then
      let c0 := set_accumulated c (accumulated_output c ++ text) in
      let current_time := time_time a in
      if Qle_bool (emit_interval c0) (current_time - last_emit_time c0)
         || (100 <? length (accumulated_output c0))
      then
        let '(c', evs) := emit_partial_response a c0 in
        (set_last_emit c' current_time, evs)
      else (c0, [])
    else (c, []) in
  (stdout_write c1 text, evs, length text).

(** [flush]; the final [original_stdout.flush()] writes nothing. *)
Definition flush (a : ambient) (c : StreamingOutputCapture)
  : StreamingOutputCapture * list event :=
  if truthy (strip (accumulated_output c)) then emit_partial_response a c
  else (c, []).

(** ** The state of [ChatUI] and of one client *)

(** The dictionaries of [ChatUI]; a [datetime] is given by its ISO
    text, an agent and a thread by a number. *)
Record ChatUI := {
  conversations : gmap str (list message);
  session_timestamps : gmap str str;
  active_threads : gmap str nat;
  stop_events : gmap str nat;
  events : list bool;       (* the Event objects made so far: their flags *)
  threads : nat;            (* the Thread objects made so far *)
  sfc_agent : option nat;
  agent_ready : bool
}.

(** Flask's [session] of the calling client ([session.get("session_id")])
    and [request.sid]. *)
Record client := Client {
  flask_session : option str;
  request_sid : str
}.

(** What a handler draws from outside: [str(uuid.uuid4())], the
    successive values of [datetime.now().isoformat()], and the agent
    that [SFCWizardAgent()] builds, if it does not raise. *)
Record env := Env {
  uuid4 : str;
  isoformat : nat -> str;
  fresh_agent : option nat
}.

(** The closure handed to the thread: the variables of [handle_message]
    that [process_agent_response] uses. *)
Record generation := Generation {
  g_session : str;
  g_sid : str;
  g_stop_event : nat;
  g_message : str
}.

Definition set_conversations (ui : ChatUI) (c : gmap str (list message)) :=
  {| conversations := c; session_timestamps := session_timestamps ui;
     active_threads := active_threads ui; stop_events := stop_events ui;
     events := events ui; threads := threads ui;
     sfc_agent := sfc_agent ui; agent_ready := agent_ready ui |}.

Definition set_session_timestamps (ui : ChatUI) (t : gmap str str) :=
  {| conversations := conversations ui; session_timestamps := t;
     active_threads := active_threads ui; stop_events := stop_events ui;
     events := events ui; threads := threads ui;
     sfc_agent := sfc_agent ui; agent_ready := agent_ready ui |}.

Definition set_active_threads (ui : ChatUI) (a : gmap str nat) (n : nat) :=
  {| conversations := conversations ui;
     session_timestamps := session_timestamps ui;
     active_threads := a; stop_events := stop_events ui;
     events := events ui; threads := n;
     sfc_agent := sfc_agent ui; agent_ready := agent_ready ui |}.

Definition set_stop_events (ui : ChatUI) (s : gmap str nat) (h : list bool) :=
  {| conversations := conversations ui;
     session_timestamps := session_timestamps ui;
     active_threads := active_threads ui; stop_events := s;
     events := h; threads := threads ui;
     sfc_agent := sfc_agent ui; agent_ready := agent_ready ui |}.

Definition set_sfc_agent (ui : ChatUI) (a : option nat) :=
  {| conversations := conversations ui;
     session_timestamps := session_timestamps ui;
     active_threads := active_threads ui; stop_events := stop_events ui;
     events := events ui; threads := threads ui;
     sfc_agent := a; agent_ready := agent_ready ui |}.

(** [self.conversations[session_id].append(msg)].  The key is there
    whenever the source appends: [handle_message] and
    [handle_clear_conversation] put it first, and no key is ever
    removed (lemma [handle_message_registers]). *)
Definition conversation_append (sess : str) (msg : message) (ui : ChatUI) :=
  set_conversations ui (alter (fun l => l ++ [msg]) sess (conversations ui)).

Definition transcript (ui : ChatUI) (sess : str) : list message :=
  default [] (conversations ui !! sess).

(** [session.get("session_id")], replaced by a new uuid when it is
    missing or empty; the session keeps the new one. *)
Definition ensure_session (cl : client) (e : env) : str * client :=
  match flask_session cl with
  | Some s =>
      if truthy s then (s, cl)
      else (uuid4 e, Client (Some (uuid4 e)) (request_sid cl))
  | None => (uuid4 e, Client (Some (uuid4 e)) (request_sid cl))
  end.

(** ** The fixed texts *)

Definition welcome_message : str := Eval vm_compute in lit
"🏭 **AWS SHOP FLOOR CONNECTIVITY (SFC) WIZARD**

Specialized assistant for industrial data connectivity to AWS

💾 **Session Persistence**: Your conversation is automatically saved and will persist for 5 minutes even if you refresh the page or close the browser tab.

🎯 **I can help you with:**
• 🔍 Debug existing SFC configurations
• 🛠️ Create new SFC configurations  
• 💾 Save configurations to JSON files
• 📂 Load configurations from JSON files
• ▶️ Run configurations in local test environments
• 🧪 Test configurations against environments
• 🏗️ Define required deployment environments
• 📚 Explain SFC concepts and components
• 📊 Visualize data from configurations with FILE-TARGET
• 🚀 Type 'example' to run a sample configuration instantly

📋 **Supported Protocols:**
OPCUA | MODBUS | S7 | MQTT | HTTP | and more...

☁️ **Supported AWS Targets:**
AWS-S3 | AWS-IOT-CORE | AWS-TIMESTREAM | DEBUG | and more...

What would you like to do today?".

Definition goodbye_content : str := Eval vm_compute in lit
"🏭 Thank you for using the SFC Wizard!
May your industrial data flow smoothly to the cloud! ☁️".

Definition not_ready_content : str := Eval vm_compute in lit
"❌ Agent is not ready yet. Please refresh the page and try again.".

Definition still_initializing : str := Eval vm_compute in lit
"Agent is still initializing. Please wait...".

Definition exit_commands : list str :=
  Eval vm_compute in [lit "exit"; lit "quit"; lit "bye"].

Definition stopped_by_user : str :=
  Eval vm_compute in lit "Generation stopped by user.".

Definition no_response : str :=
  Eval vm_compute in lit "No response generated.".

Definition stopped_before_starting : str :=
  Eval vm_compute in lit "Generation was stopped before starting.".

Definition stopped_during : str :=
  Eval vm_compute in lit "Generation was stopped by user.".

Definition no_active_generation : str :=
  Eval vm_compute in lit "No active generation to stop.".

Definition present {A} (o : option A) : bool :=
  match o with Some _ => true | None => false end.

(** ** The socket handlers *)

(** [handle_connect]: whether the connection is accepted. *)
Definition handle_connect (ui : ChatUI) : bool * list event :=
  if negb (agent_ready ui) || negb (present (sfc_agent ui)) then
    (false, [agent_not_ready still_initializing])
  else (true, []).

(** [handle_message], up to [thread.start()].  The last component is the
    closure of the thread it starts, if it starts one. *)
Definition handle_message (ui : ChatUI) (cl : client) (e : env)
    (data : option str)
  : ChatUI * client * list event * option generation :=
  if negb (agent_ready ui) || negb (present (sfc_agent ui)) then
    (ui, cl,
     [agent_response
        (Message assistant not_ready_content (isoformat e 0)) None],
     None)
  else
    let '(sess, cl1) := ensure_session cl e in
    let user_message := strip (default [] data) in
    if negb (truthy user_message) then (ui, cl1, [], None)
    else
      let user_msg := Message user user_message (isoformat e 0) in
      let ui0 :=
        if present (conversations ui !! sess) then ui
        else set_conversations ui (<[sess := []]> (conversations ui)) in
      let ui1 := conversation_append sess user_msg ui0 in
      if mem (lower user_message) exit_commands then
        let goodbye_msg :=
          Message assistant goodbye_content (isoformat e 1) in
        (conversation_append sess goodbye_msg ui1, cl1,
         [message_received user_msg; agent_response goodbye_msg None],
         None)
      else
        let current_sid := request_sid cl1 in
        let stop_event := length (events ui1) in
        let ui2 :=
          set_stop_events ui1 (<[sess := stop_event]> (stop_events ui1))
            (events ui1 ++ [false]) in
        let thread := threads ui2 in
        let ui3 :=
          set_active_threads ui2 (<[sess := thread]> (active_threads ui2))
            (S thread) in
        (ui3, cl1, [message_received user_msg],
         Some (Generation sess current_sid stop_event user_message)).

Definition handle_stop_generation (ui : ChatUI) (cl : client)
  : ChatUI * list event :=
  match flask_session cl with
  | None => (ui, [])
  | Some sess =>
      if negb (truthy sess) then (ui, [])
      else
        match stop_events ui !! sess with
        | Some ev =>
            (set_stop_events ui (stop_events ui) (<[ev := true]> (events ui)),
             [generation_stop_acknowledged sess])
        | None => (ui, [generation_stop_error no_active_generation])
        end
  end.

(** [data] is [data.get("sessionId")] when the caller sent a dictionary
    with that key. *)
Definition handle_clear_conversation (ui : ChatUI) (cl : client) (e : env)
    (data : option str)
  : ChatUI * client * list event :=
  let '(sess, cl1) :=
    match data with
    | Some new_session_id =>
        if truthy new_session_id then
          (new_session_id, Client (Some new_session_id) (request_sid cl))
        else ensure_session cl e
    | None => ensure_session cl e
    end in
  let ui1 := set_conversations ui (<[sess := []]> (conversations ui)) in
  let ui2 :=
    match sfc_agent ui1, fresh_agent e with
    | Some _, Some a => set_sfc_agent ui1 (Some a)
    | _, _ => ui1
    end in
  let ui3 :=
    conversation_append sess
      (Message assistant welcome_message (isoformat e 0)) ui2 in
  (set_session_timestamps ui3
     (<[sess := isoformat e 1]> (session_timestamps ui3)),
   cl1, [conversation_cleared (transcript ui3 sess)]).

(** The [finally] block of [process_agent_response]: "clean up session
    tracking". *)
Definition cleanup (sess : str) (ui : ChatUI) : ChatUI :=
  let ui1 :=
    if present (stop_events ui !! sess) then
      set_stop_events ui (delete sess (stop_events ui)) (events ui)
    else ui in
  if present (active_threads ui1 !! sess) then
    set_active_threads ui1 (delete sess (active_threads ui1)) (threads ui1)
  else ui1.

(** ** StoppableAgent: the worker *)

(** What can come back from the agent and sit in [self.result]: [None],
    a string, or an object, of which the code looks at the attributes
    [content] and [text] (given here by their [str]), at [str(obj)] and
    at its truth value. *)
Inductive value :=
| PyNone
| PyStr (s : str)
| PyObj (content text : option str) (repr : str) (truth : bool).

(** How [self.agent(message)] ends: it returns, or raises an exception
    [e], given by [str(e)]. *)
Inductive outcome :=
| Returns (response : value)
| Raises (e : str).

Record StoppableAgent := {
  result : value;
  error : option str;
  completed : bool
}.

Definition new_StoppableAgent : StoppableAgent :=
  {| result := PyNone; error := None; completed := false |}.

(** [run_in_thread], from the end of the agent call on; [stopped] is what
    [self.stop_event.is_set()] answers then. *)
Definition run_in_thread (what : outcome) (stopped : bool)
    (a : StoppableAgent) : StoppableAgent :=
  match what with
  | Returns response =>
      {| result := if negb stopped then response else PyStr stopped_by_user;
         error := error a; completed := true |}
  | Raises e =>
      if negb stopped then
        {| result := result a; error := Some e; completed := true |}
      else
        {| result := PyStr stopped_by_user; error := error a;
           completed := true |}
  end.

Definition value_truth (v : value) : bool :=
  match v with
  | PyNone => false
  | PyStr s => truthy s
  | PyObj _ _ _ b => b
  end.

Definition none_text : str := Eval vm_compute in lit "None".

Definition error_prefix : str := Eval vm_compute in lit "Error: ".

Definition timed_out_prefix : str :=
  Eval vm_compute in lit "Generation timed out after ".

Definition timed_out_suffix : str := Eval vm_compute in lit " seconds.".

(** The [hasattr] chain: [str(v.content)], else [str(v.text)], else
    [str(v)]. *)
Definition to_text (v : value) : str :=
  match v with
  | PyObj (Some c) _ _ _ => c
  | PyObj None (Some t) _ _ => t
  | PyObj None None r _ => r
  | PyStr s => s
  | PyNone => none_text
  end.

(** The "Return result" lines that end [run_with_timeout]. *)
Definition returned_text (a : StoppableAgent) : str :=
  match error a with
  | Some (c :: e) => error_prefix ++ c :: e
  | _ => if value_truth (result a) then to_text (result a) else no_response
  end.

Definition timed_out_text (timeout : Z) : str :=
  timed_out_prefix ++ of_int timeout ++ timed_out_suffix.

(** ** The world around one generation *)

(** Instants are counted from the start of [process_agent_response];
    the controlling thread moves to the next one with every look at
    shared state, every sleep and every [print]. *)
Record world := {
  agent_does : outcome;       (* how the agent call ends *)
  agent_takes : option nat;   (* instants from the thread's start to that
                                 end, when the worker looks at the stop
                                 event; None: the call never ends *)
  flag_lag : nat;             (* instants from the worker's look at the
                                 stop event, when the call has ended, to
                                 [completed = True] *)
  exit_lag : nat;             (* instants from [completed = True] to the
                                 end of the thread *)
  stop_at : option nat;       (* instant at which a stop request sets the
                                 event; None: no request comes *)
  clock : nat -> Q;           (* [time.time()] *)
  stamp : nat -> str;         (* [datetime.now().isoformat()] *)
  output : nat -> list str;   (* what the agent writes to [sys.stdout] *)
  start_error : option str    (* [agent_thread.start()] raises *)
}.

(** How [run_with_timeout] leaves its loop. *)
Inductive loop_exit :=
| GuardExit                   (* the [while] condition is false *)
| StopBreak                   (* stop seen, thread over after the wait *)
| StopReturn                  (* stop seen, thread still alive *)
| TimeoutReturn (elapsed : Q).

(** The terminal states of the specification. *)
Inductive terminal := COMPLETED | CANCELLED | TIMED_OUT | ERRORED.

#[global] Instance terminal_eq_dec : EqDecision terminal.
Proof. solve_decision. Defined.

(** The state the supervisor ends in: by the exit its loop took and,
    for a worker that is over, by whether it left an error. *)
Definition terminal_of (how : loop_exit) (a : StoppableAgent) : terminal :=
  match how with
  | StopBreak | StopReturn => CANCELLED
  | TimeoutReturn _ => TIMED_OUT
  | GuardExit =>
      match error a with
      | Some (_ :: _) => ERRORED
      | _ => COMPLETED
      end
  end.

(** The controlling thread at one instant. *)
Record run := Run {
  instant : nat;
  capture : StreamingOutputCapture;
  redirected : bool;                  (* [sys.stdout] is the capture *)
  emitted : list event;               (* oldest first *)
  worker_from : option nat            (* when the agent thread started *)
}.

Definition M (A : Type) : Type := run -> A * run.

Definition ret {A} (a : A) : M A := fun r => (a, r).

Definition bind {A B} (m : M A) (k : A -> M B) : M B :=
  fun r => let '(a, r') := m r in k a r'.

Notation "x <- m ;; k" := (bind m (fun x => k))
  (at level 100, m at next level, right associativity).
Notation "m ;; k" := (bind m (fun _ => k))
  (at level 100, right associativity).

Definition stop_requested_line : str := Eval vm_compute in lit
"🛑 Stop requested - suppressing agent output...".

Definition still_running_line : str := Eval vm_compute in lit
"⚠️ Agent thread still running in background (output suppressed)".

Definition visualization_line : str := Eval vm_compute in lit
"Ensuring visualization data is properly displayed...".

Definition visualize : str := Eval vm_compute in lit "visualize".

Definition error_intro : str :=
  Eval vm_compute in lit "❌ Error processing request: ".

Definition error_advice : str := Eval vm_compute in lit "
Please try rephrasing your question or check your configuration.".

Definition newline : str := [10%N].

(** ** One generation: supervisor and thread body *)

(** What a call can come to: out of fuel, an exception, or a value. *)
Inductive reply (A : Type) :=
| Unfinished
| Raised (e : str)
| Returned (a : A).

Arguments Unfinished {A}.
Arguments Raised {A} e.
Arguments Returned {A} a.

Section Generation.

(** The world, and the flag of this generation's stop event when its
    thread begins. *)
Variable w : world.
Variable set0 : bool.

(** [stop_event.is_set()]: an Event that is set stays set, the source
    never calls [clear]. *)
Definition is_set_at (t : nat) : bool :=
  set0 || match stop_at w with Some s => s <=? t | None => false end.

Definition ends_at (r : run) : option nat :=
  match worker_from r, agent_takes w with
  | Some s, Some d => Some (s + d)
  | _, _ => None
  end.

(** [self.completed], set in the outer [finally] of [run_in_thread].
    The worker looks at the stop event and writes [result] or [error]
    at the instant the agent call ends; [completed] follows [flag_lag]
    instants later, and a stop request can come in between. *)
Definition completed_now (r : run) : bool :=
  match ends_at r with
  | Some e => e + flag_lag w <=? instant r
  | None => false
  end.

(** [agent_thread.is_alive()] *)
Definition is_alive_now (r : run) : bool :=
  match worker_from r with
  | None => false
  | Some _ =>
      match ends_at r with
      | Some e => negb (e + flag_lag w + exit_lag w <=? instant r)
      | None => true
      end
  end.

(** The fields of the StoppableAgent as the worker has left them:
    [result] and [error] by what the stop event said when the call
    ended, [completed] once the flag is set. *)
Definition agent_now (r : run) : StoppableAgent :=
  match ends_at r with
  | Some e =>
      if e <=? instant r then
        let a :=
          run_in_thread (agent_does w) (is_set_at e) new_StoppableAgent in
        {| result := result a; error := error a;
           completed := e + flag_lag w <=? instant r |}
      else new_StoppableAgent
  | None => new_StoppableAgent
  end.

Definition ambient_now (r : run) : ambient :=
  Ambient (clock w (instant r)) (stamp w (instant r))
    (is_set_at (instant r)).

(** The worker is inside the agent call. *)
Definition calling_now (r : run) : bool :=
  match worker_from r with
  | Some s =>
      (s <=? instant r)
      && negb match ends_at r with
              | Some e => e <=? instant r
              | None => false
              end
  | None => false
  end.

(** The worker's patches of [sys.stdout.write] and [builtins.print] are
    in place: from the start of the thread until the worker is done.
    (They are taken off between the end of the call and [completed];
    where in between shows only in what the supervisor's own [print]
    leaves on the original stream once the event is set.) *)
Definition patched_now (r : run) : bool :=
  match worker_from r with
  | Some s => (s <=? instant r) && negb (completed_now r)
  | None => false
  end.

Definition set_capture (r : run) (c : StreamingOutputCapture)
    (evs : list event) : run :=
  Run (instant r) c (redirected r) (emitted r ++ evs) (worker_from r).

(** [sys.stdout.write(text)].  While [sys.stdout] is the capture, this
    is its [write], behind [suppressed_stdout_write] when the patch is
    in place; once the original stream is back, it is that stream's. *)
Definition sys_stdout_write (text : str) (r : run) : run :=
  if redirected r then
    if patched_now r && is_set_at (instant r) then r
    else
      let '(c, evs, _) := write (ambient_now r) text (capture r) in
      set_capture r c evs
  else set_capture r (stdout_write (capture r) text) [].

(** Time moves on: the agent, if it is running, writes what the world
    has it write at this instant. *)
Definition tick (r : run) : run :=
  let r' :=
    if calling_now r then
      fold_left (fun acc text => sys_stdout_write text acc)
        (output w (instant r)) r
    else r in
  Run (S (instant r')) (capture r') (redirected r') (emitted r')
    (worker_from r').

Definition look {A} (f : run -> A) : M A := fun r => (f r, tick r).

Definition sleep : M unit := fun r => (tt, tick r).

Definition emit (ev : event) : M unit :=
  fun r => (tt, set_capture r (capture r) [ev]).

(** [print(text)]: [suppressed_print] drops it when the patch is in
    place and the event is set; otherwise the text and then the newline
    are written to [sys.stdout]. *)
Definition py_print (text : str) : M unit := fun r =>
  if patched_now r && is_set_at (instant r) then (tt, tick r)
  else (tt, tick (sys_stdout_write newline (sys_stdout_write text r))).

Definition capture_flush : M unit := fun r =>
  let '(c, evs) := flush (ambient_now r) (capture r) in
  (tt, tick (set_capture r c evs)).

Definition start_thread : M unit := fun r =>
  (tt, tick (Run (instant r) (capture r) (redirected r) (emitted r)
               (Some (instant r)))).

(** "Always restore original stdout/stderr" *)
Definition restore_stdout : M unit := fun r =>
  (tt, Run (instant r) (capture r) false (emitted r) (worker_from r)).

(** One turn of the [while] loop of [run_with_timeout], guard included.
    [None]: the loop goes on. *)
Definition poll (start_time : Q) (timeout : Z) : M (option loop_exit) :=
  alive <- look is_alive_now ;;
  if negb alive then ret (Some GuardExit)
  else
    done <- look completed_now ;;
    if done then ret (Some GuardExit)
    else
      stop <- look (fun r => is_set_at (instant r)) ;;
      if stop then
        py_print stop_requested_line ;;
        sleep ;;
        alive' <- look is_alive_now ;;
        if alive' then
          py_print still_running_line ;;
          ret (Some StopReturn)
        else ret (Some StopBreak)
      else
        now <- look (fun r => clock w (instant r)) ;;
        if negb (Qle_bool (now - start_time) (inject_Z timeout)) then
          ret (Some (TimeoutReturn (now - start_time)))
        else
          sleep ;;
          ret None.

(** The loop; [None] when [fuel] turns were not enough to leave it. *)
Fixpoint poll_loop (fuel : nat) (start_time : Q) (timeout : Z)
  : M (option loop_exit) :=
  match fuel with
  | O => ret None
  | S fuel' =>
      x <- poll start_time timeout ;;
      match x with
      | Some how => ret (Some how)
      | None => poll_loop fuel' start_time timeout
      end
  end.

(** [run_with_timeout]: the text returned, with the exit taken and the
    state it stands for. *)
Definition run_with_timeout (fuel : nat) (timeout : Z)
  : M (reply (str * loop_exit * terminal)) :=
  match start_error w with
  | Some e => ret (Raised e)
  | None =>
      start_thread ;;
      start_time <- look (fun r => clock w (instant r)) ;;
      x <- poll_loop fuel start_time timeout ;;
      match x with
      | None => ret Unfinished
      | Some StopReturn =>
          ret (Returned (stopped_by_user, StopReturn, CANCELLED))
      | Some (TimeoutReturn d) =>
          ret (Returned (timed_out_text timeout, TimeoutReturn d, TIMED_OUT))
      | Some how =>
          a <- look agent_now ;;
          ret (Returned (returned_text a, how, terminal_of how a))
      end
  end.

Definition _run_agent_with_stop_check (fuel : nat)
  : M (reply (str * loop_exit * terminal)) :=
  run_with_timeout fuel 300.

End Generation.

Section Thread.

Variable w : world.
Variable set0 : bool.
Variable g : generation.

Definition stop_is_set : M bool :=
  look w set0 (fun r => is_set_at w set0 (instant r)).

(** After the second stop check: flush what is left, and the extra
    line for a message that speaks of visualization. *)
Definition after_response : M unit :=
  capture_flush w set0 ;;
  if contains (lower (g_message g)) visualize then
    py_print w set0 visualization_line ;;
    sleep w set0
  else ret tt.

(** "Only proceed with response if not stopped": the message that goes
    into the conversation, if one does. *)
Definition respond (response : str) : M (option message) :=
  stop <- stop_is_set ;;
  if negb stop then
    let formatted_response := to_text (PyStr response) in
    emit (agent_streaming_end (g_sid g)) ;;
    now <- look w set0 (fun r => stamp w (instant r)) ;;
    ret (Some (Message assistant formatted_response now))
  else ret None.

(** The [except Exception as e] block. *)
Definition on_exception (e : str) : M (option message) :=
  capture_flush w set0 ;;
  emit (agent_streaming_end (g_sid g)) ;;
  stop <- stop_is_set ;;
  if stop then
    emit (generation_stopped stopped_during (g_sid g)) ;;
    ret None
  else
    now <- look w set0 (fun r => stamp w (instant r)) ;;
    let error_msg :=
      Message assistant (error_intro ++ e ++ error_advice) now in
    emit (agent_response error_msg (Some (g_sid g))) ;;
    ret (Some error_msg).

(** What the thread leaves behind, before its [finally]: the message it
    appends to the conversation, if any, how the supervisor's loop
    ended, if it ran, and the terminal state. *)
Record ending := Ending {
  appended : option message;
  exit_taken : option loop_exit;
  state : terminal
}.

(** The [try] and [except] of [process_agent_response], from the first
    stop check on; the inner [finally] is [restore_stdout]. *)
Definition thread_body (fuel : nat) : M (option ending) :=
  stop <- stop_is_set ;;
  if stop then
    emit (generation_stopped stopped_before_starting (g_sid g)) ;;
    restore_stdout ;;
    ret (Some (Ending None None CANCELLED))
  else
    x <- _run_agent_with_stop_check w set0 fuel ;;
    match x with
    | Unfinished => ret None
    | Raised e =>
        restore_stdout ;;
        m <- on_exception e ;;
        ret (Some (Ending m None ERRORED))
    | Returned (response, how, st) =>
        stop' <- stop_is_set ;;
        if stop' then
          emit (generation_stopped stopped_during (g_sid g)) ;;
          restore_stdout ;;
          ret (Some (Ending None (Some how) st))
        else
          after_response ;;
          restore_stdout ;;
          m <- respond response ;;
          ret (Some (Ending m (Some how) st))
    end.

(** The run as the thread body finds it: typing indicator and
    streaming start sent, the capture built and put in the place of
    [sys.stdout]. *)
Definition first_run : run :=
  Run 1
    (new_capture (clock w 0) (g_sid g) (Some (g_stop_event g)))
    true
    [agent_typing true (g_sid g);
     agent_streaming_start (g_session g) (g_sid g)]
    None.

End Thread.

(** A generation that is over. *)
Record finished := Finished {
  f_ui : ChatUI;
  f_emitted : list event;
  f_capture : StreamingOutputCapture;
  f_exit : option loop_exit;
  f_state : terminal
}.

(** [process_agent_response], run to its end on the state [ui]; [None]
    when the supervisor's loop is still turning after [fuel] turns. *)
Definition process_agent_response (w : world) (fuel : nat) (g : generation)
    (ui : ChatUI) : option finished :=
  let set0 := default false (events ui !! g_stop_event g) in
  match thread_body w set0 g fuel (first_run w g) with
  | (None, _) => None
  | (Some e, r) =>
      let ui1 :=
        match appended e with
        | Some msg => conversation_append (g_session g) msg ui
        | None => ui
        end in
      let ui2 := cleanup (g_session g) ui1 in
      Some
        (Finished
           (set_stop_events ui2 (stop_events ui2)
              (<[g_stop_event g := is_set_at w set0 (instant r)]>
                 (events ui2)))
           (emitted r ++ [agent_typing false (g_sid g)])
           (capture r) (exit_taken e) (state e))
  end.

(** ** Sample states and worlds

    Concrete inputs on which the definitions above are run in the
    examples that follow. *)

Definition idle_ui : ChatUI :=
  {| conversations := ∅; session_timestamps := ∅; active_threads := ∅;
     stop_events := ∅; events := []; threads := 0; sfc_agent := Some 0;
     agent_ready := true |}.

Definition client1 : client := Client (Some (lit "session_1")) (lit "sid1").

Definition env1 : env :=
  Env (lit "uuid-1") (fun n => of_int (Z.of_nat n)) (Some 1).

Definition capture_abc (ev : option nat) : StreamingOutputCapture :=
  {| session_id := lit "sid1"; original_stdout := [];
     accumulated_output := lit "abc"; last_emit_time := 0;
     emit_interval := 1 # 10; stop_event := ev |}.

(** A clock that reads [k] seconds at every instant past. *)
Definition steady_clock (k : Z) (t : nat) : Q := inject_Z (k * Z.of_nat t).

Definition instant_stamp (t : nat) : str := of_int (Z.of_nat t).

(** The agent returns an object with a [content] after seven instants,
    having written two fragments; nobody asks to stop. *)
Definition world_returns : world :=
  {| agent_does := Returns (PyObj (Some (lit "hi")) None (lit "obj") true);
     agent_takes := Some 7; flag_lag := 0; exit_lag := 1; stop_at := None;
     clock := steady_clock 1; stamp := instant_stamp;
     output := fun t => if t =? 4 then [lit "thinking"; lit "more"] else [];
     start_error := None |}.

(** The agent raises [Exception("boom")]; nobody asks to stop. *)
Definition world_raises : world :=
  {| agent_does := Raises (lit "boom");
     agent_takes := Some 7; flag_lag := 0; exit_lag := 1; stop_at := None;
     clock := steady_clock 1; stamp := instant_stamp;
     output := fun _ => []; start_error := None |}.

(** The agent call never ends; the clock advances by 50 seconds an
    instant; nobody asks to stop. *)
Definition world_blocks : world :=
  {| agent_does := Returns PyNone;
     agent_takes := None; flag_lag := 0; exit_lag := 0; stop_at := None;
     clock := steady_clock 50; stamp := instant_stamp;
     output := fun _ => []; start_error := None |}.

(** A stop request comes at instant 9, while the agent is at work. *)
Definition world_stopped : world :=
  {| agent_does := Returns (PyStr (lit "late"));
     agent_takes := Some 50; flag_lag := 0; exit_lag := 1; stop_at := Some 9;
     clock := steady_clock 1; stamp := instant_stamp;
     output := fun _ => [lit "a"]; start_error := None |}.

(** The worker is over at once, its thread lingers, and the clock runs
    past the deadline between two instants. *)
Definition world_done_late : world :=
  {| agent_does := Returns (PyStr (lit "done"));
     agent_takes := Some 0; flag_lag := 0; exit_lag := 100; stop_at := None;
     clock := steady_clock 1000; stamp := instant_stamp;
     output := fun _ => []; start_error := None |}.

(** The thread cannot be started. *)
Definition world_no_thread : world :=
  {| agent_does := Returns PyNone;
     agent_takes := None; flag_lag := 0; exit_lag := 0; stop_at := None;
     clock := steady_clock 1; stamp := instant_stamp;
     output := fun _ => [];
     start_error := Some (lit "can't start new thread") |}.

(** The agent call is over at instant 9, when the worker sees the event
    unset; a stop request comes at instant 10, before [completed] is
    set at instant 14. *)
Definition world_races : world :=
  {| agent_does := Returns (PyStr (lit "late"));
     agent_takes := Some 7; flag_lag := 5; exit_lag := 0; stop_at := Some 10;
     clock := steady_clock 1; stamp := instant_stamp;
     output := fun _ => []; start_error := None |}.

Definition hello : option str := Some (lit "hello").

(** ** Notions used in the statements *)

(** The agent is there: what [handle_connect] asks of the server before
    it lets a client in. *)
Definition ready (ui : ChatUI) : Prop :=
  agent_ready ui = true /\ present (sfc_agent ui) = true.

(** A partial-output event. *)
Definition is_partial (ev : event) : bool :=
  match ev with
  | agent_streaming _ _ _ => true
  | _ => false
  end.

(** The buffers that [write] builds: empty, or with a character that is
    not white space. *)
Definition well_built (c : StreamingOutputCapture) : Prop :=
  accumulated_output c = [] \/ truthy (strip (accumulated_output c)) = true.

(** Time goes on: past any instant, the clock ends up and stays more
    than any given span ahead of its reading then. *)
Definition time_passes (w : world) : Prop :=
  forall (t0 : nat) (span : Q), exists T,
    forall t, T <= t -> (clock w t0 + span < clock w t)%Q.

(** No stop request reaches the generation: its event is unset when the
    thread begins and no request comes later. *)
Definition never_stopped (w : world) (set0 : bool) : Prop :=
  set0 = false /\ stop_at w = None.

(** [r'] comes after [r]: no earlier, and with nothing emitted in
    between but partial output. *)
Definition extends (r r' : run) : Prop :=
  instant r <= instant r'
  /\ exists evs, emitted r' = emitted r ++ evs
                 /\ Forall (fun ev => is_partial ev = true) evs.

Definition stop_exit (x : option loop_exit) : bool :=
  match x with
  | Some StopReturn | Some StopBreak => true
  | _ => false
  end.

(** The first message of a session, and a second one sent while the
    first generation is still at work. *)
Definition hello_ui : ChatUI :=
  fst (fst (fst (handle_message idle_ui client1 env1 hello))).

Definition hello_gen : generation :=
  Generation (lit "session_1") (lit "sid1") 0 (lit "hello").

Definition again_ui : ChatUI :=
  fst (fst (fst (handle_message hello_ui client1 env1 (Some (lit "again"))))).

(** The run at the first poll in [world_done_late]: the thread was
    started at instant 1, the start time read at instant 2. *)
Definition late_run : run :=
  Run 3 (new_capture 0 (lit "sid1") (Some 0)) true [] (Some 1).

(** ** The rest of [ChatUI]: start-up, routes, registration *)

Definition set_agent_ready (ui : ChatUI) (b : bool) :=
  {| conversations := conversations ui;
     session_timestamps := session_timestamps ui;
     active_threads := active_threads ui; stop_events := stop_events ui;
     events := events ui; threads := threads ui;
     sfc_agent := sfc_agent ui; agent_ready := b |}.

(** [ChatUI.__init__], as far as the state kept here goes. *)
Definition new_ChatUI : ChatUI :=
  {| conversations := ∅; session_timestamps := ∅; active_threads := ∅;
     stop_events := ∅; events := []; threads := 0; sfc_agent := None;
     agent_ready := false |}.

(** [initialize_agent]; [built] is the agent that [SFCWizardAgent()]
    returns. *)
Definition initialize_agent (built : nat) (ui : ChatUI) : ChatUI :=
  match sfc_agent ui with
  | None => set_agent_ready (set_sfc_agent ui (Some built)) true
  | Some _ => ui
  end.

(** The route [/ready]: the status code of the answer. *)
Definition ready_route (ui : ChatUI) : nat :=
  if agent_ready ui && present (sfc_agent ui) then 200 else 503.

Definition session_prefix : str := Eval vm_compute in lit "session_".

(** The event [conversation_history] that answers a registration. *)
Inductive history := conversation_history (messages : list message).

(** [handle_register_session]; [data] is [data.get("sessionId")].  The
    [emit] is taken not to raise, as everywhere. *)
Definition handle_register_session (ui : ChatUI) (cl : client) (e : env)
    (data : option str)
  : ChatUI * client * list history :=
  let client_session_id := default [] data in
  let sess :=
    if truthy client_session_id && startswith client_session_id session_prefix
    then client_session_id
    else uuid4 e in
  let cl1 := Client (Some sess) (request_sid cl) in
  let ui1 :=
    set_session_timestamps ui
      (<[sess := isoformat e 0]> (session_timestamps ui)) in
  let ui2 :=
    if present (conversations ui1 !! sess) then ui1
    else
      conversation_append sess
        (Message assistant welcome_message (isoformat e 1))
        (set_conversations ui1 (<[sess := []]> (conversations ui1))) in
  (ui2, cl1, [conversation_history (default [] (conversations ui2 !! sess))]).

(** ** The secret key *)

(** [s.split(sep)] for a separator of one character. *)
Fixpoint split_char (sep : N) (s : str) : list str :=
  match s with
  | [] => [[]]
  | c :: rest =>
      if (c =? sep)%N then [] :: split_char sep rest
      else
        match split_char sep rest with
        | first :: others => (c :: first) :: others
        | [] => [[c]]
        end
  end.

(** [s.split(sep, 1)[1]]: what follows the first separator, if there is
    one. *)
Fixpoint after_first (sep : N) (s : str) : option str :=
  match s with
  | [] => None
  | c :: rest => if (c =? sep)%N then Some rest else after_first sep rest
  end.

Definition key_prefix : str := Eval vm_compute in lit "FLASK_SECRET_KEY=".

Definition key_header : str := Eval vm_compute in lit "
# Flask Secret Key (auto-generated)
FLASK_SECRET_KEY=".

(** The loop over the lines of the [.env] file.  A line whose stripped
    text starts with the prefix has an equals sign, so the [[1]] of the
    source does not fail. *)
Fixpoint find_secret_key (lines : list str) : option str :=
  match lines with
  | [] => None
  | line :: rest =>
      if startswith (strip line) key_prefix then
        Some (strip (default [] (after_first 61 line)))
      else find_secret_key rest
  end.

(** The [.env] file as the function finds it. *)
Inductive env_file :=
| NoFile                              (* [os.path.exists] is false *)
| Unreadable                          (* opening or reading it raises *)
| Content (text : str) (writable : bool).
                                      (* its text; whether appending works *)

(** [_get_or_generate_secret_key]: the key, and the file afterwards.
    [getenv] is [os.getenv("FLASK_SECRET_KEY")]; [token1] and [token2]
    are the first and the second value that [secrets.token_urlsafe(32)]
    would give. *)
Definition _get_or_generate_secret_key (getenv : option str) (f : env_file)
    (token1 token2 : str) : str * env_file :=
  if truthy (default [] getenv) then (default [] getenv, f)
  else
    match f with
    | Content text writable =>
        match find_secret_key (split_char 10 text) with
        | Some key => (key, f)
        | None =>
            if writable then
              (token1, Content (text ++ key_header ++ token1 ++ newline) true)
            else (token2, f)
        end
    | NoFile | Unreadable => (token1, f)
    end.

(** ** Notions used in the further statements *)

(** A run of calls of [write], with what each finds around it. *)
Fixpoint write_all (calls : list (ambient * str)) (c : StreamingOutputCapture)
  : StreamingOutputCapture * list event :=
  match calls with
  | [] => (c, [])
  | (a, text) :: rest =>
      let '(c1, evs, _) := write a text c in
      let '(c2, evs') := write_all rest c1 in
      (c2, evs ++ evs')
  end.

(** The text that a list of events streams to the client. *)
Fixpoint streamed (evs : list event) : str :=
  match evs with
  | [] => []
  | agent_streaming text _ _ :: rest => text ++ streamed rest
  | _ :: rest => streamed rest
  end.

(** The fragments that [write] takes into its buffer. *)
Fixpoint buffered (calls : list (ambient * str)) : str :=
  match calls with
  | [] => []
  | (_, text) :: rest =>
      (if truthy (strip text) then text else []) ++ buffered rest
  end.

(** One thing that happens to the server: a handler runs, or the thread
    of a generation comes to its end. *)
Inductive step : ChatUI -> ChatUI -> Prop :=
| step_initialize built ui :
    step ui (initialize_agent built ui)
| step_register ui cl e data :
    step ui (fst (fst (handle_register_session ui cl e data)))
| step_message ui cl e data :
    step ui (fst (fst (fst (handle_message ui cl e data))))
| step_stop ui cl :
    step ui (fst (handle_stop_generation ui cl))
| step_clear ui cl e data :
    step ui (fst (fst (handle_clear_conversation ui cl e data)))
| step_thread w fuel g ui fin :
    process_agent_response w fuel g ui = Some fin ->
    step ui (f_ui fin).

(** What holds of the registry in every state the server gets into: a
    registered stop event exists, and its session has a conversation. *)
Definition registry_sound (ui : ChatUI) : Prop :=
  forall sess ev,
    stop_events ui !! sess = Some ev ->
    ev < length (events ui) /\ is_Some (conversations ui !! sess).

(** One message and the generation it starts, run to its end before
    the next message comes. *)
Record turn := Turn {
  t_env : env;
  t_data : option str;
  t_world : world;
  t_fuel : nat
}.

Definition run_turn (ui : ChatUI) (cl : client) (t : turn)
  : option (ChatUI * client) :=
  let '(ui1, cl1, _, started) := handle_message ui cl (t_env t) (t_data t) in
  match started with
  | None => Some (ui1, cl1)
  | Some g =>
      match process_agent_response (t_world t) (t_fuel t) g ui1 with
      | Some fin => Some (f_ui fin, cl1)
      | None => None
      end
  end.

Fixpoint run_turns (ui : ChatUI) (cl : client) (ts : list turn)
  : option (ChatUI * client) :=
  match ts with
  | [] => Some (ui, cl)
  | t :: rest =>
      match run_turn ui cl t with
      | Some (ui1, cl1) => run_turns ui1 cl1 rest
      | None => None
      end
  end.

(** A turn that is answered: the message is not blank and no stop
    request comes. *)
Definition answered (t : turn) : Prop :=
  truthy (strip (default [] (t_data t))) = true /\ stop_at (t_world t) = None.

(** What one step keeps. *)
Record kept (ui ui' : ChatUI) : Prop := Kept {
  kept_conversations :
    forall sess, is_Some (conversations ui !! sess) ->
                 is_Some (conversations ui' !! sess);
  kept_events : length (events ui) <= length (events ui');
  kept_flags :
    forall ev, events ui !! ev = Some true -> events ui' !! ev = Some true;
  kept_threads : threads ui <= threads ui';
  kept_ready : ready ui -> ready ui';
  kept_agent :
    agent_ready ui = present (sfc_agent ui) ->
    agent_ready ui' = present (sfc_agent ui');
  kept_registry : registry_sound ui -> registry_sound ui'
}.

(** Two turns of one client: a message that the agent answers, then
    an exit command. *)
Definition two_turns : list turn :=
  [Turn env1 hello world_returns 10;
   Turn env1 (Some (lit " bye ")) world_returns 0].

(** What the thread sends after the partial output, before it switches
    the typing indicator off. *)
Inductive closing (sid : str) : option message -> list event -> Prop :=
| closing_stopped text :
    closing sid None [generation_stopped text sid]
| closing_stopped_in_handler text :
    closing sid None [agent_streaming_end sid; generation_stopped text sid]
| closing_silent :
    closing sid None []
| closing_reply m :
    closing sid (Some m) [agent_streaming_end sid]
| closing_error m :
    closing sid (Some m)
      [agent_streaming_end sid; agent_response m (Some sid)].

(** * Properties *)

(** ** Strings *)

Section Strings.

Implicit Types s t : str.

Lemma truthy_nonempty s : truthy s = true <-> s <> [].
Proof. destruct s; simpl; split; congruence. Qed.

Lemma truthy_lstrip s :
  truthy (lstrip s) = existsb (fun c => negb (isspace c)) s.
Proof.
  induction s as [|c s IH]; simpl; [reflexivity|].
  destruct (isspace c); simpl; [exact IH | reflexivity].
Qed.

Lemma truthy_reverse s : truthy (reverse s) = truthy s.
Proof.
  destruct s as [|c s]; [reflexivity|].
  rewrite reverse_cons. destruct (reverse s); reflexivity.
Qed.

Lemma existsb_reverse (f : N -> bool) s :
  existsb f (reverse s) = existsb f s.
Proof.
  induction s as [|c s IH]; [reflexivity|].
  rewrite reverse_cons, existsb_app, IH. simpl.
  rewrite orb_false_r. apply orb_comm.
Qed.

Lemma existsb_lstrip s :
  existsb (fun c => negb (isspace c)) (lstrip s)
  = existsb (fun c => negb (isspace c)) s.
Proof.
  induction s as [|c s IH]; simpl; [reflexivity|].
  destruct (isspace c) eqn:E; simpl; [exact IH|].
  rewrite E. reflexivity.
Qed.

(** [s.strip()] is non-empty exactly when [s] has a character that is
    not white space. *)
Lemma truthy_strip s :
  truthy (strip s) = existsb (fun c => negb (isspace c)) s.
Proof.
  unfold strip, rstrip.
  rewrite truthy_reverse, truthy_lstrip, existsb_reverse.
  apply existsb_lstrip.
Qed.

Lemma truthy_strip_app s t :
  truthy (strip t) = true -> truthy (strip (s ++ t)) = true.
Proof.
  rewrite !truthy_strip, existsb_app. intros ->. apply orb_true_r.
Qed.

Lemma lower_nonempty s : lower s <> [] -> s <> [].
Proof. destruct s; simpl; congruence. Qed.

End Strings.

(** ** StreamingOutputCapture *)

Lemma new_capture_well_built now sess ev :
  well_built (new_capture now sess ev).
Proof. left. reflexivity. Qed.

Lemma emit_partial_response_well_built a c :
  well_built c -> well_built (fst (emit_partial_response a c)).
Proof.
  intros H. unfold emit_partial_response.
  destruct (truthy (strip (accumulated_output c)) && not_stopped a c);
    simpl; [left; reflexivity | exact H].
Qed.

Lemma write_well_built a text c :
  well_built c -> well_built (fst (fst (write a text c))).
Proof.
  intros H. unfold write.
  destruct (truthy (strip text)) eqn:Et; simpl; [|exact H].
  assert (Hb : well_built (set_accumulated c (accumulated_output c ++ text))).
  { right. simpl. now apply truthy_strip_app. }
  destruct (_ || _); simpl; [|exact Hb].
  pose proof (emit_partial_response_well_built a _ Hb) as He.
  destruct (emit_partial_response a _) as [c' evs]. exact He.
Qed.

Lemma flush_well_built a c : well_built c -> well_built (fst (flush a c)).
Proof.
  intros H. unfold flush.
  destruct (truthy (strip (accumulated_output c)));
    [now apply emit_partial_response_well_built | exact H].
Qed.

(** C5, as the code has it.  With the token signalled, [flush] emits
    nothing and leaves the capture, buffer included, as it was.  With
    the token not signalled, or no token, and a non-empty buffer built
    by [write], it emits the buffer as one [agent_streaming] event and
    empties it. *)
Theorem flush_by_token (a : ambient) (c : StreamingOutputCapture) :
  well_built c ->
  (not_stopped a c = false -> flush a c = (c, [])) /\
  (not_stopped a c = true -> accumulated_output c <> [] ->
   flush a c =
     (set_accumulated c [],
      [agent_streaming (accumulated_output c) (now_iso a) (session_id c)])).
Proof.
  intros Hwb. unfold flush, emit_partial_response. split.
  - intros ->. rewrite andb_false_r.
    now destruct (truthy (strip (accumulated_output c))).
  - intros -> Hne. destruct Hwb as [He | Ht]; [contradiction|].
    rewrite Ht. reflexivity.
Qed.

Lemma flush_by_token_witness :
  flush (Ambient 1 (lit "t1") true) (capture_abc (Some 0))
    = (capture_abc (Some 0), [])
  /\ flush (Ambient 1 (lit "t1") false) (capture_abc (Some 0))
     = (set_accumulated (capture_abc (Some 0)) [],
        [agent_streaming (lit "abc") (lit "t1") (lit "sid1")]).
Proof.
  split.
  - apply (flush_by_token (Ambient 1 (lit "t1") true) (capture_abc (Some 0))).
    + right. reflexivity.
    + reflexivity.
  - apply (flush_by_token (Ambient 1 (lit "t1") false) (capture_abc (Some 0))).
    + right. reflexivity.
    + reflexivity.
    + discriminate.
Defined.

(** C5 as stated fails: with the token signalled the buffer is still
    full after [flush]. *)
Lemma flush_signalled_keeps_buffer :
  not_stopped (Ambient 1 (lit "t1") true) (capture_abc (Some 0)) = false
  /\ snd (flush (Ambient 1 (lit "t1") true) (capture_abc (Some 0))) = []
  /\ accumulated_output
       (fst (flush (Ambient 1 (lit "t1") true) (capture_abc (Some 0))))
     = lit "abc"
  /\ accumulated_output
       (fst (flush (Ambient 1 (lit "t1") true) (capture_abc (Some 0))))
     <> [].
Proof. repeat split; discriminate. Qed.

(** C10.  [write] passes every fragment on to the original stream and
    returns its length, whatever the state of the token; a signalled
    token only keeps it from emitting to the client. *)
Theorem write_passes_through (a : ambient) (text : str)
    (c : StreamingOutputCapture) :
  original_stdout (fst (fst (write a text c))) = original_stdout c ++ [text]
  /\ snd (write a text c) = length text
  /\ (not_stopped a c = true \/ snd (fst (write a text c)) = []).
Proof.
  unfold write.
  destruct (truthy (strip text)); simpl; [|auto].
  destruct (_ || _); simpl; [|auto].
  unfold emit_partial_response, not_stopped. simpl.
  destruct (truthy (strip (accumulated_output c ++ text)));
    destruct (stop_event c); simpl; auto.
  destruct (is_set a); simpl; auto.
Qed.

(** A buffer of white space alone, which [write] never builds, would be
    neither emitted nor emptied. *)
Lemma flush_blank_buffer_stays (a : ambient) (c : StreamingOutputCapture) :
  truthy (strip (accumulated_output c)) = false -> flush a c = (c, []).
Proof. unfold flush. by intros ->. Qed.

(** ** The handlers *)

Lemma transcript_append sess msg ui :
  is_Some (conversations ui !! sess) ->
  transcript (conversation_append sess msg ui) sess
    = transcript ui sess ++ [msg].
Proof.
  intros [l Hl]. unfold transcript, conversation_append. simpl.
  rewrite lookup_alter_eq, Hl. reflexivity.
Qed.

Lemma transcript_append_ne sess other msg ui :
  sess <> other ->
  transcript (conversation_append sess msg ui) other = transcript ui other.
Proof.
  intros Hne. unfold transcript, conversation_append. simpl.
  now rewrite lookup_alter_ne.
Qed.

Lemma present_is_Some {A} (o : option A) : present o = true <-> is_Some o.
Proof.
  destruct o; simpl; split; intros H;
    first [done | by eexists | by destruct H].
Qed.

Lemma exit_command_nonempty s : mem (lower s) exit_commands = true -> truthy s = true.
Proof.
  unfold mem. intros H. apply bool_decide_eq_true_1 in H.
  apply truthy_nonempty, lower_nonempty. intros E. rewrite E in H.
  unfold exit_commands in H.
  repeat (apply elem_of_cons in H as [H|H]; [discriminate|]).
  by apply elem_of_nil in H.
Qed.

(** A client is let in only when the agent is there, and no handler
    takes the agent away again. *)
Lemma connected_means_ready ui :
  fst (handle_connect ui) = true -> ready ui.
Proof.
  unfold handle_connect, ready.
  destruct (agent_ready ui), (present (sfc_agent ui)); simpl; auto.
Qed.

Lemma handle_message_keeps_ready ui cl e data :
  ready ui -> ready (fst (fst (fst (handle_message ui cl e data)))).
Proof.
  intros [Ha Hp]. unfold handle_message. rewrite Ha, Hp. simpl.
  destruct (ensure_session cl e) as [sess cl1].
  destruct (negb (truthy _)); [by split|].
  destruct (mem _ _); simpl;
    destruct (present (conversations ui !! sess)); by split.
Qed.

Lemma handle_stop_generation_keeps_ready ui cl :
  ready ui -> ready (fst (handle_stop_generation ui cl)).
Proof.
  intros [Ha Hp]. unfold handle_stop_generation.
  destruct (flask_session cl) as [sess|]; [|by split].
  destruct (negb (truthy sess)); [by split|].
  destruct (stop_events ui !! sess); by split.
Qed.

Lemma handle_clear_conversation_keeps_ready ui cl e data :
  ready ui -> ready (fst (fst (handle_clear_conversation ui cl e data))).
Proof.
  intros [Ha Hp]. unfold handle_clear_conversation.
  destruct (match data with Some _ => _ | None => _ end) as [sess cl1].
  unfold ready. simpl.
  destruct (sfc_agent ui) eqn:Es; [|discriminate].
  destruct (fresh_agent e); simpl; rewrite ?Es; auto.
Qed.

Section Ready.

(** The agent is ready, as it is whenever a client is connected. *)
Variable ui : ChatUI.
Hypothesis agent_is_there : ready ui.

(** C8.  A message that, trimmed and lowered, is one of "exit", "quit"
    and "bye" is answered with the fixed farewell: no thread closure is
    made, no stop event is created or registered, no thread is counted,
    and the transcript of the session gains the user's message and the
    farewell, in that order. *)
Theorem exit_command_bypasses_agent (cl : client) (e : env)
    (data : option str) :
  mem (lower (strip (default [] data))) exit_commands = true ->
  let sess := fst (ensure_session cl e) in
  let user_msg := Message user (strip (default [] data)) (isoformat e 0) in
  let goodbye_msg := Message assistant goodbye_content (isoformat e 1) in
  exists ui',
    handle_message ui cl e data
      = (ui', snd (ensure_session cl e),
         [message_received user_msg; agent_response goodbye_msg None], None)
    /\ transcript ui' sess = transcript ui sess ++ [user_msg; goodbye_msg]
    /\ stop_events ui' = stop_events ui
    /\ events ui' = events ui
    /\ active_threads ui' = active_threads ui
    /\ threads ui' = threads ui.
Proof.
  intros Hexit sess user_msg goodbye_msg.
  destruct agent_is_there as [Hready Hagent].
  unfold handle_message. rewrite Hready, Hagent. simpl.
  subst sess. destruct (ensure_session cl e) as [sess cl1]. simpl.
  rewrite (exit_command_nonempty _ Hexit), Hexit. simpl.
  eexists. split; [reflexivity|].
  split; [|by destruct (present (conversations ui !! sess))].
  unfold transcript, conversation_append.
  destruct (conversations ui !! sess) as [l|] eqn:El; simpl.
  - rewrite !lookup_alter_eq, El. simpl. by rewrite <- app_assoc.
  - by rewrite !lookup_alter_eq, lookup_insert_eq.
Qed.

End Ready.

Lemma exit_command_bypasses_agent_witness :
  exists ui',
    handle_message idle_ui client1 env1 (Some (lit "  Quit "))
      = (ui', client1,
         [message_received (Message user (lit "Quit") (lit "0"));
          agent_response (Message assistant goodbye_content (lit "1")) None],
         None)
    /\ transcript ui' (lit "session_1")
       = [Message user (lit "Quit") (lit "0");
          Message assistant goodbye_content (lit "1")]
    /\ stop_events ui' = ∅
    /\ events ui' = []
    /\ active_threads ui' = ∅
    /\ threads ui' = 0.
Proof.
  apply (exit_command_bypasses_agent idle_ui (conj eq_refl eq_refl)
           client1 env1 (Some (lit "  Quit "))).
  reflexivity.
Defined.

(** Every transcript has its key before a thread appends to it. *)
Lemma handle_message_registers ui cl e data ui' cl' evs g :
  handle_message ui cl e data = (ui', cl', evs, Some g) ->
  is_Some (conversations ui' !! g_session g)
  /\ stop_events ui' !! g_session g = Some (g_stop_event g)
  /\ events ui' !! g_stop_event g = Some false
  /\ g_stop_event g = length (events ui)
  /\ g_session g = fst (ensure_session cl e).
Proof.
  unfold handle_message.
  destruct (negb (agent_ready ui) || negb (present (sfc_agent ui)));
    [discriminate|].
  destruct (ensure_session cl e) as [sess cl1]. simpl.
  destruct (negb (truthy (strip (default [] data)))); [discriminate|].
  destruct (mem _ _); [discriminate|].
  intros [= <- <- <- <-]. simpl.
  repeat split.
  - rewrite lookup_alter_eq.
    destruct (conversations ui !! sess) as [l|] eqn:El; simpl.
    + rewrite El. by eexists.
    + rewrite lookup_insert_eq. by eexists.
  - by rewrite lookup_insert_eq.
  - destruct (present (conversations ui !! sess)); simpl;
      by rewrite lookup_app_r, Nat.sub_diag.
  - by destruct (present (conversations ui !! sess)).
Qed.

(** C9.  After [handle_clear_conversation] the transcript of the session
    it was called for holds the welcome message and nothing else; after
    a second call in a row the same is true of the session of that
    call, and of the session of the first. *)
Theorem clear_twice_one_welcome (ui : ChatUI) (cl : client)
    (e1 e2 : env) (d1 d2 : option str) :
  let '(ui1, cl1, _) := handle_clear_conversation ui cl e1 d1 in
  let '(ui2, cl2, _) := handle_clear_conversation ui1 cl1 e2 d2 in
  exists sess1 sess2 t,
    flask_session cl1 = Some sess1
    /\ flask_session cl2 = Some sess2
    /\ conversations ui1 !! sess1
       = Some [Message assistant welcome_message (isoformat e1 0)]
    /\ conversations ui2 !! sess2
       = Some [Message assistant welcome_message (isoformat e2 0)]
    /\ conversations ui2 !! sess1 = Some [Message assistant welcome_message t].
Proof.
  assert (Hone : forall u c e d,
    let '(u1, c1, _) := handle_clear_conversation u c e d in
    exists sess,
      flask_session c1 = Some sess
      /\ conversations u1 !! sess
         = Some [Message assistant welcome_message (isoformat e 0)]
      /\ forall other, other <> sess ->
           conversations u1 !! other = conversations u !! other).
  { intros u c e d. unfold handle_clear_conversation.
    set (p := match d with
              | Some n =>
                  if truthy n then (n, Client (Some n) (request_sid c))
                  else ensure_session c e
              | None => ensure_session c e
              end).
    assert (Hp : flask_session (snd p) = Some (fst p)).
    { subst p. unfold ensure_session.
      destruct d as [n|]; [destruct (truthy n); [reflexivity|]|];
        (destruct (flask_session c) as [s|] eqn:Es;
         [destruct (truthy s); [exact Es | reflexivity] | reflexivity]). }
    destruct p as [sess c1]. simpl in Hp. exists sess.
    split; [exact Hp|].
    split.
    - simpl. destruct (sfc_agent u), (fresh_agent e); simpl;
        by rewrite lookup_alter_eq, lookup_insert_eq.
    - intros other Hne. simpl.
      destruct (sfc_agent u), (fresh_agent e); simpl;
        by rewrite lookup_alter_ne, lookup_insert_ne. }
  pose proof (Hone ui cl e1 d1) as H1.
  destruct (handle_clear_conversation ui cl e1 d1) as [[ui1 cl1] ev1].
  pose proof (Hone ui1 cl1 e2 d2) as H2.
  destruct (handle_clear_conversation ui1 cl1 e2 d2) as [[ui2 cl2] ev2].
  destruct H1 as (sess1 & Hs1 & Hc1 & _).
  destruct H2 as (sess2 & Hs2 & Hc2 & Hframe).
  destruct (decide (sess1 = sess2)) as [->|Hne].
  - exists sess2, sess2, (isoformat e2 0). auto.
  - exists sess1, sess2, (isoformat e1 0).
    repeat split; try assumption. rewrite Hframe by done. exact Hc1.
Qed.

Lemma cleanup_facts (sess : str) (ui : ChatUI) :
  stop_events (cleanup sess ui) = delete sess (stop_events ui)
  /\ events (cleanup sess ui) = events ui
  /\ conversations (cleanup sess ui) = conversations ui.
Proof.
  split.
  - unfold cleanup.
    destruct (stop_events ui !! sess) eqn:E; simpl.
    + by destruct (present (active_threads ui !! sess)).
    + rewrite (delete_id _ _ E).
      by destruct (present (active_threads ui !! sess)).
  - unfold cleanup.
    destruct (present (stop_events ui !! sess)); simpl;
      by match goal with |- context [present ?x] => destruct (present x) end.
Qed.

(** C4, as the code has it.  The cleanup at the end of a generation
    removes whatever the registry holds for the session: it does not
    look at the token.  The entries of other sessions and the tokens
    themselves stay as they are. *)
Theorem cleanup_clears_any_token (sess : str) (ui : ChatUI) :
  stop_events (cleanup sess ui) = delete sess (stop_events ui)
  /\ stop_events (cleanup sess ui) !! sess = None
  /\ events (cleanup sess ui) = events ui
  /\ conversations (cleanup sess ui) = conversations ui.
Proof.
  destruct (cleanup_facts sess ui) as (Hs & He & Hc).
  split; [exact Hs|]. split; [rewrite Hs; apply lookup_delete_eq|].
  by split.
Qed.

(** ** The run of one generation *)

Section RunFacts.

Variable w : world.
Variable set0 : bool.

Lemma is_set_mono t t' :
  t <= t' -> is_set_at w set0 t = true -> is_set_at w set0 t' = true.
Proof.
  unfold is_set_at. intros Hle. destruct set0; [done|]. simpl.
  destruct (stop_at w) as [s|]; [|done].
  rewrite !Nat.leb_le. lia.
Qed.

Lemma never_stopped_unset t :
  never_stopped w set0 -> is_set_at w set0 t = false.
Proof. intros [-> Hs]. unfold is_set_at. now rewrite Hs. Qed.

Lemma extends_refl r : extends r r.
Proof.
  split; [done|]. exists []. split; [by rewrite app_nil_r | constructor].
Qed.

Lemma extends_trans r1 r2 r3 : extends r1 r2 -> extends r2 r3 -> extends r1 r3.
Proof.
  intros [Hi (e1 & He1 & Hp1)] [Hj (e2 & He2 & Hp2)].
  split; [lia|]. exists (e1 ++ e2). split.
  - rewrite He2, He1. by rewrite app_assoc.
  - by apply Forall_app.
Qed.

Lemma write_partial a text c :
  Forall (fun ev => is_partial ev = true) (snd (fst (write a text c))).
Proof.
  unfold write. destruct (truthy (strip text)); simpl; [|constructor].
  destruct (_ || _); simpl; [|constructor].
  unfold emit_partial_response.
  destruct (_ && _); simpl; repeat constructor.
Qed.

Lemma flush_partial a c :
  Forall (fun ev => is_partial ev = true) (snd (flush a c)).
Proof.
  unfold flush, emit_partial_response.
  destruct (truthy (strip (accumulated_output c))); simpl; [|constructor].
  destruct (not_stopped a c); simpl; repeat constructor.
Qed.

Lemma sys_stdout_write_facts text r :
  instant (sys_stdout_write w set0 text r) = instant r
  /\ worker_from (sys_stdout_write w set0 text r) = worker_from r
  /\ redirected (sys_stdout_write w set0 text r) = redirected r
  /\ extends r (sys_stdout_write w set0 text r)
  /\ (redirected r = false ->
      emitted (sys_stdout_write w set0 text r) = emitted r).
Proof.
  unfold sys_stdout_write. destruct (redirected r) eqn:Er.
  - destruct (patched_now w r && is_set_at w set0 (instant r)).
    + rewrite Er. do 3 (split; [done|]). split; [apply extends_refl | done].
    + pose proof (write_partial (ambient_now w set0 r) text (capture r)) as Hp.
      destruct (write _ text (capture r)) as [[c evs] n]. simpl in *.
      do 3 (split; [done|]). split; [|done]. split; [done|]. by exists evs.
  - simpl. rewrite app_nil_r. do 3 (split; [done|]). split; [|done].
    split; [done|]. exists []. split; [reflexivity | constructor].
Qed.

Lemma fold_write_facts texts r :
  let r' := fold_left (fun acc text => sys_stdout_write w set0 text acc)
              texts r in
  instant r' = instant r
  /\ worker_from r' = worker_from r
  /\ redirected r' = redirected r
  /\ extends r r'
  /\ (redirected r = false -> emitted r' = emitted r).
Proof.
  revert r. induction texts as [|text texts IH]; intros r; simpl.
  - do 3 (split; [done|]). split; [apply extends_refl | done].
  - destruct (sys_stdout_write_facts text r) as (Hi & Hw & Hr & He & Hm).
    destruct (IH (sys_stdout_write w set0 text r))
      as (Hi' & Hw' & Hr' & He' & Hm').
    split; [congruence|]. split; [congruence|]. split; [congruence|].
    split; [by eapply extends_trans|].
    intros Hf. rewrite Hm', Hm; congruence.
Qed.

Lemma tick_facts r :
  instant (tick w set0 r) = S (instant r)
  /\ worker_from (tick w set0 r) = worker_from r
  /\ redirected (tick w set0 r) = redirected r
  /\ extends r (tick w set0 r)
  /\ (redirected r = false -> emitted (tick w set0 r) = emitted r).
Proof.
  unfold tick. destruct (calling_now w r); simpl.
  - destruct (fold_write_facts (output w (instant r)) r)
      as (Hi & Hw & Hr & He & Hm).
    simpl in *. rewrite Hi, Hw, Hr. do 3 (split; [done|]). split; [|done].
    split; [simpl; lia|]. destruct He as [_ (evs & Hev & Hp)]. by exists evs.
  - do 3 (split; [done|]). split; [|done]. split; [simpl; lia|].
    exists []. split; [by rewrite app_nil_r|constructor].
Qed.

Lemma instant_tick r : instant (tick w set0 r) = S (instant r).
Proof. apply tick_facts. Qed.

Lemma worker_from_tick r : worker_from (tick w set0 r) = worker_from r.
Proof. apply tick_facts. Qed.

Lemma redirected_tick r : redirected (tick w set0 r) = redirected r.
Proof. apply tick_facts. Qed.

Lemma emitted_tick_restored r :
  redirected r = false -> emitted (tick w set0 r) = emitted r.
Proof. apply tick_facts. Qed.

Lemma extends_tick r r0 : extends r r0 -> extends r (tick w set0 r0).
Proof. intros H. eapply extends_trans; [exact H | apply tick_facts]. Qed.

Lemma extends_write text r r0 :
  extends r r0 -> extends r (sys_stdout_write w set0 text r0).
Proof.
  intros H. eapply extends_trans; [exact H | apply sys_stdout_write_facts].
Qed.

Lemma instant_write text r :
  instant (sys_stdout_write w set0 text r) = instant r.
Proof. apply sys_stdout_write_facts. Qed.

Lemma worker_from_write text r :
  worker_from (sys_stdout_write w set0 text r) = worker_from r.
Proof. apply sys_stdout_write_facts. Qed.

Lemma redirected_write text r :
  redirected (sys_stdout_write w set0 text r) = redirected r.
Proof. apply sys_stdout_write_facts. Qed.

Lemma py_print_facts text r :
  instant (snd (py_print w set0 text r)) = S (instant r)
  /\ worker_from (snd (py_print w set0 text r)) = worker_from r
  /\ redirected (snd (py_print w set0 text r)) = redirected r
  /\ extends r (snd (py_print w set0 text r)).
Proof.
  unfold py_print.
  destruct (patched_now w r && is_set_at w set0 (instant r)); cbn [snd].
  - pose proof (tick_facts r). tauto.
  - rewrite instant_tick, worker_from_tick, redirected_tick, !instant_write,
      !worker_from_write, !redirected_write.
    do 3 (split; [done|]).
    apply extends_tick, extends_write, extends_write, extends_refl.
Qed.

Lemma capture_flush_facts r :
  instant (snd (capture_flush w set0 r)) = S (instant r)
  /\ worker_from (snd (capture_flush w set0 r)) = worker_from r
  /\ redirected (snd (capture_flush w set0 r)) = redirected r
  /\ extends r (snd (capture_flush w set0 r)).
Proof.
  unfold capture_flush.
  pose proof (flush_partial (ambient_now w set0 r) (capture r)) as Hp.
  destruct (flush _ (capture r)) as [c evs]. cbn [snd] in *.
  rewrite instant_tick, worker_from_tick, redirected_tick. simpl.
  do 3 (split; [done|]). apply extends_tick.
  split; [done|]. by exists evs.
Qed.

Lemma ends_at_same r r' :
  worker_from r' = worker_from r -> ends_at w r' = ends_at w r.
Proof. unfold ends_at. by intros ->. Qed.

Lemma completed_now_mono r r' :
  worker_from r' = worker_from r -> instant r <= instant r' ->
  completed_now w r = true -> completed_now w r' = true.
Proof.
  unfold completed_now. intros Hw Hle. rewrite (ends_at_same _ _ Hw).
  destruct (ends_at w r); [|done]. rewrite !Nat.leb_le. lia.
Qed.

End RunFacts.

Section PollFacts.

Variable w : world.
Variable set0 : bool.

Lemma poll_facts start timeout r :
  let p := poll w set0 start timeout r in
  extends r (snd p)
  /\ worker_from (snd p) = worker_from r
  /\ instant r < instant (snd p)
  /\ (stop_exit (fst p) = true -> is_set_at w set0 (instant (snd p)) = true)
  /\ (forall d, fst p = Some (TimeoutReturn d) ->
        (inject_Z timeout < d)%Q
        /\ exists t, instant r <= t /\ d = (clock w t - start)%Q)
  /\ (fst p = None -> instant (snd p) = instant r + 5).
Proof.
  unfold poll, bind, look, ret, sleep.
  destruct (is_alive_now w r); cbn [negb fst snd].
  2:{ rewrite instant_tick, worker_from_tick.
      split; [apply extends_tick, extends_refl|].
      repeat split; try lia; try discriminate. }
  destruct (completed_now w (tick w set0 r)); cbn [fst snd].
  { rewrite !instant_tick, !worker_from_tick.
    split; [do 2 apply extends_tick; apply extends_refl|].
    repeat split; try lia; try discriminate. }
  destruct (is_set_at w set0 (instant (tick w set0 (tick w set0 r)))) eqn:Es.
  - destruct (py_print w set0 stop_requested_line _) as [[] r1] eqn:E1.
    pose proof (py_print_facts w set0 stop_requested_line
                  (tick w set0 (tick w set0 (tick w set0 r)))) as H1.
    rewrite E1 in H1. cbn [snd] in H1. destruct H1 as (Hi1 & Hw1 & _ & He1).
    assert (He : extends r (tick w set0 (tick w set0 r1))).
    { do 2 apply extends_tick. eapply extends_trans; [|exact He1].
      do 3 apply extends_tick. apply extends_refl. }
    assert (Hset : forall t, instant r1 <= t -> is_set_at w set0 t = true).
    { intros t Ht. eapply is_set_mono; [|exact Es].
      rewrite Hi1, !instant_tick in *. lia. }
    destruct (is_alive_now w (tick w set0 r1)).
    + destruct (py_print w set0 still_running_line _) as [[] r2] eqn:E2.
      pose proof (py_print_facts w set0 still_running_line
                    (tick w set0 (tick w set0 r1))) as H2.
      rewrite E2 in H2. cbn [snd] in H2. destruct H2 as (Hi2 & Hw2 & _ & He2).
      cbn [fst snd].
      split; [by eapply extends_trans|].
      rewrite Hw2, Hi2, !worker_from_tick, Hw1, !worker_from_tick,
        !instant_tick, Hi1, !instant_tick.
      repeat split; try lia; try discriminate.
      intros _. apply Hset. rewrite Hi1, !instant_tick. lia.
    + cbn [fst snd]. split; [exact He|].
      rewrite !worker_from_tick, Hw1, !worker_from_tick,
        !instant_tick, Hi1, !instant_tick.
      repeat split; try lia; try discriminate.
      intros _. apply Hset. rewrite Hi1, !instant_tick. lia.
  - destruct (Qle_bool _ _) eqn:Eq; cbn [negb fst snd].
    + rewrite !instant_tick, !worker_from_tick.
      split; [do 5 apply extends_tick; apply extends_refl|].
      repeat split; try lia; try discriminate.
    + rewrite !instant_tick, !worker_from_tick.
      split; [do 4 apply extends_tick; apply extends_refl|].
      split; [done|]. split; [lia|]. split; [discriminate|].
      split; [|discriminate].
      intros d [= <-]. split.
      * apply Qnot_le_lt. intros Hle. rewrite !instant_tick in Eq.
        rewrite (proj2 (Qle_bool_iff _ _) Hle) in Eq. discriminate.
      * eexists. split; [|reflexivity]. lia.
Qed.

(** The checks of one turn, in the order the code makes them. *)
Lemma poll_chain (start : Q) (timeout : Z) (r : run) :
  let r1 := tick w set0 r in
  let r2 := tick w set0 r1 in
  let r3 := tick w set0 r2 in
  let x := fst (poll w set0 start timeout r) in
  if negb (is_alive_now w r) || completed_now w r1 then
    x = Some GuardExit
  else if is_set_at w set0 (instant r2) then
    x = Some StopReturn \/ x = Some StopBreak
  else if Qle_bool (clock w (instant r3) - start) (inject_Z timeout) then
    x = None
  else x = Some (TimeoutReturn (clock w (instant r3) - start)).
Proof.
  cbv zeta. unfold poll, bind, look, ret, sleep.
  destruct (is_alive_now w r); cbn [negb orb fst]; [|reflexivity].
  destruct (completed_now w (tick w set0 r)); cbn [fst]; [reflexivity|].
  destruct (is_set_at w set0 (instant (tick w set0 (tick w set0 r)))).
  - destruct (py_print w set0 stop_requested_line _) as [[] q1].
    destruct (is_alive_now w (tick w set0 q1)).
    + destruct (py_print w set0 still_running_line _) as [[] q2].
      left. reflexivity.
    + right. reflexivity.
  - destruct (Qle_bool _ _); reflexivity.
Qed.

(** C2, as the code has it.  One turn of the loop checks, in this
    order: completion (the guard: the thread is over, or the completed
    flag is set), then cancellation, then the deadline.  So a completed
    flag that is set when the turn begins ends the loop through the
    guard, whatever the token and the clock say; with the worker still
    running, a set token gives a cancelled exit before the clock is
    read; and only with the token unset is the deadline looked at. *)
Theorem poll_checks_in_order (start : Q) (timeout : Z) (r : run) :
  let r1 := tick w set0 r in
  let r2 := tick w set0 r1 in
  let r3 := tick w set0 r2 in
  let x := fst (poll w set0 start timeout r) in
  (completed_now w r = true -> x = Some GuardExit)
  /\ (if negb (is_alive_now w r) || completed_now w r1 then
        x = Some GuardExit
      else if is_set_at w set0 (instant r2) then
        x = Some StopReturn \/ x = Some StopBreak
      else if Qle_bool (clock w (instant r3) - start) (inject_Z timeout) then
        x = None
      else x = Some (TimeoutReturn (clock w (instant r3) - start))).
Proof.
  intros r1 r2 r3 x.
  pose proof (poll_chain start timeout r) as Hchain.
  split; [|exact Hchain].
  intros Hdone.
  assert (H1 : completed_now w r1 = true).
  { apply (completed_now_mono w r r1); subst r1;
      [apply worker_from_tick | rewrite instant_tick; lia | exact Hdone]. }
  cbv zeta in Hchain. fold r1 in Hchain.
  rewrite H1, orb_true_r in Hchain. exact Hchain.
Qed.

Lemma poll_loop_facts fuel start timeout r :
  let p := poll_loop w set0 fuel start timeout r in
  extends r (snd p)
  /\ worker_from (snd p) = worker_from r
  /\ instant r <= instant (snd p)
  /\ (stop_exit (fst p) = true -> is_set_at w set0 (instant (snd p)) = true)
  /\ (forall d, fst p = Some (TimeoutReturn d) ->
        (inject_Z timeout < d)%Q
        /\ exists t, instant r <= t /\ d = (clock w t - start)%Q).
Proof.
  revert r. induction fuel as [|fuel IH]; intros r; cbn [poll_loop].
  - unfold ret. cbn [fst snd].
    split; [apply extends_refl|]. repeat split; try done.
  - unfold bind.
    pose proof (poll_facts start timeout r) as Hp.
    destruct (poll w set0 start timeout r) as [x r1].
    cbn [fst snd] in Hp. destruct Hp as (He & Hw & Hi & Hs & Ht & _).
    destruct x as [how|].
    + unfold ret. cbn [fst snd].
      split; [exact He|]. split; [exact Hw|]. split; [lia|]. by split.
    + specialize (IH r1). cbn zeta in IH.
      destruct IH as (He' & Hw' & Hi' & Hs' & Ht').
      split; [by eapply extends_trans|]. split; [congruence|].
      split; [lia|]. split; [exact Hs'|].
      intros d Hd. destruct (Ht' d Hd) as (Hlt & t & Hle & Heq).
      split; [exact Hlt|]. exists t. split; [lia | exact Heq].
Qed.

(** While the agent call goes on and no stop comes, the loop is left
    by the deadline alone, once the clock is past it. *)
Lemma poll_loop_idle (T : nat) (start : Q) (timeout : Z) :
  agent_takes w = None -> never_stopped w set0 ->
  (forall t, T <= t -> (start + inject_Z timeout < clock w t)%Q) ->
  forall k r, is_Some (worker_from r) -> T <= instant r + 3 + 5 * k ->
  forall fuel, k < fuel ->
  exists d r',
    poll_loop w set0 fuel start timeout r = (Some (TimeoutReturn d), r')
    /\ (inject_Z timeout < d)%Q
    /\ (exists t, instant r <= t /\ d = (clock w t - start)%Q).
Proof.
  intros Hnever Hstop Hclock.
  induction k as [|k IH]; intros r Hfrom HT fuel Hfuel;
    (destruct fuel as [|fuel]; [lia|]); cbn [poll_loop]; unfold bind.
  all: pose proof (poll_chain start timeout r) as Hchain; cbv zeta in Hchain;
    pose proof (poll_facts start timeout r) as Hp;
    destruct (poll w set0 start timeout r) as [x r1];
    cbn [fst snd] in *;
    destruct Hp as (_ & Hw & _ & _ & Ht & Hcont).
  all: assert (Halive : is_alive_now w r = true)
    by (unfold is_alive_now, ends_at; destruct Hfrom as [s ->];
        by rewrite Hnever).
  all: assert (Hdone : completed_now w (tick w set0 r) = false)
    by (unfold completed_now, ends_at; by rewrite Hnever;
        destruct (worker_from (tick w set0 r))).
  all: rewrite Halive, Hdone, (never_stopped_unset w set0 _ Hstop) in Hchain;
    cbn [negb orb] in Hchain; rewrite !instant_tick in Hchain.
  all: destruct (Qle_bool _ _) eqn:Eq.
  - exfalso. apply Qle_bool_iff in Eq.
    specialize (Hclock (S (S (S (instant r)))) ltac:(lia)). lra.
  - subst x. unfold ret. eexists _, r1. split; [reflexivity|].
    apply Ht. reflexivity.
  - subst x. specialize (Hcont eq_refl).
    destruct (IH r1) with (fuel := fuel) as (d & r' & Hl & Hlt & t & Hle & Hd).
    + by rewrite Hw.
    + lia.
    + lia.
    + exists d, r'. split; [exact Hl|]. split; [exact Hlt|].
      exists t. split; [lia | exact Hd].
  - subst x. unfold ret. eexists _, r1. split; [reflexivity|].
    apply Ht. reflexivity.
Qed.

End PollFacts.

Section SupervisorFacts.

Variable w : world.
Variable set0 : bool.

Lemma terminal_of_cancelled how a :
  terminal_of how a = CANCELLED -> stop_exit (Some how) = true.
Proof.
  destruct how; simpl; try done.
  destruct (error a) as [[|c e]|]; discriminate.
Qed.

Lemma terminal_of_timed_out how a :
  terminal_of how a = TIMED_OUT -> exists d, how = TimeoutReturn d.
Proof.
  destruct how; simpl; try discriminate; [|by eexists].
  destruct (error a) as [[|c e]|]; discriminate.
Qed.

(** What [run_with_timeout] gives back, when it gives something back. *)
Lemma run_with_timeout_facts fuel timeout r :
  let p := run_with_timeout w set0 fuel timeout r in
  extends r (snd p)
  /\ match fst p with
     | Unfinished => True
     | Raised e => start_error w = Some e /\ snd p = r
     | Returned (text, how, st) =>
         (st = CANCELLED -> is_set_at w set0 (instant (snd p)) = true)
         /\ (st = TIMED_OUT ->
               text = timed_out_text timeout
               /\ exists d, how = TimeoutReturn d /\ (inject_Z timeout < d)%Q)
     end.
Proof.
  unfold run_with_timeout.
  destruct (start_error w) as [e|] eqn:Ee.
  { unfold ret. cbn [fst snd]. split; [apply extends_refl | done]. }
  unfold bind, start_thread, look.
  set (r0 := tick w set0 (tick w set0 (Run _ _ _ _ _))).
  assert (H0 : extends r r0).
  { subst r0. do 2 apply extends_tick. split; [done|].
    exists []. split; [by rewrite app_nil_r | constructor]. }
  pose proof (poll_loop_facts w set0 fuel
                (clock w (instant (tick w set0
                   (Run (instant r) (capture r) (redirected r) (emitted r)
                      (Some (instant r)))))) timeout r0) as Hl.
  destruct (poll_loop w set0 fuel _ timeout r0) as [x r1].
  cbn [fst snd] in Hl. destruct Hl as (He & _ & _ & Hs & Ht).
  assert (H1 : extends r r1) by (by eapply extends_trans).
  destruct x as [[| | |d]|]; unfold ret; cbn [fst snd].
  - split; [by apply extends_tick|]. split; intros Hst.
    + by apply terminal_of_cancelled in Hst.
    + apply terminal_of_timed_out in Hst as [d Hd]. discriminate.
  - split; [by apply extends_tick|]. split; intros Hst; [|discriminate].
    eapply is_set_mono; [|apply Hs; reflexivity].
    rewrite instant_tick. lia.
  - split; [exact H1|]. split; intros Hst; [|discriminate].
    apply Hs. reflexivity.
  - split; [exact H1|]. split; intros Hst; [discriminate|].
    split; [reflexivity|]. exists d. split; [reflexivity|].
    by destruct (Ht d eq_refl).
  - done.
Qed.

End SupervisorFacts.

(** C6.  When the agent call never ends and no stop request ever comes,
    the supervisor returns, given turns enough, and what it returns is
    the timed-out text, through the deadline exit, in state TIMED_OUT;
    the time elapsed at the poll that returns, read off the clock, is
    more than the deadline, so never less than it.  Time is taken to go
    on, and the thread to start. *)
Theorem blocked_worker_times_out (w : world) (timeout : Z) (r : run) :
  start_error w = None ->
  agent_takes w = None ->
  never_stopped w false ->
  time_passes w ->
  exists fuel0, forall fuel, fuel0 <= fuel ->
    exists elapsed r',
      run_with_timeout w false fuel timeout r
        = (Returned (timed_out_text timeout, TimeoutReturn elapsed, TIMED_OUT),
           r')
      /\ (inject_Z timeout < elapsed)%Q
      /\ (inject_Z timeout <= elapsed)%Q
      /\ exists t, S (instant r) < t
                   /\ elapsed = (clock w t - clock w (S (instant r)))%Q.
Proof.
  intros Hstart Hblocks Hstop Htime.
  destruct (Htime (S (instant r)) (inject_Z timeout)) as [T HT].
  exists (S T). intros fuel Hfuel.
  unfold run_with_timeout. rewrite Hstart.
  unfold bind, start_thread, look.
  set (r0 := tick w false (Run (instant r) (capture r) (redirected r)
                             (emitted r) (Some (instant r)))).
  assert (Hi0 : instant r0 = S (instant r)) by (subst r0; by rewrite instant_tick).
  assert (Hw0 : worker_from r0 = Some (instant r))
    by (subst r0; by rewrite worker_from_tick).
  rewrite Hi0.
  destruct (poll_loop_idle w false T (clock w (S (instant r))) timeout
              Hblocks Hstop HT T (tick w false r0)) with (fuel := fuel)
    as (d & r' & Hl & Hlt & t & Hle & Hd).
  - rewrite worker_from_tick, Hw0. by eexists.
  - lia.
  - lia.
  - rewrite Hl. unfold ret. exists d, r'. split; [reflexivity|].
    split; [exact Hlt|]. split; [by apply Qlt_le_weak|].
    exists t. split; [|exact Hd]. rewrite instant_tick, Hi0 in Hle. lia.
Qed.

Section ThreadFacts.

Variable w : world.
Variable set0 : bool.
Variable g : generation.

Lemma extends_emitted r r' :
  extends r r' ->
  exists evs, emitted r' = emitted r ++ evs
              /\ Forall (fun ev => is_partial ev = true) evs.
Proof. by intros [_ H]. Qed.

Lemma emitted_Run i c d evs wf : emitted (Run i c d evs wf) = evs.
Proof. reflexivity. Qed.

Lemma emitted_set_capture r c evs :
  emitted (set_capture r c evs) = emitted r ++ evs.
Proof. reflexivity. Qed.

Lemma after_response_facts r :
  extends r (snd (after_response w set0 g r)).
Proof.
  unfold after_response, bind, sleep, ret.
  pose proof (capture_flush_facts w set0 r) as (_ & _ & _ & He).
  destruct (capture_flush w set0 r) as [[] r1]. cbn [snd] in He.
  destruct (contains _ _); [|exact He].
  pose proof (py_print_facts w set0 visualization_line r1) as (_ & _ & _ & Hp).
  destruct (py_print w set0 visualization_line r1) as [[] r2].
  cbn [snd] in *. apply extends_tick. by eapply extends_trans.
Qed.

(** Lines 404 to 426, run after the original stream is back. *)
Lemma respond_facts response r :
  redirected r = false ->
  let p := respond w set0 g response r in
  if is_set_at w set0 (instant r) then
    fst p = None /\ emitted (snd p) = emitted r
  else
    fst p = Some (Message assistant response (stamp w (S (instant r))))
    /\ emitted (snd p) = emitted r ++ [agent_streaming_end (g_sid g)].
Proof.
  intros Hr. unfold respond, bind, stop_is_set, look, emit, ret.
  destruct (is_set_at w set0 (instant r)); cbn [negb fst snd].
  - split; [done|]. by apply emitted_tick_restored.
  - split.
    + cbn [instant set_capture to_text]. by rewrite instant_tick.
    + rewrite emitted_tick_restored
        by (cbn [redirected set_capture]; by rewrite redirected_tick).
      cbn [emitted set_capture]. by rewrite emitted_tick_restored.
Qed.

(** The [except] block, run after the original stream is back. *)
Lemma on_exception_facts e r :
  redirected r = false ->
  let p := on_exception w set0 g e r in
  exists partials,
    Forall (fun ev => is_partial ev = true) partials
    /\ if is_set_at w set0 (S (instant r)) then
         fst p = None
         /\ emitted (snd p)
            = emitted r ++ partials
              ++ [agent_streaming_end (g_sid g);
                  generation_stopped stopped_during (g_sid g)]
       else
         exists now,
           let error_msg :=
             Message assistant (error_intro ++ e ++ error_advice) now in
           fst p = Some error_msg
           /\ emitted (snd p)
              = emitted r ++ partials
                ++ [agent_streaming_end (g_sid g);
                    agent_response error_msg (Some (g_sid g))].
Proof.
  intros Hr. unfold on_exception, bind, stop_is_set, look, emit, ret.
  pose proof (capture_flush_facts w set0 r) as (Hi & _ & Hd & He).
  destruct (capture_flush w set0 r) as [[] r1]. cbn [snd] in *.
  destruct (extends_emitted _ _ He) as (partials & Hem & Hp).
  exists partials. split; [exact Hp|].
  assert (Hr1 : redirected r1 = false) by congruence.
  cbn [instant set_capture]. rewrite Hi.
  destruct (is_set_at w set0 (S (instant r))); cbn [fst snd].
  - split; [done|]. cbn [emitted set_capture].
    rewrite emitted_tick_restored by done.
    cbn [emitted set_capture]. rewrite Hem, <- !app_assoc. done.
  - eexists. split; [reflexivity|]. cbn [emitted set_capture].
    rewrite emitted_tick_restored by (by rewrite redirected_tick).
    rewrite emitted_tick_restored by done.
    cbn [emitted set_capture]. rewrite Hem, <- !app_assoc. done.
Qed.

Lemma thread_body_facts fuel r e r' :
  thread_body w set0 g fuel r = (Some e, r') ->
  (state e = CANCELLED ->
     appended e = None
     /\ exists partials text,
          emitted r'
            = emitted r ++ partials ++ [generation_stopped text (g_sid g)]
          /\ Forall (fun ev => is_partial ev = true) partials)
  /\ (never_stopped w set0 ->
      state e <> CANCELLED
      /\ exists partials m,
           appended e = Some m
           /\ msg_role m = assistant
           /\ Forall (fun ev => is_partial ev = true) partials
           /\ ((exists how,
                  exit_taken e = Some how
                  /\ fst (run_with_timeout w set0 fuel 300 (tick w set0 r))
                     = Returned (msg_content m, how, state e))
               /\ emitted r'
                  = emitted r ++ partials ++ [agent_streaming_end (g_sid g)]
               /\ (state e = TIMED_OUT ->
                   msg_content m = timed_out_text 300)
               \/ exit_taken e = None
                  /\ state e = ERRORED
                  /\ msg_content m
                     = error_intro ++ default [] (start_error w)
                       ++ error_advice
                  /\ emitted r'
                     = emitted r ++ partials
                       ++ [agent_streaming_end (g_sid g);
                           agent_response m (Some (g_sid g))])).
Proof.
  unfold thread_body, bind, stop_is_set, look.
  pose proof (tick_facts w set0 r) as (Hi0 & _ & _ & He0 & _).
  destruct (is_set_at w set0 (instant r)) eqn:Es0.
  { (* stopped before starting *)
    unfold emit, restore_stdout, ret. intros Heq. apply pair_equal_spec in Heq as [[= <-] <-].
    cbn [appended state exit_taken].
    rewrite ?emitted_Run, ?emitted_set_capture.
    destruct (extends_emitted _ _ He0) as (p0 & Hp0 & Hf0).
    split.
    - intros _. split; [done|]. exists p0, stopped_before_starting.
      rewrite Hp0, <- app_assoc. done.
    - intros Hn. by rewrite never_stopped_unset in Es0. }
  pose proof (run_with_timeout_facts w set0 fuel 300 (tick w set0 r))
    as [He1 Hx].
  unfold _run_agent_with_stop_check.
  destruct (run_with_timeout w set0 fuel 300 (tick w set0 r)) as [x r1].
  cbn [fst snd] in *.
  assert (He01 : extends r r1) by (by eapply extends_trans).
  destruct x as [|err|[[response how] st]].
  - unfold ret. discriminate.
  - (* the thread could not be started *)
    destruct Hx as [Herr ->]. unfold restore_stdout.
    set (r2 := Run _ _ false _ _).
    pose proof (on_exception_facts err r2 eq_refl) as (p2 & Hf2 & H2).
    destruct (on_exception w set0 g err r2) as [m r3].
    unfold ret. intros Heq. apply pair_equal_spec in Heq as [[= <-] <-]. cbn [appended exit_taken state fst snd] in *.
    split; [discriminate|]. intros Hn. split; [discriminate|].
    rewrite never_stopped_unset in H2 by done.
    destruct H2 as (now & -> & Hem).
    destruct (extends_emitted _ _ He0) as (p0 & Hp0 & Hf0).
    exists (p0 ++ p2), (Message assistant (error_intro ++ err ++ error_advice) now).
    split; [done|]. split; [done|]. split; [by apply Forall_app|].
    right. split; [done|]. split; [done|]. split; [by rewrite Herr|].
    rewrite Hem. subst r2. cbn [emitted]. rewrite Hp0, <- !app_assoc. done.
  - destruct Hx as [Hc Ht].
    pose proof (tick_facts w set0 r1) as (Hi1 & _ & _ & He1' & _).
    destruct (is_set_at w set0 (instant r1)) eqn:Es1.
    + (* stopped during processing *)
      unfold emit, restore_stdout, ret. intros Heq. apply pair_equal_spec in Heq as [[= <-] <-].
    cbn [appended state exit_taken].
    rewrite ?emitted_Run, ?emitted_set_capture.
      assert (He : extends r (tick w set0 r1)) by (by eapply extends_trans).
      destruct (extends_emitted _ _ He) as (p & Hp & Hf).
      split.
      * intros _. split; [done|]. exists p, stopped_during.
        rewrite Hp, <- app_assoc. done.
      * intros Hn. by rewrite never_stopped_unset in Es1.
    + pose proof (after_response_facts (tick w set0 r1)) as Ha.
      destruct (after_response w set0 g (tick w set0 r1)) as [[] r2].
      cbn [snd] in Ha. unfold restore_stdout.
      set (r3 := Run _ _ false _ _).
      pose proof (respond_facts response r3 eq_refl) as H3.
      destruct (respond w set0 g response r3) as [m r4].
      unfold ret. intros Heq. apply pair_equal_spec in Heq as [Hsome Hrun].
      injection Hsome as Hsome. subst e r'.
      cbn [appended exit_taken state] in *.
      split.
      * intros ->. by specialize (Hc eq_refl).
      * intros Hn. split.
        { intros ->. by specialize (Hc eq_refl). }
        cbv zeta in H3. rewrite never_stopped_unset in H3 by done.
        cbn [fst snd] in H3. destruct H3 as [-> Hem].
        assert (He : extends r r2).
        { eapply extends_trans; [exact He01|].
          eapply extends_trans; [exact He1' | exact Ha]. }
        destruct (extends_emitted _ _ He) as (p & Hp & Hf).
        exists p. eexists. split; [reflexivity|]. split; [done|].
        split; [exact Hf|]. left. split; [by eexists|]. split.
        -- rewrite Hem. subst r3. cbn [emitted]. rewrite Hp, <- app_assoc. done.
        -- intros Hst. cbn [msg_content]. by destruct (Ht Hst) as [-> _].
Qed.

End ThreadFacts.

(** ** The generation as a whole *)

Lemma process_agent_response_inv w fuel g ui fin :
  process_agent_response w fuel g ui = Some fin ->
  exists e r',
    thread_body w (default false (events ui !! g_stop_event g)) g fuel
      (first_run w g) = (Some e, r')
    /\ conversations (f_ui fin)
       = conversations
           (match appended e with
            | Some msg => conversation_append (g_session g) msg ui
            | None => ui
            end)
    /\ stop_events (f_ui fin) = delete (g_session g) (stop_events ui)
    /\ f_emitted fin = emitted r' ++ [agent_typing false (g_sid g)]
    /\ f_exit fin = exit_taken e
    /\ f_state fin = state e.
Proof.
  unfold process_agent_response.
  destruct (thread_body _ _ _ _ _) as [[e|] r']; [|discriminate].
  intros [= <-]. exists e, r'. split; [done|].
  cbn [f_ui f_emitted f_exit f_state conversations stop_events
       set_stop_events].
  destruct (cleanup_facts (g_session g)
              (match appended e with
               | Some msg => conversation_append (g_session g) msg ui
               | None => ui
               end)) as (Hs & _ & Hc).
  rewrite Hc, Hs. repeat split. by destruct (appended e).
Qed.

(** C1, as the code has it.  A generation that ends CANCELLED appends
    nothing: the conversations are as they were after the user's
    message, and what the client gets, besides the typing indicator,
    the streaming start and partial output, is one
    [generation_stopped].  A generation that ends TIMED_OUT, with no
    stop request, does leave an entry: the timed-out text is appended
    to the transcript of its session as an assistant message. *)
Theorem cancelled_appends_nothing (w : world) (fuel : nat) (g : generation)
    (ui : ChatUI) (fin : finished) :
  process_agent_response w fuel g ui = Some fin ->
  (f_state fin = CANCELLED ->
     conversations (f_ui fin) = conversations ui
     /\ exists partials text,
          Forall (fun ev => is_partial ev = true) partials
          /\ f_emitted fin
             = [agent_typing true (g_sid g);
                agent_streaming_start (g_session g) (g_sid g)]
               ++ partials
               ++ [generation_stopped text (g_sid g);
                   agent_typing false (g_sid g)])
  /\ (f_state fin = TIMED_OUT ->
      never_stopped w (default false (events ui !! g_stop_event g)) ->
      is_Some (conversations ui !! g_session g) ->
      exists now,
        transcript (f_ui fin) (g_session g)
        = transcript ui (g_session g)
          ++ [Message assistant (timed_out_text 300) now]).
Proof.
  intros Hrun.
  destruct (process_agent_response_inv _ _ _ _ _ Hrun)
    as (e & r' & Hbody & Hconv & _ & Hem & _ & Hst).
  destruct (thread_body_facts _ _ _ _ _ _ _ Hbody) as [Hcan Hnever].
  rewrite Hst, Hem. split.
  - intros Hc. destruct (Hcan Hc) as (Hnone & p & text & Hp & Hf).
    rewrite Hnone in Hconv. split; [exact Hconv|].
    exists p, text. split; [exact Hf|]. rewrite Hp. cbn [emitted first_run].
    by rewrite <- !app_assoc.
  - intros Ht Hn Hkey.
    destruct (Hnever Hn) as (_ & p & m & Happ & Hrole & Hf & Hcase).
    destruct Hcase as [(_ & Hp & Htext) | (_ & Herr & _)];
      [|congruence].
    destruct m as [mr mc mt]. cbn in Hrole, Htext.
    rewrite (Htext Ht) in Happ. subst mr.
    exists mt. rewrite Happ in Hconv.
    unfold transcript at 1. rewrite Hconv. by apply transcript_append.
Qed.

Lemma hello_started :
  handle_message idle_ui client1 env1 hello
  = (hello_ui, client1,
     [message_received (Message user (lit "hello") (lit "0"))],
     Some hello_gen).
Proof. reflexivity. Qed.

Lemma cancelled_appends_nothing_witness :
  exists fin,
    process_agent_response world_stopped 100 hello_gen hello_ui = Some fin
    /\ f_state fin = CANCELLED
    /\ conversations (f_ui fin) = conversations hello_ui
    /\ exists partials text,
         Forall (fun ev => is_partial ev = true) partials
         /\ f_emitted fin
            = [agent_typing true (lit "sid1");
               agent_streaming_start (lit "session_1") (lit "sid1")]
              ++ partials
              ++ [generation_stopped text (lit "sid1");
                  agent_typing false (lit "sid1")].
Proof.
  destruct (process_agent_response world_stopped 100 hello_gen hello_ui)
    as [fin|] eqn:E; [|vm_compute in E; discriminate].
  exists fin. split; [reflexivity|].
  assert (Hst : f_state fin = CANCELLED).
  { vm_compute in E. injection E as <-. reflexivity. }
  split; [exact Hst|].
  exact (proj1 (cancelled_appends_nothing world_stopped 100 hello_gen
                  hello_ui fin E) Hst).
Defined.

(** C1 as stated fails for TIMED_OUT: the turn leaves an assistant
    message in the transcript, and no [generation_stopped] is sent. *)
Lemma timed_out_appends_message :
  exists fin,
    process_agent_response world_blocks 100 hello_gen hello_ui = Some fin
    /\ f_state fin = TIMED_OUT
    /\ transcript hello_ui (lit "session_1")
       = [Message user (lit "hello") (lit "0")]
    /\ transcript (f_ui fin) (lit "session_1")
       = [Message user (lit "hello") (lit "0");
          Message assistant (lit "Generation timed out after 300 seconds.")
            (lit "16")]
    /\ f_emitted fin
       = [agent_typing true (lit "sid1");
          agent_streaming_start (lit "session_1") (lit "sid1");
          agent_streaming_end (lit "sid1");
          agent_typing false (lit "sid1")].
Proof. eexists. split; [vm_compute; reflexivity|]. repeat split. Qed.

(** C2 as stated fails: in [world_done_late], at the turn that begins
    at instant 3, the completed flag is already set and the deadline is
    already passed, and the supervisor leaves through the guard with the
    worker's result, in state COMPLETED, not TIMED_OUT. *)
Lemma completion_beats_deadline :
  completed_now world_done_late late_run = true
  /\ (inject_Z 300 < clock world_done_late (instant late_run) - 2000)%Q
  /\ fst (poll world_done_late false 2000 300 late_run) = Some GuardExit
  /\ fst (run_with_timeout world_done_late false 10 300
            (first_run world_done_late hello_gen))
     = Returned (lit "done", GuardExit, COMPLETED).
Proof. repeat split. Qed.

Lemma poll_checks_in_order_witness :
  completed_now world_done_late late_run = true
  /\ fst (poll world_done_late false 2000 300 late_run) = Some GuardExit.
Proof.
  split; [reflexivity|].
  apply (proj1 (poll_checks_in_order world_done_late false 2000 300 late_run)).
  reflexivity.
Defined.

(** Time goes on in a world whose clock gains a fixed positive number of
    seconds with every instant. *)
Lemma steady_clock_passes (w : world) (k : Z) :
  (0 < k)%Z -> clock w = steady_clock k -> time_passes w.
Proof.
  intros Hk Hc t0 span. rewrite Hc. unfold steady_clock.
  exists (S (t0 + Z.to_nat (Qceiling span))). intros t Ht.
  pose proof (Qle_ceiling span) as Hceil.
  assert (Hz : (k * Z.of_nat t0 + Qceiling span < k * Z.of_nat t)%Z) by nia.
  apply Qle_lt_trans
    with (inject_Z (k * Z.of_nat t0) + inject_Z (Qceiling span))%Q.
  - apply Qplus_le_r. exact Hceil.
  - rewrite <- inject_Z_plus. rewrite <- Zlt_Qlt. exact Hz.
Qed.

Lemma blocked_worker_times_out_witness :
  exists fuel0, forall fuel, fuel0 <= fuel ->
    exists elapsed r',
      run_with_timeout world_blocks false fuel 300
        (first_run world_blocks hello_gen)
        = (Returned (timed_out_text 300, TimeoutReturn elapsed, TIMED_OUT),
           r')
      /\ (inject_Z 300 < elapsed)%Q
      /\ (inject_Z 300 <= elapsed)%Q
      /\ exists t, 2 < t /\ elapsed = (clock world_blocks t
                                       - clock world_blocks 2)%Q.
Proof.
  apply (blocked_worker_times_out world_blocks 300
           (first_run world_blocks hello_gen)).
  - reflexivity.
  - reflexivity.
  - split; reflexivity.
  - apply (steady_clock_passes world_blocks 50); [lia | reflexivity].
Defined.

(** ** Every generation ends, if time goes on *)

Section Ends.

Variable w : world.
Variable set0 : bool.

Lemma poll_loop_ends (T : nat) (start : Q) (timeout : Z) :
  (forall t, T <= t -> (start + inject_Z timeout < clock w t)%Q) ->
  forall k r, T <= instant r + 3 + 5 * k ->
  forall fuel, k < fuel ->
  fst (poll_loop w set0 fuel start timeout r) <> None.
Proof.
  intros Hclock.
  induction k as [|k IH]; intros r HT fuel Hfuel;
    (destruct fuel as [|fuel]; [lia|]); cbn [poll_loop]; unfold bind.
  all: pose proof (poll_chain w set0 start timeout r) as Hchain;
    cbv zeta in Hchain;
    pose proof (poll_facts w set0 start timeout r) as Hp;
    destruct (poll w set0 start timeout r) as [[how|] r1];
    cbn [fst snd] in *; [unfold ret; cbn [fst]; discriminate|];
    destruct Hp as (_ & _ & _ & _ & _ & Hcont); specialize (Hcont eq_refl).
  all: destruct (negb _ || _); [discriminate|];
    destruct (is_set_at _ _ _); [by destruct Hchain|];
    rewrite !instant_tick in Hchain;
    destruct (Qle_bool _ _) eqn:Eq; [|discriminate].
  - exfalso. apply Qle_bool_iff in Eq.
    specialize (Hclock (S (S (S (instant r)))) ltac:(lia)). lra.
  - apply IH; lia.
Qed.

Lemma run_with_timeout_ends (timeout : Z) (r : run) :
  time_passes w ->
  exists fuel0, forall fuel, fuel0 <= fuel ->
    fst (run_with_timeout w set0 fuel timeout r) <> Unfinished.
Proof.
  intros Htime.
  destruct (Htime (S (instant r)) (inject_Z timeout)) as [T HT].
  exists (S T). intros fuel Hfuel. unfold run_with_timeout.
  destruct (start_error w); [unfold ret; cbn [fst]; discriminate|].
  unfold bind, start_thread, look. rewrite instant_tick. cbn [instant].
  set (r0 := tick w set0 (tick w set0 _)).
  pose proof (poll_loop_ends T (clock w (S (instant r))) timeout HT T r0
                ltac:(lia) fuel ltac:(lia)) as Hend.
  destruct (poll_loop w set0 fuel _ timeout r0) as [[how|] r1];
    [|by cbn [fst] in Hend].
  destruct how; unfold ret; cbn [fst]; discriminate.
Qed.

End Ends.

Lemma process_agent_response_ends (w : world) (g : generation)
    (ui : ChatUI) :
  time_passes w ->
  exists fuel0, forall fuel, fuel0 <= fuel ->
    is_Some (process_agent_response w fuel g ui).
Proof.
  intros Htime.
  set (set0 := default false (events ui !! g_stop_event g)).
  destruct (run_with_timeout_ends w set0 300
              (tick w set0 (first_run w g)) Htime) as [fuel0 Hends].
  exists fuel0. intros fuel Hfuel. specialize (Hends fuel Hfuel).
  unfold process_agent_response. fold set0.
  unfold thread_body, bind, stop_is_set, look.
  destruct (is_set_at w set0 (instant (first_run w g))).
  { unfold emit, restore_stdout, ret. by eexists. }
  unfold _run_agent_with_stop_check.
  destruct (run_with_timeout w set0 fuel 300 (tick w set0 (first_run w g)))
    as [[|err|[[response how] st]] r1]; cbn [fst] in Hends.
  - done.
  - unfold restore_stdout.
    destruct (on_exception w set0 g err _) as [m r2]. unfold ret. by eexists.
  - destruct (is_set_at w set0 (instant r1)).
    + unfold emit, restore_stdout, ret. by eexists.
    + destruct (after_response w set0 g _) as [[] r2]. unfold restore_stdout.
      destruct (respond w set0 g response _) as [m r3]. unfold ret.
      by eexists.
Qed.


(** C3, as the code has it.  A stop request for a session with no
    registered stop event changes nothing and is answered "No active
    generation to stop."  The generation that [handle_message] starts
    next gets a new event, unset.  If no stop request comes after that,
    the generation comes to its end, time going on: it does not end
    CANCELLED, sends no [generation_stopped], and the turn leaves one
    assistant message in the transcript. *)
Theorem stop_without_generation_is_void (ui : ChatUI) (cl : client)
    (e : env) (data : option str) (sess : str) (w : world)
    (ui1 : ChatUI) (cl1 : client) (evs : list event) (g : generation) :
  flask_session cl = Some sess ->
  truthy sess = true ->
  stop_events ui !! sess = None ->
  handle_message (fst (handle_stop_generation ui cl)) cl e data
    = (ui1, cl1, evs, Some g) ->
  stop_at w = None ->
  time_passes w ->
  handle_stop_generation ui cl
    = (ui, [generation_stop_error no_active_generation])
  /\ g_session g = sess
  /\ events ui1 !! g_stop_event g = Some false
  /\ exists fuel0, forall fuel, fuel0 <= fuel ->
       exists fin,
         process_agent_response w fuel g ui1 = Some fin
         /\ f_state fin <> CANCELLED
         /\ (forall text room, generation_stopped text room ∉ f_emitted fin)
         /\ exists m, msg_role m = assistant
                      /\ transcript (f_ui fin) sess
                         = transcript ui1 sess ++ [m].
Proof.
  intros Hsess Htruthy Hnone Hmsg Hstop Htime.
  assert (Hvoid : handle_stop_generation ui cl
                  = (ui, [generation_stop_error no_active_generation])).
  { unfold handle_stop_generation. by rewrite Hsess, Htruthy, Hnone. }
  rewrite Hvoid in Hmsg. cbn [fst] in Hmsg.
  destruct (handle_message_registers _ _ _ _ _ _ _ _ Hmsg)
    as (Hkey & _ & Hflag & _ & Hg).
  assert (Hgs : g_session g = sess).
  { rewrite Hg. unfold ensure_session. by rewrite Hsess, Htruthy. }
  split; [exact Hvoid|]. split; [exact Hgs|]. split; [exact Hflag|].
  destruct (process_agent_response_ends w g ui1 Htime) as [fuel0 Hends].
  exists fuel0. intros fuel Hfuel.
  destruct (Hends fuel Hfuel) as [fin Hrun]. exists fin.
  split; [exact Hrun|].
  destruct (process_agent_response_inv _ _ _ _ _ Hrun)
    as (en & r' & Hbody & Hconv & _ & Hem & _ & Hst).
  rewrite Hflag in Hbody. cbn [default] in Hbody.
  destruct (thread_body_facts _ _ _ _ _ _ _ Hbody) as [_ Hnever].
  destruct (Hnever (conj eq_refl Hstop))
    as (Hnc & p & m & Happ & Hrole & Hf & Hcase).
  rewrite Hst. split; [exact Hnc|]. split.
  - intros text room Hin. rewrite Hem in Hin.
    assert (Hall : Forall (fun ev => forall t rm, ev <> generation_stopped t rm)
                     (emitted r' ++ [agent_typing false (g_sid g)])).
    { assert (Hpart : Forall (fun ev => forall t rm,
                                 ev <> generation_stopped t rm) p).
      { eapply Forall_impl; [exact Hf|]. intros ev Hev t rm ->. discriminate. }
      destruct Hcase as [(_ & -> & _) | (_ & _ & _ & ->)];
        cbn [emitted first_run];
        repeat (apply Forall_app; split); try exact Hpart;
        repeat constructor; discriminate. }
    rewrite Forall_forall in Hall. by apply (Hall _ Hin text room).
  - exists m. split; [exact Hrole|].
    rewrite Happ in Hconv. unfold transcript at 1. rewrite Hconv.
    rewrite <- Hgs. apply transcript_append. exact Hkey.
Qed.

Lemma stop_without_generation_is_void_witness :
  handle_stop_generation idle_ui client1
    = (idle_ui, [generation_stop_error no_active_generation])
  /\ g_session hello_gen = lit "session_1"
  /\ events hello_ui !! g_stop_event hello_gen = Some false
  /\ exists fuel0, forall fuel, fuel0 <= fuel ->
       exists fin,
         process_agent_response world_returns fuel hello_gen hello_ui
           = Some fin
         /\ f_state fin <> CANCELLED
         /\ (forall text room, generation_stopped text room ∉ f_emitted fin)
         /\ exists m, msg_role m = assistant
                      /\ transcript (f_ui fin) (lit "session_1")
                         = transcript hello_ui (lit "session_1") ++ [m].
Proof.
  apply (stop_without_generation_is_void idle_ui client1 env1 hello
           (lit "session_1") world_returns hello_ui client1
           [message_received (Message user (lit "hello") (lit "0"))]
           hello_gen).
  - reflexivity.
  - reflexivity.
  - reflexivity.
  - reflexivity.
  - reflexivity.
  - apply (steady_clock_passes world_returns 1); [lia | reflexivity].
Defined.

(** C3 as stated fails: after a stop request with no generation in
    flight, the next generation finds its token unset, ends COMPLETED,
    and the turn adds an assistant message. *)
Lemma stop_before_generation_does_not_cancel :
  stop_events idle_ui !! lit "session_1" = None
  /\ fst (handle_stop_generation idle_ui client1) = idle_ui
  /\ handle_message (fst (handle_stop_generation idle_ui client1))
       client1 env1 hello
     = (hello_ui, client1,
        [message_received (Message user (lit "hello") (lit "0"))],
        Some hello_gen)
  /\ is_set_at world_returns
       (default false (events hello_ui !! g_stop_event hello_gen)) 1 = false
  /\ exists fin,
       process_agent_response world_returns 100 hello_gen hello_ui = Some fin
       /\ f_state fin = COMPLETED
       /\ transcript (f_ui fin) (lit "session_1")
          = [Message user (lit "hello") (lit "0");
             Message assistant (lit "hi") (lit "15")].
Proof.
  do 4 (split; [reflexivity|]).
  eexists. split; [vm_compute; reflexivity|]. split; reflexivity.
Qed.

(** C4 as stated fails.  A second message comes while the first
    generation is at work and registers the token 1; when the first
    generation, whose token is 0, ends, the entry of the session is
    gone, and a stop request finds nothing to stop. *)
Lemma stale_cleanup_removes_newer_token :
  g_stop_event hello_gen = 0
  /\ stop_events again_ui !! lit "session_1" = Some 1
  /\ exists fin,
       process_agent_response world_returns 100 hello_gen again_ui = Some fin
       /\ stop_events (f_ui fin) !! lit "session_1" = None
       /\ handle_stop_generation (f_ui fin) client1
          = (f_ui fin, [generation_stop_error no_active_generation]).
Proof.
  do 2 (split; [reflexivity|]).
  eexists. split; [vm_compute; reflexivity|]. split; reflexivity.
Qed.

(** C7, at the failing input: the agent raises [Exception("boom")], no
    stop request comes.  The turn ends ERRORED and leaves "Error: boom"
    in the transcript, but the client is sent no [agent_response] and
    no partial output: only the end of the stream. *)
Theorem agent_error_is_not_sent :
  exists fin,
    process_agent_response world_raises 100 hello_gen hello_ui = Some fin
    /\ f_state fin = ERRORED
    /\ f_exit fin = Some GuardExit
    /\ transcript (f_ui fin) (lit "session_1")
       = [Message user (lit "hello") (lit "0");
          Message assistant (lit "Error: boom") (lit "15")]
    /\ f_emitted fin
       = [agent_typing true (lit "sid1");
          agent_streaming_start (lit "session_1") (lit "sid1");
          agent_streaming_end (lit "sid1");
          agent_typing false (lit "sid1")].
Proof. eexists. split; [vm_compute; reflexivity|]. repeat split. Qed.

(** The sibling path: an exception that reaches the [except] block of
    [process_agent_response] is sent to the client as an
    [agent_response]. *)
Lemma thread_error_is_sent :
  exists fin now,
    process_agent_response world_no_thread 100 hello_gen hello_ui = Some fin
    /\ f_state fin = ERRORED
    /\ f_emitted fin
       = [agent_typing true (lit "sid1");
          agent_streaming_start (lit "session_1") (lit "sid1");
          agent_streaming_end (lit "sid1");
          agent_response
            (Message assistant
               (error_intro ++ lit "can't start new thread" ++ error_advice)
               now)
            (Some (lit "sid1"));
          agent_typing false (lit "sid1")].
Proof. eexists. eexists. split; [vm_compute; reflexivity|]. repeat split. Qed.

(** X25.  Every generation comes to its end when time goes on: given
    turns enough, [process_agent_response] is over, whatever the agent
    does and whether or not a stop request comes, because the deadline
    ends the supervisor's loop if nothing else does. *)
Theorem generation_ends (w : world) (g : generation) (ui : ChatUI) :
  time_passes w ->
  exists fuel0, forall fuel, fuel0 <= fuel ->
    is_Some (process_agent_response w fuel g ui).
Proof. apply process_agent_response_ends. Qed.

(** ** What becomes of an error of the agent *)

Section GuardExit.

Variable w : world.
Variable set0 : bool.

(** The patched [write] drops a fragment whole once the event is set:
    it does not reach [StreamingOutputCapture.write] at all. *)
Lemma suppressed_stdout_write_drops text r :
  redirected r = true -> patched_now w r = true ->
  is_set_at w set0 (instant r) = true ->
  sys_stdout_write w set0 text r = r.
Proof. unfold sys_stdout_write. by intros -> -> ->. Qed.

Lemma poll_guard_exit start timeout r :
  is_Some (worker_from r) ->
  fst (poll w set0 start timeout r) = Some GuardExit ->
  completed_now w (snd (poll w set0 start timeout r)) = true.
Proof.
  intros [s Hs]. unfold poll, bind, look, ret, sleep.
  destruct (is_alive_now w r) eqn:Ea; cbn [negb fst snd].
  - destruct (completed_now w (tick w set0 r)) eqn:Ec; cbn [fst snd].
    + intros _. eapply completed_now_mono; [| |exact Ec].
      * by rewrite !worker_from_tick.
      * rewrite !instant_tick. lia.
    + destruct (is_set_at w set0 _).
      * destruct (py_print w set0 stop_requested_line _) as [[] r1].
        destruct (is_alive_now w (tick w set0 r1)).
        -- destruct (py_print w set0 still_running_line _) as [[] r2].
           discriminate.
        -- discriminate.
      * destruct (Qle_bool _ _); discriminate.
  - intros _. unfold is_alive_now in Ea. rewrite Hs in Ea.
    unfold completed_now. rewrite (ends_at_same w r (tick w set0 r))
      by apply worker_from_tick.
    destruct (ends_at w r) as [e|]; [|discriminate].
    apply negb_false_iff, Nat.leb_le in Ea.
    rewrite instant_tick. apply Nat.leb_le. lia.
Qed.

Lemma poll_loop_guard_exit fuel start timeout r :
  is_Some (worker_from r) ->
  fst (poll_loop w set0 fuel start timeout r) = Some GuardExit ->
  completed_now w (snd (poll_loop w set0 fuel start timeout r)) = true.
Proof.
  revert r. induction fuel as [|fuel IH]; intros r Hfrom; cbn [poll_loop].
  - unfold ret. discriminate.
  - unfold bind.
    pose proof (poll_guard_exit start timeout r Hfrom) as Hg.
    pose proof (poll_facts w set0 start timeout r) as (_ & Hw & _).
    destruct (poll w set0 start timeout r) as [[how|] r1]; cbn [fst snd] in *.
    + unfold ret. cbn [fst snd]. exact Hg.
    + apply IH. by rewrite Hw.
Qed.

Lemma agent_now_completed r :
  completed_now w r = true ->
  exists stopped,
    agent_now w set0 r
      = run_in_thread (agent_does w) stopped new_StoppableAgent
    /\ (never_stopped w set0 -> stopped = false).
Proof.
  unfold completed_now, agent_now.
  destruct (ends_at w r) as [e|]; [|discriminate]. intros Hc.
  assert (He : (e <=? instant r) = true).
  { apply Nat.leb_le. apply Nat.leb_le in Hc. lia. }
  rewrite He, Hc. exists (is_set_at w set0 e). split.
  - by destruct (agent_does w), (is_set_at w set0 e).
  - intros Hn. by apply never_stopped_unset.
Qed.

Lemma run_with_timeout_guard_exit fuel timeout r text st :
  fst (run_with_timeout w set0 fuel timeout r)
    = Returned (text, GuardExit, st) ->
  exists stopped,
    let a := run_in_thread (agent_does w) stopped new_StoppableAgent in
    text = returned_text a
    /\ st = terminal_of GuardExit a
    /\ (never_stopped w set0 -> stopped = false).
Proof.
  unfold run_with_timeout.
  destruct (start_error w); [unfold ret; discriminate|].
  unfold bind, start_thread, look.
  set (r0 := tick w set0 (tick w set0 (Run _ _ _ _ _))).
  assert (Hfrom : is_Some (worker_from r0)).
  { subst r0. rewrite !worker_from_tick. by eexists. }
  pose proof (poll_loop_guard_exit fuel
                (clock w (instant (tick w set0
                   (Run (instant r) (capture r) (redirected r) (emitted r)
                      (Some (instant r)))))) timeout r0 Hfrom) as Hg.
  destruct (poll_loop w set0 fuel _ timeout r0) as [[[| | |d]|] r1];
    unfold ret; cbn [fst snd] in *; try discriminate.
  intros [= <- <-].
  destruct (agent_now_completed r1 (Hg eq_refl)) as (stopped & -> & Hn).
  by exists stopped.
Qed.

End GuardExit.

(** X27.  For every generation in which the agent call raises, with a text
    that is not empty, no stop request comes and the supervisor sees the
    worker end: the state is ERRORED and the transcript gains
    "Error: " followed by the text, but the client is sent nothing after
    the partial output except the end of the stream. *)
Lemma raised_error_goes_to_transcript_only (w : world) (fuel : nat)
    (g : generation) (ui : ChatUI) (fin : finished) (e : str) :
  agent_does w = Raises e ->
  e <> [] ->
  never_stopped w (default false (events ui !! g_stop_event g)) ->
  is_Some (conversations ui !! g_session g) ->
  process_agent_response w fuel g ui = Some fin ->
  f_exit fin = Some GuardExit ->
  f_state fin = ERRORED
  /\ exists partials now,
       Forall (fun ev => is_partial ev = true) partials
       /\ transcript (f_ui fin) (g_session g)
          = transcript ui (g_session g)
            ++ [Message assistant (error_prefix ++ e) now]
       /\ f_emitted fin
          = [agent_typing true (g_sid g);
             agent_streaming_start (g_session g) (g_sid g)]
            ++ partials
            ++ [agent_streaming_end (g_sid g);
                agent_typing false (g_sid g)].
Proof.
  intros Hraises Hne Hn Hkey Hrun Hexit.
  destruct (process_agent_response_inv _ _ _ _ _ Hrun)
    as (en & r' & Hbody & Hconv & _ & Hem & Hex & Hst).
  destruct (thread_body_facts _ _ _ _ _ _ _ Hbody) as [_ Hnever].
  destruct (Hnever Hn) as (_ & p & m & Happ & Hrole & Hf & Hcase).
  rewrite Hex in Hexit.
  destruct Hcase as [((how & Hhow & Hret) & Hp & _) | (Hnone & _)];
    [|congruence].
  assert (how = GuardExit) by congruence. subst how.
  destruct (run_with_timeout_guard_exit _ _ _ _ _ _ _ Hret)
    as (stopped & Htext & Hstate & Hs).
  rewrite (Hs Hn), Hraises in Htext, Hstate. cbn in Htext, Hstate.
  destruct e as [|c e]; [done|].
  rewrite Hst. split; [exact Hstate|].
  destruct m as [mr mc mt]. cbn in Hrole, Htext. subst mr mc.
  exists p, mt. split; [exact Hf|]. rewrite Happ in Hconv. split.
  - unfold transcript at 1. rewrite Hconv. by apply transcript_append.
  - rewrite Hem, Hp. cbn [emitted first_run]. by rewrite <- !app_assoc.
Qed.

Lemma process_agent_response_keeps_ready w fuel g ui fin :
  process_agent_response w fuel g ui = Some fin -> ready ui -> ready (f_ui fin).
Proof.
  unfold process_agent_response.
  destruct (thread_body _ _ _ _ _) as [[e|] r']; [|discriminate].
  intros [= <-] Hr. unfold ready, cleanup. cbn [f_ui].
  destruct (appended e); simpl;
    repeat match goal with |- context [present ?x] =>
             lazymatch x with
             | sfc_agent _ => fail
             | _ => destruct (present x)
             end
           end; exact Hr.
Qed.

(** ** A stop request that does find a generation *)

(** A stop request for a session with a registered event sets that
    event and is acknowledged. *)
Lemma stop_request_sets_event (ui : ChatUI) (cl : client) (sess : str)
    (ev : nat) :
  flask_session cl = Some sess ->
  truthy sess = true ->
  stop_events ui !! sess = Some ev ->
  ev < length (events ui) ->
  exists ui',
    handle_stop_generation ui cl = (ui', [generation_stop_acknowledged sess])
    /\ events ui' !! ev = Some true
    /\ stop_events ui' = stop_events ui
    /\ conversations ui' = conversations ui.
Proof.
  intros Hsess Htruthy Hev Hlt. unfold handle_stop_generation.
  rewrite Hsess, Htruthy, Hev. simpl. eexists. split; [reflexivity|].
  simpl. split; [|done]. by apply list_lookup_insert_eq.
Qed.

(** X26.  When the request comes between [handle_message] and the first stop
    check of the thread it has started, the generation is stopped before
    it starts: no agent thread, nothing appended, and the client is told
    so. *)
Lemma stop_after_registration_cancels (ui : ChatUI) (cl cl1 : client)
    (e : env) (data : option str) (evs : list event) (ui1 : ChatUI)
    (g : generation) (w : world) (fuel : nat) :
  handle_message ui cl e data = (ui1, cl1, evs, Some g) ->
  flask_session cl1 = Some (g_session g) ->
  truthy (g_session g) = true ->
  exists fin,
    process_agent_response w fuel g (fst (handle_stop_generation ui1 cl1))
      = Some fin
    /\ f_state fin = CANCELLED
    /\ f_exit fin = None
    /\ conversations (f_ui fin) = conversations ui1
    /\ f_emitted fin
       = [agent_typing true (g_sid g);
          agent_streaming_start (g_session g) (g_sid g);
          generation_stopped stopped_before_starting (g_sid g);
          agent_typing false (g_sid g)].
Proof.
  intros Hmsg Hsess Htruthy.
  destruct (handle_message_registers _ _ _ _ _ _ _ _ Hmsg)
    as (_ & Hreg & Hflag & _ & _).
  destruct (stop_request_sets_event ui1 cl1 (g_session g) (g_stop_event g)
              Hsess Htruthy Hreg) as (ui2 & Hstop & Hset & _ & Hconv).
  { by apply lookup_lt_Some in Hflag. }
  rewrite Hstop. cbn [fst].
  unfold process_agent_response. rewrite Hset. cbn [default].
  unfold thread_body, bind, stop_is_set, look. cbn [is_set_at orb].
  unfold emit, restore_stdout, ret.
  eexists. split; [reflexivity|].
  cbn [f_state f_exit f_ui f_emitted state exit_taken appended].
  split; [done|]. split; [done|].
  destruct (cleanup_facts (g_session g) ui2) as (_ & _ & Hc).
  split; [cbn [conversations set_stop_events]; congruence|].
  reflexivity.
Qed.

(** * Further properties *)

(** ** The capture: thresholds, and what becomes of the text written *)

(** X1.  [write], [flush] and [emit_partial_response] keep the buffer
    empty or with a character that is not white space: it never holds
    white space alone. *)
Theorem buffer_stays_well_built (a : ambient) (text : str)
    (c : StreamingOutputCapture) :
  well_built c ->
  well_built (fst (fst (write a text c)))
  /\ well_built (fst (flush a c))
  /\ well_built (fst (emit_partial_response a c)).
Proof.
  intros H. split; [by apply write_well_built|].
  split; [by apply flush_well_built|].
  by apply emit_partial_response_well_built.
Qed.

Lemma buffer_stays_well_built_witness :
  well_built (fst (fst (write (Ambient 1 (lit "t1") false) (lit " d ")
                          (capture_abc (Some 0)))))
  /\ well_built (fst (flush (Ambient 1 (lit "t1") false)
                        (capture_abc (Some 0))))
  /\ well_built (fst (emit_partial_response (Ambient 1 (lit "t1") false)
                        (capture_abc (Some 0)))).
Proof.
  apply (buffer_stays_well_built (Ambient 1 (lit "t1") false) (lit " d ")
           (capture_abc (Some 0))).
  right. reflexivity.
Defined.

(** X2.  When a fragment that is not blank is written with the token
    unset, it is sent at once exactly when the emit interval has passed
    since the last emit or the buffer with the fragment is longer than
    100 characters: then one event carries the whole buffer and the
    fragment, the buffer is left empty and the time of the last emit is
    now.  Otherwise, a buffer of exactly 100 characters included, the
    fragment is only added to the buffer and nothing is sent. *)
Theorem write_sends_when_due (a : ambient) (text : str)
    (c : StreamingOutputCapture) :
  truthy (strip text) = true ->
  not_stopped a c = true ->
  let due :=
    (emit_interval c <= time_time a - last_emit_time c)%Q
    \/ 100 < length (accumulated_output c ++ text) in
  (due ->
   write a text c
   = (stdout_write (set_last_emit (set_accumulated c []) (time_time a)) text,
      [agent_streaming (accumulated_output c ++ text) (now_iso a)
         (session_id c)],
      length text))
  /\ (~ due ->
      write a text c
      = (stdout_write (set_accumulated c (accumulated_output c ++ text)) text,
         [], length text)).
Proof.
  intros Htext Hstop due. unfold write. rewrite Htext.
  cbn [accumulated_output set_accumulated emit_interval last_emit_time].
  split.
  - intros Hdue.
    assert (Hd : Qle_bool (emit_interval c) (time_time a - last_emit_time c)
                 || (100 <? length (accumulated_output c ++ text)) = true).
    { destruct Hdue as [Hq | Hlen].
      - by rewrite (proj2 (Qle_bool_iff _ _) Hq).
      - apply Nat.ltb_lt in Hlen. rewrite Hlen. apply orb_true_r. }
    rewrite Hd. unfold emit_partial_response.
    cbn [accumulated_output set_accumulated].
    rewrite (truthy_strip_app _ _ Htext).
    change (not_stopped a (set_accumulated c (accumulated_output c ++ text)))
      with (not_stopped a c).
    rewrite Hstop. reflexivity.
  - intros Hnot.
    destruct (Qle_bool (emit_interval c) (time_time a - last_emit_time c))
      eqn:Eq.
    { exfalso. apply Hnot. left. by apply Qle_bool_iff. }
    destruct (100 <? length (accumulated_output c ++ text)) eqn:El.
    { exfalso. apply Hnot. right. by apply Nat.ltb_lt. }
    reflexivity.
Qed.

Lemma write_sends_when_due_witness :
  write (Ambient 1 (lit "t1") false) (lit "def") (capture_abc (Some 0))
  = (stdout_write
       (set_last_emit (set_accumulated (capture_abc (Some 0)) []) 1)
       (lit "def"),
     [agent_streaming (lit "abcdef") (lit "t1") (lit "sid1")], 3)
  /\ write (Ambient (1 # 20) (lit "t1") false) (lit "def")
       (capture_abc (Some 0))
     = (stdout_write (set_accumulated (capture_abc (Some 0)) (lit "abcdef"))
          (lit "def"),
        [], 3).
Proof.
  split.
  - apply (proj1 (write_sends_when_due (Ambient 1 (lit "t1") false)
                    (lit "def") (capture_abc (Some 0)) eq_refl eq_refl)).
    left. vm_compute. discriminate.
  - apply (proj2 (write_sends_when_due (Ambient (1 # 20) (lit "t1") false)
                    (lit "def") (capture_abc (Some 0)) eq_refl eq_refl)).
    intros [Hq | Hlen].
    + vm_compute in Hq. by apply Hq.
    + vm_compute in Hlen. lia.
Defined.

Lemma write_keeps_stop_event a text c :
  stop_event (fst (fst (write a text c))) = stop_event c
  /\ session_id (fst (fst (write a text c))) = session_id c.
Proof.
  unfold write. destruct (truthy (strip text)); [|done].
  destruct (_ || _); [|done].
  unfold emit_partial_response. by destruct (_ && _).
Qed.

Lemma not_stopped_same a c c' :
  stop_event c' = stop_event c -> not_stopped a c' = not_stopped a c.
Proof. unfold not_stopped. by intros ->. Qed.

(** What one [write] does with its fragment while the token is unset:
    it is in what was sent or in what is kept. *)
Lemma write_conserves a text c :
  not_stopped a c = true ->
  streamed (snd (fst (write a text c)))
    ++ accumulated_output (fst (fst (write a text c)))
  = accumulated_output c ++ (if truthy (strip text) then text else [])
  /\ original_stdout (fst (fst (write a text c)))
     = original_stdout c ++ [text].
Proof.
  intros Hstop. unfold write.
  destruct (truthy (strip text)) eqn:Et; [|simpl; by rewrite app_nil_r].
  destruct (_ || _); [|done].
  unfold emit_partial_response.
  cbn [accumulated_output set_accumulated].
  rewrite (truthy_strip_app _ _ Et).
  change (not_stopped a (set_accumulated c (accumulated_output c ++ text)))
    with (not_stopped a c).
  rewrite Hstop. simpl. by rewrite !app_nil_r.
Qed.

Lemma streamed_app evs evs' :
  streamed (evs ++ evs') = streamed evs ++ streamed evs'.
Proof.
  induction evs as [|ev evs IH]; [done|].
  destruct ev; simpl; rewrite ?IH, ?app_assoc; done.
Qed.

Lemma write_all_conserves calls : forall c,
  Forall (fun call => not_stopped (fst call) c = true) calls ->
  streamed (snd (write_all calls c))
    ++ accumulated_output (fst (write_all calls c))
  = accumulated_output c ++ buffered calls
  /\ original_stdout (fst (write_all calls c))
     = original_stdout c ++ map snd calls
  /\ stop_event (fst (write_all calls c)) = stop_event c
  /\ session_id (fst (write_all calls c)) = session_id c
  /\ (well_built c -> well_built (fst (write_all calls c))).
Proof.
  induction calls as [|[a text] calls IH]; intros c Hall; cbn [write_all].
  - cbn. rewrite !app_nil_r. done.
  - apply Forall_cons in Hall as [Ha Hall]. cbn [fst] in Ha.
    destruct (write_conserves a text c Ha) as [Hc Ho].
    destruct (write_keeps_stop_event a text c) as [Hs Hid].
    pose proof (write_well_built a text c) as Hwb.
    destruct (write a text c) as [[c1 evs] n]. cbn [fst snd] in *.
    destruct (IH c1) as (Hc' & Ho' & Hs' & Hid' & Hwb').
    { eapply Forall_impl; [exact Hall|]. intros call Hcall.
      by rewrite (not_stopped_same _ c c1). }
    destruct (write_all calls c1) as [c2 evs']. cbn [fst snd] in *.
    split.
    { rewrite streamed_app, <- app_assoc, Hc', app_assoc, Hc.
      by rewrite <- app_assoc. }
    split; [rewrite Ho', Ho, <- app_assoc; done|].
    split; [congruence|]. split; [congruence|]. auto.
Qed.

(** X3.  While the token stays unset nothing written is lost, doubled
    or reordered: after any run of calls of [write] and a closing
    [flush], the text streamed to the client is what the buffer held at
    first followed by the fragments that are not blank, in the order
    written; the buffer is empty; and the original stream has got every
    fragment, blank ones too. *)
Theorem writes_then_flush_stream_all (calls : list (ambient * str))
    (a : ambient) (c : StreamingOutputCapture) :
  well_built c ->
  Forall (fun call => not_stopped (fst call) c = true) calls ->
  not_stopped a c = true ->
  let written := write_all calls c in
  let closed := flush a (fst written) in
  streamed (snd written ++ snd closed) = accumulated_output c ++ buffered calls
  /\ accumulated_output (fst closed) = []
  /\ original_stdout (fst closed) = original_stdout c ++ map snd calls.
Proof.
  intros Hwb Hall Ha written closed.
  destruct (write_all_conserves calls c Hall) as (Hc & Ho & Hs & _ & Hw).
  fold written in Hc, Ho, Hs, Hw. specialize (Hw Hwb).
  subst closed. unfold flush, emit_partial_response.
  rewrite (not_stopped_same a c (fst written) Hs), Ha, andb_true_r.
  rewrite streamed_app, <- Hc.
  destruct Hw as [He | Ht].
  - rewrite He. cbn. rewrite He. by rewrite !app_nil_r.
  - rewrite Ht. cbn. by rewrite !app_nil_r.
Qed.

Lemma writes_then_flush_stream_all_witness :
  let calls := [(Ambient (1 # 20) (lit "t1") false, lit "de");
                (Ambient (1 # 20) (lit "t2") false, lit "  ");
                (Ambient 1 (lit "t3") false, lit "f");
                (Ambient 1 (lit "t4") false, lit "g")] in
  let written := write_all calls (capture_abc (Some 0)) in
  let closed := flush (Ambient 2 (lit "t5") false) (fst written) in
  streamed (snd written ++ snd closed) = lit "abcdefg"
  /\ accumulated_output (fst closed) = []
  /\ original_stdout (fst closed)
     = [lit "de"; lit "  "; lit "f"; lit "g"].
Proof.
  apply (writes_then_flush_stream_all
           [(Ambient (1 # 20) (lit "t1") false, lit "de");
            (Ambient (1 # 20) (lit "t2") false, lit "  ");
            (Ambient 1 (lit "t3") false, lit "f");
            (Ambient 1 (lit "t4") false, lit "g")]
           (Ambient 2 (lit "t5") false) (capture_abc (Some 0))).
  - right. reflexivity.
  - repeat constructor.
  - reflexivity.
Defined.

Lemma write_stopped a text c ev :
  stop_event c = Some ev -> is_set a = true ->
  write a text c
  = (stdout_write
       (if truthy (strip text) then
          let c0 := set_accumulated c (accumulated_output c ++ text) in
          if Qle_bool (emit_interval c) (time_time a - last_emit_time c)
             || (100 <? length (accumulated_output c ++ text))
          then set_last_emit c0 (time_time a) else c0
        else c) text,
     [], length text).
Proof.
  intros Hev Hset. unfold write.
  destruct (truthy (strip text)); [|done].
  cbn [accumulated_output set_accumulated emit_interval last_emit_time].
  destruct (_ || _); [|done].
  unfold emit_partial_response, not_stopped.
  cbn [stop_event set_accumulated]. rewrite Hev, Hset, andb_false_r. done.
Qed.

(** X4.  Once the token is signalled no partial output leaks, however
    much is written and whenever: a run of calls of [write] and a
    [flush] after it send the client nothing, the buffer keeps all the
    fragments that are not blank, and the original stream still gets
    every fragment. *)
Theorem signalled_writes_send_nothing (calls : list (ambient * str))
    (a : ambient) (c : StreamingOutputCapture) (ev : nat) :
  stop_event c = Some ev ->
  Forall (fun call => is_set (fst call) = true) calls ->
  is_set a = true ->
  let written := write_all calls c in
  let closed := flush a (fst written) in
  snd written = [] /\ snd closed = []
  /\ accumulated_output (fst closed) = accumulated_output c ++ buffered calls
  /\ original_stdout (fst closed) = original_stdout c ++ map snd calls.
Proof.
  intros Hev Hall Ha. cbv zeta.
  assert (H : snd (write_all calls c) = []
              /\ accumulated_output (fst (write_all calls c))
                 = accumulated_output c ++ buffered calls
              /\ original_stdout (fst (write_all calls c))
                 = original_stdout c ++ map snd calls
              /\ stop_event (fst (write_all calls c)) = Some ev).
  { clear Ha a. revert c Hev.
    induction calls as [|[a text] calls IH]; intros c Hev; cbn [write_all].
    - cbn. by rewrite !app_nil_r.
    - apply Forall_cons in Hall as [Ha Hall]. cbn [fst] in Ha.
      rewrite (write_stopped a text c ev Hev Ha).
      set (c1 := stdout_write _ text).
      assert (Hev1 : stop_event c1 = Some ev).
      { subst c1. cbn. destruct (truthy (strip text)); [|done].
        by destruct (_ || _). }
      destruct (IH Hall c1 Hev1) as (He & Hb & Ho & Hs).
      destruct (write_all calls c1) as [c2 evs']. cbn [fst snd] in *.
      subst evs'. split; [done|]. split; [|split; [|done]].
      + rewrite Hb. subst c1. cbn.
        destruct (truthy (strip text)); [|done].
        destruct (_ || _); cbn; by rewrite <- app_assoc.
      + rewrite Ho. subst c1. cbn.
        destruct (truthy (strip text)); [|by rewrite <- app_assoc].
        destruct (_ || _); cbn; by rewrite <- app_assoc. }
  destruct H as (He & Hb & Ho & Hs).
  assert (Hf : flush a (fst (write_all calls c)) = (fst (write_all calls c), [])).
  { unfold flush, emit_partial_response, not_stopped.
    rewrite Hs, Ha, andb_false_r.
    by destruct (truthy (strip (accumulated_output (fst (write_all calls c))))). }
  rewrite Hf. cbn [fst snd]. done.
Qed.

Lemma signalled_writes_send_nothing_witness :
  let calls := [(Ambient 1 (lit "t1") true, lit "de");
                (Ambient 2 (lit "t2") true, lit "f")] in
  let written := write_all calls (capture_abc (Some 0)) in
  let closed := flush (Ambient 3 (lit "t3") true) (fst written) in
  snd written = [] /\ snd closed = []
  /\ accumulated_output (fst closed) = lit "abcdef"
  /\ original_stdout (fst closed) = [lit "de"; lit "f"].
Proof.
  apply (signalled_writes_send_nothing
           [(Ambient 1 (lit "t1") true, lit "de");
            (Ambient 2 (lit "t2") true, lit "f")]
           (Ambient 3 (lit "t3") true) (capture_abc (Some 0)) 0).
  - reflexivity.
  - repeat constructor.
  - reflexivity.
Defined.

(** ** The handlers: what they take in, what they leave alone *)

Lemma ensure_session_sid cl e : request_sid (snd (ensure_session cl e)) = request_sid cl.
Proof.
  unfold ensure_session. destruct (flask_session cl) as [s|]; [|done].
  by destruct (truthy s).
Qed.

Lemma ensure_session_kept cl e :
  flask_session (snd (ensure_session cl e)) = Some (fst (ensure_session cl e)).
Proof.
  unfold ensure_session. destruct (flask_session cl) as [s|] eqn:E; [|done].
  by destruct (truthy s).
Qed.

(** X5.  [handle_message] does nothing to the server when there is
    nothing to do: with the agent not ready it only answers that the
    agent is not ready, and with the agent ready a message that is
    empty or blank is dropped without a word.  No thread is started in
    either case. *)
Theorem idle_message_changes_nothing (ui : ChatUI) (cl : client) (e : env)
    (data : option str) :
  (agent_ready ui && present (sfc_agent ui) = false ->
   handle_message ui cl e data
   = (ui, cl,
      [agent_response
         (Message assistant not_ready_content (isoformat e 0)) None],
      None))
  /\ (ready ui -> truthy (strip (default [] data)) = false ->
      handle_message ui cl e data = (ui, snd (ensure_session cl e), [], None)).
Proof.
  unfold handle_message. split.
  - intros H. apply andb_false_iff in H as [-> | ->]; [done|].
    by rewrite orb_true_r.
  - intros [-> ->] Hblank. cbn [negb orb].
    destruct (ensure_session cl e) as [sess cl1]. by rewrite Hblank.
Qed.

Lemma idle_message_changes_nothing_witness :
  handle_message new_ChatUI client1 env1 hello
  = (new_ChatUI, client1,
     [agent_response (Message assistant not_ready_content (lit "0")) None],
     None)
  /\ handle_message idle_ui client1 env1 (Some (lit "   "))
     = (idle_ui, client1, [], None).
Proof.
  split.
  - apply (proj1 (idle_message_changes_nothing new_ChatUI client1 env1 hello)).
    reflexivity.
  - apply (proj2 (idle_message_changes_nothing idle_ui client1 env1
                    (Some (lit "   ")))).
    + split; reflexivity.
    + reflexivity.
Defined.

Lemma handle_message_starts (ui : ChatUI) (cl : client) (e : env)
    (data : option str) :
  ready ui ->
  truthy (strip (default [] data)) = true ->
  mem (lower (strip (default [] data))) exit_commands = false ->
  let sess := fst (ensure_session cl e) in
  let user_msg := Message user (strip (default [] data)) (isoformat e 0) in
  exists ui',
    handle_message ui cl e data
    = (ui', snd (ensure_session cl e), [message_received user_msg],
       Some (Generation sess (request_sid cl) (length (events ui))
               (strip (default [] data))))
    /\ transcript ui' sess = transcript ui sess ++ [user_msg]
    /\ (forall other, other <> sess ->
          conversations ui' !! other = conversations ui !! other)
    /\ stop_events ui' = <[sess := length (events ui)]> (stop_events ui)
    /\ events ui' = events ui ++ [false]
    /\ active_threads ui' = <[sess := threads ui]> (active_threads ui)
    /\ threads ui' = S (threads ui).
Proof.
  intros [Hr Ha] Htext Hexit sess user_msg.
  pose proof (ensure_session_sid cl e) as Hsid.
  unfold handle_message. rewrite Hr, Ha. cbn [negb orb].
  subst sess. destruct (ensure_session cl e) as [sess cl1].
  cbn [fst snd] in *. rewrite Htext, Hexit. cbn [negb]. rewrite Hsid.
  eexists. split.
  { f_equal. f_equal. f_equal.
    by destruct (present (conversations ui !! sess)). }
  unfold transcript, conversation_append.
  destruct (conversations ui !! sess) as [l|] eqn:El; cbn.
  - rewrite lookup_alter_eq, El. split; [done|]. split; [|done].
    intros other Hne. by rewrite lookup_alter_ne.
  - rewrite lookup_alter_eq, lookup_insert_eq. split; [done|].
    split; [|done]. intros other Hne.
    by rewrite lookup_alter_ne, lookup_insert_ne.
Qed.

(** X6.  With the agent ready, a message that is neither blank nor an
    exit command starts a generation: its closure carries the session,
    the caller's socket id, a new stop event and the trimmed message;
    the event is unset and registered for the session, replacing what
    was registered; a new thread is registered; the transcript of the
    session gains the user's message and that of any other session is
    untouched; the message is echoed to the client. *)
Theorem message_starts_generation (ui : ChatUI) (cl : client) (e : env)
    (data : option str) :
  ready ui ->
  truthy (strip (default [] data)) = true ->
  mem (lower (strip (default [] data))) exit_commands = false ->
  let sess := fst (ensure_session cl e) in
  let user_msg := Message user (strip (default [] data)) (isoformat e 0) in
  exists ui',
    handle_message ui cl e data
    = (ui', snd (ensure_session cl e), [message_received user_msg],
       Some (Generation sess (request_sid cl) (length (events ui))
               (strip (default [] data))))
    /\ transcript ui' sess = transcript ui sess ++ [user_msg]
    /\ (forall other, other <> sess ->
          conversations ui' !! other = conversations ui !! other)
    /\ stop_events ui' = <[sess := length (events ui)]> (stop_events ui)
    /\ events ui' = events ui ++ [false]
    /\ active_threads ui' = <[sess := threads ui]> (active_threads ui)
    /\ threads ui' = S (threads ui).
Proof. apply handle_message_starts. Qed.

Lemma message_starts_generation_witness :
  exists ui',
    handle_message idle_ui client1 env1 hello
    = (ui', client1, [message_received (Message user (lit "hello") (lit "0"))],
       Some hello_gen)
    /\ transcript ui' (lit "session_1")
       = [Message user (lit "hello") (lit "0")]
    /\ (forall other, other <> lit "session_1" ->
          conversations ui' !! other = conversations idle_ui !! other)
    /\ stop_events ui' = <[lit "session_1" := 0]> ∅
    /\ events ui' = [false]
    /\ active_threads ui' = <[lit "session_1" := 0]> ∅
    /\ threads ui' = 1.
Proof.
  apply (message_starts_generation idle_ui client1 env1 hello).
  - split; reflexivity.
  - reflexivity.
  - reflexivity.
Defined.

(** X7.  A stop request is idempotent and touches nothing but the flag:
    a second request in a row gives the same state and the same answer
    as the first, and no request changes the conversations, the
    registry of stop events, the threads or the number of events. *)
Theorem stop_request_is_idempotent (ui : ChatUI) (cl : client) :
  let once := handle_stop_generation ui cl in
  handle_stop_generation (fst once) cl = once
  /\ conversations (fst once) = conversations ui
  /\ stop_events (fst once) = stop_events ui
  /\ active_threads (fst once) = active_threads ui
  /\ length (events (fst once)) = length (events ui).
Proof.
  cbv zeta. unfold handle_stop_generation.
  destruct (flask_session cl) as [sess|] eqn:Es; [|done].
  destruct (truthy sess) eqn:Et; cbn [negb fst]; [|done].
  destruct (stop_events ui !! sess) as [ev|] eqn:Ev; cbn [fst];
    [|by rewrite Ev].
  cbn [set_stop_events stop_events events conversations active_threads].
  rewrite Ev, length_insert, list_insert_insert_eq. done.
Qed.

Lemma handle_clear_conversation_facts ui cl e data :
  let '(ui', cl', out) := handle_clear_conversation ui cl e data in
  exists sess,
    flask_session cl' = Some sess
    /\ conversations ui'
       = <[sess := [Message assistant welcome_message (isoformat e 0)]]>
           (conversations ui)
    /\ stop_events ui' = stop_events ui
    /\ events ui' = events ui
    /\ active_threads ui' = active_threads ui
    /\ threads ui' = threads ui.
Proof.
  unfold handle_clear_conversation.
  set (p := match data with
            | Some n =>
                if truthy n then (n, Client (Some n) (request_sid cl))
                else ensure_session cl e
            | None => ensure_session cl e
            end).
  assert (Hp : flask_session (snd p) = Some (fst p)).
  { subst p. destruct data as [n|]; [destruct (truthy n); [done|]|];
      apply ensure_session_kept. }
  destruct p as [sess cl1]. cbn [fst snd] in Hp. exists sess.
  split; [exact Hp|].
  destruct (sfc_agent ui) eqn:Ea; cbn; rewrite ?Ea;
    destruct (fresh_agent e); cbn;
    (split; [|done]); apply map_eq; intros k;
    destruct (decide (sess = k)) as [->|Hne];
    rewrite ?lookup_alter_eq, ?lookup_insert_eq, ?lookup_alter_ne,
      ?lookup_insert_ne by done; done.
Qed.

(** X8.  Clearing a conversation does not stop what is running: the
    registry of stop events, the events and the threads are as before,
    and so are the conversations of the other sessions; the session of
    the call is left with the welcome message alone. *)
Theorem clear_spares_generations (ui : ChatUI) (cl : client) (e : env)
    (data : option str) :
  let '(ui', cl', out) := handle_clear_conversation ui cl e data in
  exists sess,
    flask_session cl' = Some sess
    /\ conversations ui'
       = <[sess := [Message assistant welcome_message (isoformat e 0)]]>
           (conversations ui)
    /\ out = [conversation_cleared
                [Message assistant welcome_message (isoformat e 0)]]
    /\ stop_events ui' = stop_events ui
    /\ events ui' = events ui
    /\ active_threads ui' = active_threads ui
    /\ threads ui' = threads ui.
Proof.
  pose proof (handle_clear_conversation_facts ui cl e data) as H.
  assert (Hout : forall sess,
    flask_session (snd (fst (handle_clear_conversation ui cl e data)))
      = Some sess ->
    snd (handle_clear_conversation ui cl e data)
    = [conversation_cleared
         [Message assistant welcome_message (isoformat e 0)]]).
  { unfold handle_clear_conversation.
    destruct (match data with Some _ => _ | None => _ end) as [s c1].
    intros sess _. cbn [snd]. f_equal. f_equal.
    unfold transcript.
    destruct (sfc_agent ui) eqn:Ea; cbn; rewrite ?Ea;
      destruct (fresh_agent e); cbn;
      by rewrite lookup_alter_eq, lookup_insert_eq. }
  destruct (handle_clear_conversation ui cl e data) as [[ui' cl'] out].
  destruct H as (sess & Hs & Hc & Hrest). exists sess.
  split; [exact Hs|]. split; [exact Hc|]. split; [by apply (Hout sess)|].
  exact Hrest.
Qed.

(** ** Registration *)

Lemma startswith_truthy s p :
  truthy p = true -> startswith s p = true -> truthy s = true.
Proof. destruct p, s; simpl; congruence. Qed.

(** X9.  [handle_register_session] takes the id the client sends when
    it starts with "session_" and a new uuid otherwise, and keeps it in
    the client's session.  A session that has a conversation gets it
    back as it is; one that has none gets a conversation with the
    welcome message alone.  The history sent is the transcript of the
    session, the other conversations are untouched, and nothing changes
    in the registry of stop events, in the events or in the threads. *)
Theorem register_restores_or_welcomes (ui : ChatUI) (cl : client) (e : env)
    (data : option str) :
  let '(ui', cl', out) := handle_register_session ui cl e data in
  exists sess,
    flask_session cl' = Some sess
    /\ (startswith (default [] data) session_prefix = true ->
        sess = default [] data)
    /\ (startswith (default [] data) session_prefix = false ->
        sess = uuid4 e)
    /\ out = [conversation_history (transcript ui' sess)]
    /\ (is_Some (conversations ui !! sess) ->
        conversations ui' = conversations ui)
    /\ (conversations ui !! sess = None ->
        conversations ui'
        = <[sess := [Message assistant welcome_message (isoformat e 1)]]>
            (conversations ui))
    /\ stop_events ui' = stop_events ui
    /\ events ui' = events ui
    /\ active_threads ui' = active_threads ui
    /\ threads ui' = threads ui.
Proof.
  unfold handle_register_session.
  set (sess := if truthy (default [] data)
                  && startswith (default [] data) session_prefix
               then default [] data else uuid4 e).
  exists sess. split; [done|]. split; [|split].
  - intros H. subst sess.
    by rewrite (startswith_truthy _ session_prefix eq_refl H), H.
  - intros H. subst sess. by rewrite H, andb_false_r.
  - cbn [conversations set_session_timestamps].
    destruct (conversations ui !! sess) as [l|] eqn:El; cbn [present].
    + split; [done|]. split; [done|]. split; [by intros [=]|]. done.
    + split; [done|]. split; [by intros [? [=]]|]. split; [|done].
      intros _. cbn. apply map_eq. intros k.
      destruct (decide (sess = k)) as [->|Hne].
      * by rewrite lookup_alter_eq, !lookup_insert_eq.
      * by rewrite lookup_alter_ne, !lookup_insert_ne.
Qed.

Lemma register_session_id ui cl e data :
  let '(ui', cl', out) := handle_register_session ui cl e data in
  exists sess,
    flask_session cl' = Some sess
    /\ (truthy (uuid4 e) = true -> truthy sess = true)
    /\ out = [conversation_history (transcript ui' sess)]
    /\ (ready ui -> ready ui').
Proof.
  unfold handle_register_session. eexists. split; [reflexivity|].
  split; [|split; [reflexivity|]].
  - intros Hu. destruct (truthy (default [] data)); [|exact Hu].
    cbn [andb]. destruct (startswith _ _) eqn:Ep; [|exact Hu].
    by apply (startswith_truthy _ session_prefix).
  - intros Hr. by destruct (present _).
Qed.

(** X10.  A message sent after a registration is filed under the
    registered id: the generation it starts is for that session, and
    the transcript of the session is what the registration sent as
    history, followed by the user's message.  The id is taken not to be
    empty, as a uuid is not. *)
Theorem message_after_registration (ui : ChatUI) (cl : client) (e e' : env)
    (data msg : option str) :
  ready ui ->
  truthy (uuid4 e) = true ->
  truthy (strip (default [] msg)) = true ->
  mem (lower (strip (default [] msg))) exit_commands = false ->
  let '(ui1, cl1, out) := handle_register_session ui cl e data in
  let '(ui2, cl2, evs, started) := handle_message ui1 cl1 e' msg in
  exists sess g,
    flask_session cl1 = Some sess
    /\ cl2 = cl1
    /\ started = Some g
    /\ g_session g = sess
    /\ g_message g = strip (default [] msg)
    /\ out = [conversation_history (transcript ui1 sess)]
    /\ transcript ui2 sess
       = transcript ui1 sess
         ++ [Message user (strip (default [] msg)) (isoformat e' 0)].
Proof.
  intros Hready Huuid Htext Hexit.
  pose proof (register_session_id ui cl e data) as Hreg.
  destruct (handle_register_session ui cl e data) as [[ui1 cl1] out].
  destruct Hreg as (sess & Hs & Hsess & Hout & Hr1).
  specialize (Hsess Huuid). specialize (Hr1 Hready).
  assert (He : ensure_session cl1 e' = (sess, cl1)).
  { unfold ensure_session. by rewrite Hs, Hsess. }
  destruct Hr1 as [Hr Ha].
  unfold handle_message. rewrite Hr, Ha, He. cbn [negb orb].
  rewrite Htext, Hexit. cbn [negb].
  exists sess. eexists. split; [exact Hs|]. split; [done|].
  split; [reflexivity|]. split; [done|]. split; [done|].
  split; [exact Hout|].
  unfold transcript, conversation_append.
  destruct (conversations ui1 !! sess) as [l|] eqn:El; cbn.
  - by rewrite lookup_alter_eq, El.
  - by rewrite lookup_alter_eq, lookup_insert_eq.
Qed.

Lemma message_after_registration_witness :
  let '(ui1, cl1, out) :=
    handle_register_session idle_ui (Client None (lit "sid1")) env1
      (Some (lit "session_1")) in
  let '(ui2, cl2, evs, started) := handle_message ui1 cl1 env1 hello in
  exists sess g,
    flask_session cl1 = Some sess
    /\ cl2 = cl1
    /\ started = Some g
    /\ g_session g = sess
    /\ g_message g = strip (default [] hello)
    /\ out = [conversation_history (transcript ui1 sess)]
    /\ transcript ui2 sess
       = transcript ui1 sess
         ++ [Message user (strip (default [] hello)) (isoformat env1 0)].
Proof.
  apply (message_after_registration idle_ui (Client None (lit "sid1")) env1
           env1 (Some (lit "session_1")) hello).
  - split; reflexivity.
  - reflexivity.
  - reflexivity.
  - reflexivity.
Defined.

(** ** What every state of the server keeps *)

Lemma process_agent_response_state w fuel g ui fin :
  process_agent_response w fuel g ui = Some fin ->
  exists flag,
    events (f_ui fin) = <[g_stop_event g := flag]> (events ui)
    /\ (events ui !! g_stop_event g = Some true -> flag = true)
    /\ stop_events (f_ui fin) = delete (g_session g) (stop_events ui)
    /\ active_threads (f_ui fin) = delete (g_session g) (active_threads ui)
    /\ threads (f_ui fin) = threads ui
    /\ sfc_agent (f_ui fin) = sfc_agent ui
    /\ agent_ready (f_ui fin) = agent_ready ui
    /\ (conversations (f_ui fin) = conversations ui
        \/ exists msg,
             conversations (f_ui fin)
             = alter (fun l => l ++ [msg]) (g_session g) (conversations ui)).
Proof.
  unfold process_agent_response.
  destruct (thread_body _ _ _ _ _) as [[e|] r']; [|discriminate].
  intros [= <-]. cbn [f_ui].
  exists (is_set_at w (default false (events ui !! g_stop_event g))
            (instant r')).
  set (ui1 := match appended e with
              | Some msg => conversation_append (g_session g) msg ui
              | None => ui
              end).
  assert (H1 : events ui1 = events ui /\ stop_events ui1 = stop_events ui
               /\ active_threads ui1 = active_threads ui
               /\ threads ui1 = threads ui /\ sfc_agent ui1 = sfc_agent ui
               /\ agent_ready ui1 = agent_ready ui).
  { subst ui1. by destruct (appended e). }
  destruct H1 as (He & Hs & Ha & Ht & Hg & Hr).
  destruct (cleanup_facts (g_session g) ui1) as (Hcs & Hce & Hcc).
  cbn [events stop_events active_threads threads sfc_agent agent_ready
       conversations set_stop_events].
  rewrite Hce, Hcs, Hcc, He, Hs.
  split; [done|]. split.
  { intros ->. reflexivity. }
  split; [done|].
  assert (Hrest : active_threads (cleanup (g_session g) ui1)
                  = delete (g_session g) (active_threads ui1)
                  /\ threads (cleanup (g_session g) ui1) = threads ui1
                  /\ sfc_agent (cleanup (g_session g) ui1) = sfc_agent ui1
                  /\ agent_ready (cleanup (g_session g) ui1)
                     = agent_ready ui1).
  { unfold cleanup.
    destruct (present (stop_events ui1 !! g_session g));
      cbn [active_threads set_stop_events];
      destruct (active_threads ui1 !! g_session g) eqn:E; cbn;
      rewrite ?(delete_id _ _ E); done. }
  destruct Hrest as (-> & -> & -> & ->).
  rewrite Ha, Ht, Hg, Hr. do 4 (split; [done|]).
  subst ui1. destruct (appended e) as [msg|]; [right; by exists msg | by left].
Qed.

Lemma is_Some_alter (f : list message -> list message) (k k' : str)
    (m : gmap str (list message)) :
  is_Some (m !! k) -> is_Some (alter f k' m !! k).
Proof.
  intros [l Hl]. destruct (decide (k' = k)) as [->|Hne].
  - rewrite lookup_alter_eq, Hl. by eexists.
  - rewrite lookup_alter_ne by done. by eexists.
Qed.

Lemma is_Some_insert (x : list message) (k k' : str) (m : gmap str (list message)) :
  is_Some (m !! k) -> is_Some (<[k' := x]> m !! k).
Proof.
  intros [l Hl]. destruct (decide (k' = k)) as [->|Hne].
  - rewrite lookup_insert_eq. by eexists.
  - rewrite lookup_insert_ne by done. by eexists.
Qed.

Lemma flag_insert_true (h : list bool) ev ev' b :
  (h !! ev' = Some true -> b = true) ->
  h !! ev = Some true -> <[ev' := b]> h !! ev = Some true.
Proof.
  intros Hb H. destruct (decide (ev' = ev)) as [->|Hne].
  - rewrite (Hb H). apply list_lookup_insert_eq. by apply lookup_lt_Some in H.
  - by rewrite list_lookup_insert_ne.
Qed.

Lemma kept_refl ui : kept ui ui.
Proof. by constructor. Qed.

Lemma kept_trans ui1 ui2 ui3 : kept ui1 ui2 -> kept ui2 ui3 -> kept ui1 ui3.
Proof.
  intros [] []. constructor; intros; eauto. lia. lia.
Qed.

Lemma initialize_agent_kept built ui : kept ui (initialize_agent built ui).
Proof.
  unfold initialize_agent.
  destruct (sfc_agent ui) eqn:Ea; [apply kept_refl|].
  constructor; cbn; done.
Qed.

Lemma handle_register_session_kept ui cl e data :
  kept ui (fst (fst (handle_register_session ui cl e data))).
Proof.
  unfold handle_register_session. cbn [fst].
  set (sess := if truthy (default [] data) && _ then _ else _).
  destruct (present _); constructor; cbn; try done.
  - intros s H. by apply is_Some_alter, is_Some_insert.
  - intros Hs s ev Hev. destruct (Hs s ev Hev) as [Hlt Hc].
    split; [exact Hlt|]. by apply is_Some_alter, is_Some_insert.
Qed.

Lemma handle_message_kept ui cl e data :
  kept ui (fst (fst (fst (handle_message ui cl e data)))).
Proof.
  unfold handle_message.
  destruct (negb (agent_ready ui) || negb (present (sfc_agent ui)));
    [apply kept_refl|].
  destruct (ensure_session cl e) as [sess cl1].
  destruct (negb (truthy _)); [apply kept_refl|].
  set (ui0 := if present (conversations ui !! sess) then ui else _).
  assert (H0 : (forall s, is_Some (conversations ui !! s) ->
                          is_Some (conversations ui0 !! s))
               /\ is_Some (conversations ui0 !! sess)
               /\ events ui0 = events ui /\ stop_events ui0 = stop_events ui
               /\ threads ui0 = threads ui
               /\ sfc_agent ui0 = sfc_agent ui
               /\ agent_ready ui0 = agent_ready ui).
  { subst ui0. destruct (conversations ui !! sess) eqn:El; cbn.
    - rewrite El. by repeat split.
    - rewrite lookup_insert_eq. repeat split; try done.
      intros s H. by apply is_Some_insert. }
  destruct H0 as (Hc & Hk & He & Hs & Ht & Ha & Hr).
  destruct (mem _ _); cbn [fst].
  - constructor; cbn; rewrite ?He, ?Ht, ?Ha, ?Hr; try done.
    + intros s H. by do 2 apply is_Some_alter; apply Hc.
    + unfold ready. cbn. by rewrite Ha, Hr.
    + intros Hsound s ev Hev. cbn in *. rewrite Hs in Hev. rewrite ?He.
      destruct (Hsound s ev Hev) as [Hlt Hcs]. split; [exact Hlt|].
      by do 2 apply is_Some_alter; apply Hc.
  - constructor; cbn; rewrite ?He, ?Ht, ?Ha, ?Hr; try done.
    + intros s H. by apply is_Some_alter, Hc.
    + rewrite length_app. lia.
    + intros ev H. by apply lookup_app_l_Some.
    + lia.
    + unfold ready. cbn. by rewrite Ha, Hr.
    + intros Hsound s ev. cbn. rewrite ?He, ?Hs, length_app. cbn.
      destruct (decide (sess = s)) as [->|Hne].
      * rewrite lookup_insert_eq. intros [= <-]. split; [lia|].
        by apply is_Some_alter.
      * rewrite lookup_insert_ne by done. intros Hev.
        destruct (Hsound s ev Hev) as [Hlt Hcs]. split; [lia|].
        by apply is_Some_alter, Hc.
Qed.

Lemma handle_stop_generation_kept ui cl :
  kept ui (fst (handle_stop_generation ui cl)).
Proof.
  unfold handle_stop_generation.
  destruct (flask_session cl) as [sess|]; [|apply kept_refl].
  destruct (negb (truthy sess)); [apply kept_refl|].
  destruct (stop_events ui !! sess) as [ev|]; [|apply kept_refl].
  constructor; cbn; try done.
  - by rewrite length_insert.
  - intros ev'. by apply flag_insert_true.
  - intros Hsound s ev' Hev'. cbn in *. rewrite length_insert.
    by apply Hsound.
Qed.

Lemma handle_clear_conversation_kept ui cl e data :
  kept ui (fst (fst (handle_clear_conversation ui cl e data))).
Proof.
  pose proof (handle_clear_conversation_facts ui cl e data) as H.
  pose proof (handle_clear_conversation_keeps_ready ui cl e data) as Hr.
  assert (Ha : agent_ready ui = present (sfc_agent ui) ->
               agent_ready (fst (fst (handle_clear_conversation ui cl e data)))
               = present (sfc_agent
                   (fst (fst (handle_clear_conversation ui cl e data))))).
  { unfold handle_clear_conversation.
    destruct (match data with Some _ => _ | None => _ end) as [s c1].
    intros Hag. cbn [fst]. cbn [sfc_agent set_conversations].
    destruct (sfc_agent ui) eqn:Ea; destruct (fresh_agent e); cbn;
      rewrite ?Ea; exact Hag. }
  destruct (handle_clear_conversation ui cl e data) as [[ui' cl'] out].
  cbn [fst] in *. destruct H as (sess & _ & Hc & Hs & He & _ & Ht).
  constructor; rewrite ?He, ?Ht; try done.
  - intros s H. rewrite Hc. by apply is_Some_insert.
  - intros Hsound s ev. rewrite Hs, He. intros Hev.
    destruct (Hsound s ev Hev) as [Hlt Hcs]. split; [exact Hlt|].
    rewrite Hc. by apply is_Some_insert.
Qed.

Lemma process_agent_response_kept w fuel g ui fin :
  process_agent_response w fuel g ui = Some fin -> kept ui (f_ui fin).
Proof.
  intros Hrun.
  destruct (process_agent_response_state _ _ _ _ _ Hrun)
    as (flag & He & Hflag & Hs & _ & Ht & Ha & Hr & Hc).
  assert (Hkeys : forall s, is_Some (conversations ui !! s) ->
                            is_Some (conversations (f_ui fin) !! s)).
  { intros s H. destruct Hc as [-> | [msg ->]]; [done|].
    by apply is_Some_alter. }
  constructor; rewrite ?He, ?Ht, ?Ha, ?Hr; try done.
  - by rewrite length_insert.
  - intros ev. by apply flag_insert_true.
  - unfold ready. by rewrite Ha, Hr.
  - intros Hsound s ev. rewrite Hs, He, length_insert. intros Hev.
    apply lookup_delete_Some in Hev as [_ Hev].
    destruct (Hsound s ev Hev) as [Hlt Hcs]. split; [exact Hlt|].
    by apply Hkeys.
Qed.

Lemma step_kept ui ui' : step ui ui' -> kept ui ui'.
Proof.
  intros [built ui0|ui0 cl e data|ui0 cl e data|ui0 cl|ui0 cl e data
          |w fuel g ui0 fin Hrun].
  - apply initialize_agent_kept.
  - apply handle_register_session_kept.
  - apply handle_message_kept.
  - apply handle_stop_generation_kept.
  - apply handle_clear_conversation_kept.
  - by eapply process_agent_response_kept.
Qed.

Lemma steps_kept ui ui' : rtc step ui ui' -> kept ui ui'.
Proof.
  induction 1 as [|ui1 ui2 ui3 H1 _ IH]; [apply kept_refl|].
  eapply kept_trans; [by apply step_kept | exact IH].
Qed.

Lemma new_ChatUI_sound : registry_sound new_ChatUI.
Proof. intros sess ev H. cbn in H. by rewrite lookup_empty in H. Qed.

(** X11.  In every state the server gets into from its start, by
    handlers and by generations coming to their end in any order, the
    registry of stop events is sound: a registered event exists and its
    session has a conversation.  So a stop request that is acknowledged
    has set the event of the session's generation. *)
Theorem registry_stays_sound (ui : ChatUI) :
  rtc step new_ChatUI ui ->
  registry_sound ui
  /\ forall cl ui' sess,
       handle_stop_generation ui cl
         = (ui', [generation_stop_acknowledged sess]) ->
       exists ev,
         stop_events ui !! sess = Some ev /\ events ui' !! ev = Some true.
Proof.
  intros Hsteps.
  assert (Hsound : registry_sound ui).
  { apply (kept_registry _ _ (steps_kept _ _ Hsteps)), new_ChatUI_sound. }
  split; [exact Hsound|].
  intros cl ui' sess. unfold handle_stop_generation.
  destruct (flask_session cl) as [s|]; [|discriminate].
  destruct (negb (truthy s)); [discriminate|].
  destruct (stop_events ui !! s) as [ev|] eqn:Ev; [|discriminate].
  intros [= <- <-]. exists ev. split; [exact Ev|]. cbn.
  apply list_lookup_insert_eq. by destruct (Hsound s ev Ev).
Qed.

Lemma hello_ui_reached : rtc step new_ChatUI hello_ui.
Proof.
  apply (rtc_l _ _ (initialize_agent 0 new_ChatUI)).
  - apply step_initialize.
  - apply rtc_once. apply (step_message idle_ui client1 env1 hello).
Qed.

Lemma registry_stays_sound_witness :
  registry_sound hello_ui
  /\ forall cl ui' sess,
       handle_stop_generation hello_ui cl
         = (ui', [generation_stop_acknowledged sess]) ->
       exists ev,
         stop_events hello_ui !! sess = Some ev
         /\ events ui' !! ev = Some true.
Proof. apply (registry_stays_sound hello_ui). apply hello_ui_reached. Defined.

(** X12.  An event that is set stays set, and no event is ever taken
    away, whatever the handlers and the generations do afterwards: the
    code has no [clear], so a cancellation cannot be undone. *)
Theorem set_event_stays_set (ui ui' : ChatUI) (ev : nat) :
  rtc step ui ui' ->
  events ui !! ev = Some true ->
  events ui' !! ev = Some true /\ length (events ui) <= length (events ui').
Proof.
  intros Hsteps Hset. destruct (steps_kept _ _ Hsteps). by split; auto.
Qed.

Lemma set_event_stays_set_witness :
  events (fst (fst (fst (handle_message
            (fst (handle_stop_generation hello_ui client1)) client1 env1
            (Some (lit "again"))))))
    !! 0 = Some true
  /\ length (events (fst (handle_stop_generation hello_ui client1)))
     <= length (events (fst (fst (fst (handle_message
            (fst (handle_stop_generation hello_ui client1)) client1 env1
            (Some (lit "again"))))))).
Proof.
  apply (set_event_stays_set (fst (handle_stop_generation hello_ui client1))).
  - apply rtc_once. apply step_message.
  - reflexivity.
Defined.

(** X13.  The conversation of a generation is there when its thread
    comes to append to it: [handle_message] makes sure of the key
    before it starts the thread, and nothing that happens in between,
    a clearing of the conversation included, takes a key away. *)
Theorem conversation_outlives_generation (ui ui1 ui2 : ChatUI)
    (cl cl1 : client) (e : env) (data : option str) (evs : list event)
    (g : generation) :
  handle_message ui cl e data = (ui1, cl1, evs, Some g) ->
  rtc step ui1 ui2 ->
  is_Some (conversations ui2 !! g_session g)
  /\ forall msg,
       transcript (conversation_append (g_session g) msg ui2) (g_session g)
       = transcript ui2 (g_session g) ++ [msg].
Proof.
  intros Hmsg Hsteps.
  destruct (handle_message_registers _ _ _ _ _ _ _ _ Hmsg) as (Hkey & _).
  assert (Hkey2 : is_Some (conversations ui2 !! g_session g)).
  { by apply (kept_conversations _ _ (steps_kept _ _ Hsteps)). }
  split; [exact Hkey2|]. intros msg. by apply transcript_append.
Qed.

Lemma conversation_outlives_generation_witness :
  is_Some (conversations
             (fst (fst (handle_clear_conversation hello_ui client1 env1 None)))
           !! g_session hello_gen)
  /\ forall msg,
       transcript
         (conversation_append (g_session hello_gen) msg
            (fst (fst (handle_clear_conversation hello_ui client1 env1 None))))
         (g_session hello_gen)
       = transcript
           (fst (fst (handle_clear_conversation hello_ui client1 env1 None)))
           (g_session hello_gen) ++ [msg].
Proof.
  apply (conversation_outlives_generation idle_ui hello_ui _ client1 client1
           env1 hello [message_received (Message user (lit "hello") (lit "0"))]
           hello_gen).
  - reflexivity.
  - apply rtc_once. apply step_clear.
Defined.

(** X14.  From the start of the server on, the route [/ready] answers
    200 exactly when [handle_connect] lets a client in, which is exactly
    when the agent has been built; and once [initialize_agent] has run,
    both stay so whatever happens afterwards. *)
Theorem ready_after_initialization (ui : ChatUI) (built : nat) :
  rtc step new_ChatUI ui ->
  (fst (handle_connect ui) = true <-> ready_route ui = 200)
  /\ (ready_route ui = 200 <-> is_Some (sfc_agent ui))
  /\ forall ui', rtc step (initialize_agent built ui) ui' ->
       handle_connect ui' = (true, []) /\ ready_route ui' = 200.
Proof.
  intros Hsteps.
  pose proof (kept_agent _ _ (steps_kept _ _ Hsteps) eq_refl) as Hag.
  unfold handle_connect, ready_route. rewrite Hag.
  split; [|split].
  - destruct (sfc_agent ui); cbn; split; done.
  - destruct (sfc_agent ui) as [a|]; cbn.
    + split; [by eexists | done].
    + split; [done | by intros [? [=]]].
  - intros ui' Hsteps'.
    assert (Hr : ready (initialize_agent built ui)).
    { unfold initialize_agent, ready.
      destruct (sfc_agent ui) eqn:Ea; cbn; [|done].
      by rewrite Hag, Ea. }
    destruct (kept_ready _ _ (steps_kept _ _ Hsteps') Hr) as [Hr' Ha'].
    unfold handle_connect, ready_route. by rewrite Hr', Ha'.
Qed.

Lemma ready_after_initialization_witness :
  (fst (handle_connect new_ChatUI) = true <-> ready_route new_ChatUI = 200)
  /\ (ready_route new_ChatUI = 200 <-> is_Some (sfc_agent new_ChatUI))
  /\ forall ui', rtc step (initialize_agent 0 new_ChatUI) ui' ->
       handle_connect ui' = (true, []) /\ ready_route ui' = 200.
Proof. apply (ready_after_initialization new_ChatUI 0). apply rtc_refl. Defined.

(** ** Turns *)

Lemma handle_message_exit ui cl e data sess :
  ready ui ->
  flask_session cl = Some sess ->
  truthy sess = true ->
  mem (lower (strip (default [] data))) exit_commands = true ->
  exists ui',
    handle_message ui cl e data
    = (ui', cl,
       [message_received
          (Message user (strip (default [] data)) (isoformat e 0));
        agent_response
          (Message assistant goodbye_content (isoformat e 1)) None],
       None)
    /\ transcript ui' sess
       = transcript ui sess
         ++ [Message user (strip (default [] data)) (isoformat e 0);
             Message assistant goodbye_content (isoformat e 1)]
    /\ stop_events ui' = stop_events ui
    /\ ready ui'.
Proof.
  intros [Hr Ha] Hs Ht Hexit.
  pose proof (exit_command_nonempty _ Hexit) as Htext.
  unfold handle_message. rewrite Hr, Ha. cbn [negb orb].
  unfold ensure_session. rewrite Hs, Ht, Htext, Hexit. cbn [negb].
  eexists. split; [reflexivity|].
  unfold transcript, conversation_append, ready.
  destruct (conversations ui !! sess) as [l|] eqn:El; cbn.
  - rewrite !lookup_alter_eq, El. cbn. by rewrite <- app_assoc.
  - by rewrite !lookup_alter_eq, lookup_insert_eq.
Qed.

Lemma run_turn_answered ui cl t sess ui1 cl1 :
  ready ui ->
  flask_session cl = Some sess ->
  truthy sess = true ->
  answered t ->
  run_turn ui cl t = Some (ui1, cl1) ->
  cl1 = cl /\ ready ui1
  /\ (stop_events ui !! sess = None -> stop_events ui1 !! sess = None)
  /\ exists m,
       transcript ui1 sess
       = transcript ui sess
         ++ [Message user (strip (default [] (t_data t)))
               (isoformat (t_env t) 0); m]
       /\ msg_role m = assistant.
Proof.
  intros Hready Hs Ht [Htext Hnostop]. unfold run_turn.
  assert (He : ensure_session cl (t_env t) = (sess, cl)).
  { unfold ensure_session. by rewrite Hs, Ht. }
  destruct (mem (lower (strip (default [] (t_data t)))) exit_commands)
    eqn:Hexit.
  - destruct (handle_message_exit ui cl (t_env t) (t_data t) sess
                Hready Hs Ht Hexit) as (ui' & -> & Htr & Hst & Hr').
    intros [= <- <-]. split; [done|]. split; [done|].
    split; [by rewrite Hst|]. by eexists.
  - destruct (handle_message_starts ui cl (t_env t) (t_data t)
                Hready Htext Hexit) as (ui' & Hmsg & Htr & _ & Hst & Hev & _).
    rewrite He in Hmsg, Htr, Hst. cbn [fst snd] in Hmsg, Htr, Hst.
    pose proof (handle_message_keeps_ready ui cl (t_env t) (t_data t) Hready)
      as Hr'.
    destruct (handle_message_registers _ _ _ _ _ _ _ _ Hmsg)
      as (Hkey & _ & Hflag & _ & _).
    rewrite Hmsg in Hr' |- *. cbn [fst] in Hr'. cbn [g_session] in Hkey.
    cbn [g_stop_event] in Hflag.
    set (g := Generation sess (request_sid cl) (length (events ui))
                (strip (default [] (t_data t)))).
    destruct (process_agent_response (t_world t) (t_fuel t) g ui')
      as [fin|] eqn:Hrun; [|discriminate].
    intros [= <- <-]. split; [done|].
    split; [by eapply process_agent_response_keeps_ready|].
    destruct (process_agent_response_inv _ _ _ _ _ Hrun)
      as (en & r' & Hbody & Hconv & Hstop & _).
    split.
    { intros _. rewrite Hstop. apply lookup_delete_eq. }
    destruct (thread_body_facts _ _ _ _ _ _ _ Hbody) as [_ Hnever].
    destruct Hnever as (_ & p & m & Happ & Hrole & _).
    { split; [|exact Hnostop]. cbn [g g_stop_event]. by rewrite Hflag. }
    exists m. split; [|exact Hrole].
    rewrite Happ in Hconv. unfold transcript at 1. rewrite Hconv.
    change (transcript (conversation_append (g_session g) m ui') sess
            = transcript ui sess
              ++ [Message user (strip (default [] (t_data t)))
                    (isoformat (t_env t) 0); m]).
    cbn [g g_session]. rewrite transcript_append by done.
    rewrite Htr, <- app_assoc. done.
Qed.

(** X15.  After any number of turns that are answered, each run to its
    end before the next message, the transcript of the client's session
    has gained two entries a turn, the user's and then the assistant's,
    in that order; the client keeps its session, the server stays
    ready, and no stop event is left registered for the session. *)
Theorem answered_turns_alternate (ts : list turn) (ui ui' : ChatUI)
    (cl cl' : client) (sess : str) :
  ready ui ->
  flask_session cl = Some sess ->
  truthy sess = true ->
  Forall answered ts ->
  run_turns ui cl ts = Some (ui', cl') ->
  cl' = cl /\ ready ui'
  /\ map msg_role (transcript ui' sess)
     = map msg_role (transcript ui sess)
       ++ concat (replicate (length ts) [user; assistant])
  /\ (stop_events ui !! sess = None -> stop_events ui' !! sess = None).
Proof.
  intros Hready Hs Ht Hall. revert ui Hready.
  induction Hall as [|t ts Ha _ IH]; intros ui Hready; cbn [run_turns].
  - intros [= <- <-]. cbn. by rewrite app_nil_r.
  - destruct (run_turn ui cl t) as [[ui1 cl1]|] eqn:Hturn; [|discriminate].
    destruct (run_turn_answered _ _ _ _ _ _ Hready Hs Ht Ha Hturn)
      as (-> & Hr1 & Hst1 & m & Htr & Hrole).
    intros Hrest. destruct (IH ui1 Hr1 Hrest) as (-> & Hr' & Hroles & Hst').
    split; [done|]. split; [done|]. split; [|by auto].
    rewrite Hroles, Htr, map_app. cbn. rewrite Hrole, <- app_assoc. done.
Qed.

Lemma answered_turns_alternate_witness :
  exists ui',
    run_turns idle_ui client1 two_turns = Some (ui', client1)
    /\ ready ui'
    /\ map msg_role (transcript ui' (lit "session_1"))
       = [user; assistant; user; assistant]
    /\ stop_events ui' !! lit "session_1" = None.
Proof.
  destruct (run_turns idle_ui client1 two_turns) as [[ui' cl']|] eqn:Hrun;
    [|vm_compute in Hrun; discriminate].
  destruct (answered_turns_alternate two_turns idle_ui ui' client1 cl'
              (lit "session_1")) as (-> & Hr & Hroles & Hst).
  - split; reflexivity.
  - reflexivity.
  - reflexivity.
  - repeat constructor.
  - exact Hrun.
  - exists ui'. split; [reflexivity|]. split; [exact Hr|].
    split; [exact Hroles|]. by apply Hst.
Defined.

(** ** The secret key *)

Section SecretKey.

Implicit Types s t : str.

Lemma split_char_cons sep s : exists first others, split_char sep s = first :: others.
Proof.
  induction s as [|c s (f & o & IH)]; cbn; [by eexists _, _|].
  destruct (c =? sep)%N; [by eexists _, _|]. rewrite IH. by eexists _, _.
Qed.

Lemma split_char_app sep s t :
  split_char sep (s ++ sep :: t) = split_char sep s ++ split_char sep t.
Proof.
  induction s as [|c s IH]; cbn.
  - by rewrite N.eqb_refl.
  - destruct (c =? sep)%N; rewrite IH; [done|].
    by destruct (split_char_cons sep s) as (f & o & ->).
Qed.

Lemma split_char_whole sep s :
  Forall (fun c => c <> sep) s -> split_char sep s = [s].
Proof.
  induction 1 as [|c s Hc _ IH]; cbn; [done|].
  apply N.eqb_neq in Hc. by rewrite Hc, IH.
Qed.

Lemma after_first_app sep s t :
  Forall (fun c => c <> sep) s -> after_first sep (s ++ sep :: t) = Some t.
Proof.
  induction 1 as [|c s Hc _ IH]; cbn.
  - by rewrite N.eqb_refl.
  - apply N.eqb_neq in Hc. by rewrite Hc.
Qed.

Lemma startswith_app p s : startswith (p ++ s) p = true.
Proof.
  induction p as [|c p IH]; cbn; [by destruct s|].
  by rewrite N.eqb_refl.
Qed.

Lemma find_secret_key_app l1 l2 :
  find_secret_key (l1 ++ l2)
  = match find_secret_key l1 with
    | Some key => Some key
    | None => find_secret_key l2
    end.
Proof.
  induction l1 as [|line l1 IH]; cbn; [done|].
  by destruct (startswith (strip line) key_prefix).
Qed.

Lemma lstrip_solid s :
  match s with c :: _ => isspace c = false | [] => True end -> lstrip s = s.
Proof. destruct s as [|c s]; cbn; [done|]. by intros ->. Qed.

Lemma lstrip_app_solid s c t :
  isspace c = false -> lstrip (s ++ c :: t) = lstrip s ++ c :: t.
Proof.
  intros Hc. induction s as [|x s IH]; cbn; [by rewrite Hc|].
  by destruct (isspace x).
Qed.

Lemma lstrip_blank s t :
  Forall (fun c => isspace c = true) s -> lstrip (s ++ t) = lstrip t.
Proof. induction 1 as [|c s Hc _ IH]; cbn; [done|]. by rewrite Hc. Qed.

Lemma rstrip_app_solid s c t :
  isspace c = false -> rstrip (s ++ c :: t) = s ++ c :: rstrip t.
Proof.
  intros Hc. unfold rstrip.
  rewrite reverse_app, reverse_cons, <- app_assoc. cbn.
  rewrite lstrip_app_solid by done.
  rewrite reverse_app, reverse_cons, reverse_involutive.
  by rewrite <- app_assoc.
Qed.

Lemma strip_solid s :
  Forall (fun c => isspace c = false) s -> strip s = s.
Proof.
  intros H. unfold strip, rstrip.
  rewrite (lstrip_solid s) by (by destruct H).
  rewrite lstrip_solid, reverse_involutive; [done|].
  apply Forall_reverse in H. by destruct H.
Qed.

Lemma solid_no_newline s :
  Forall (fun c => isspace c = false) s -> Forall (fun c => c <> 10%N) s.
Proof. intros H. eapply Forall_impl; [exact H|]. by intros c Hc ->. Qed.

Lemma blank_no_equals s :
  Forall (fun c => isspace c = true) s -> Forall (fun c => c <> 61%N) s.
Proof. intros H. eapply Forall_impl; [exact H|]. by intros c Hc ->. Qed.

Lemma key_header_lines :
  exists comment name,
    key_header = 10%N :: comment ++ 10%N :: key_prefix
    /\ key_prefix = name ++ [61%N]
    /\ Forall (fun c => isspace c = false) key_prefix
    /\ Forall (fun c => c <> 61%N) name
    /\ split_char 10 comment = [comment]
    /\ startswith (strip comment) key_prefix = false.
Proof.
  exists (lit "# Flask Secret Key (auto-generated)"), (lit "FLASK_SECRET_KEY").
  split; [reflexivity|]. split; [reflexivity|].
  split; [repeat constructor|]. split; [|split; reflexivity].
  vm_compute. repeat constructor; discriminate.
Qed.

End SecretKey.

(** X16.  A key that is generated and saved is found again: with no
    key in the environment and none in the file, the function returns
    the first token and appends it to the file, and a later call, with
    the file as the first left it, returns the same key, draws on no
    new token and leaves the file alone.  The token has no white space,
    as the output of [token_urlsafe] has none. *)
Theorem generated_key_is_found_again (getenv : option str) (text : str)
    (token1 token2 later1 later2 : str) :
  truthy (default [] getenv) = false ->
  find_secret_key (split_char 10 text) = None ->
  Forall (fun c => isspace c = false) token1 ->
  let saved := Content (text ++ key_header ++ token1 ++ newline) true in
  _get_or_generate_secret_key getenv (Content text true) token1 token2
    = (token1, saved)
  /\ _get_or_generate_secret_key getenv saved later1 later2
     = (token1, saved).
Proof.
  intros Henv Hnone Hsolid saved. unfold _get_or_generate_secret_key.
  rewrite Henv, Hnone. split; [done|]. subst saved. cbv iota beta.
  destruct key_header_lines as (comment & name & -> & Hname & Hp & Hn & Hc & Hs).
  assert (Hline : Forall (fun c => isspace c = false) (key_prefix ++ token1))
    by (by apply Forall_app).
  replace (text ++ (10%N :: comment ++ 10%N :: key_prefix) ++ token1 ++ newline)
    with (text ++ 10%N :: comment ++ 10%N :: (key_prefix ++ token1) ++ 10%N :: [])
    by (unfold newline; cbn [app]; rewrite <- !app_assoc; cbn [app]; done).
  rewrite !split_char_app, Hc.
  rewrite (split_char_whole _ (key_prefix ++ token1))
    by (by apply solid_no_newline).
  rewrite !find_secret_key_app, Hnone. cbn [find_secret_key app].
  rewrite Hs, (strip_solid _ Hline), startswith_app.
  rewrite Hname, <- app_assoc. cbn [app].
  rewrite (after_first_app _ _ _ Hn). cbn [default from_option id].
  by rewrite (strip_solid _ Hsolid).
Qed.

Lemma generated_key_is_found_again_witness :
  _get_or_generate_secret_key None (Content (lit "DEBUG=1") true)
    (lit "s3cr3t-K_y") (lit "other")
    = (lit "s3cr3t-K_y",
       Content (lit "DEBUG=1" ++ key_header ++ lit "s3cr3t-K_y" ++ newline)
         true)
  /\ _get_or_generate_secret_key None
       (Content (lit "DEBUG=1" ++ key_header ++ lit "s3cr3t-K_y" ++ newline)
          true)
       (lit "third") (lit "fourth")
     = (lit "s3cr3t-K_y",
        Content (lit "DEBUG=1" ++ key_header ++ lit "s3cr3t-K_y" ++ newline)
          true).
Proof.
  apply (generated_key_is_found_again None (lit "DEBUG=1") (lit "s3cr3t-K_y")
           (lit "other") (lit "third") (lit "fourth")).
  - reflexivity.
  - reflexivity.
  - vm_compute. repeat constructor.
Defined.

(** X17.  With no key in the environment, the key is read off the
    first line of the file that, indentation aside, starts with
    "FLASK_SECRET_KEY=": it is what follows the equals sign, without
    the white space around it, so an empty value gives the empty key.
    No token is drawn and the file is left as it is, writable or
    not. *)
Theorem key_line_is_read (getenv : option str) (text : str)
    (writable : bool) (token1 token2 : str)
    (before after : list str) (indent value : str) :
  truthy (default [] getenv) = false ->
  split_char 10 text = before ++ (indent ++ key_prefix ++ value) :: after ->
  find_secret_key before = None ->
  Forall (fun c => isspace c = true) indent ->
  _get_or_generate_secret_key getenv (Content text writable) token1 token2
    = (strip value, Content text writable).
Proof.
  intros Henv Hlines Hnone Hblank. unfold _get_or_generate_secret_key.
  rewrite Henv, Hlines, find_secret_key_app, Hnone. cbn [find_secret_key].
  destruct key_header_lines as (_ & name & _ & Hname & _ & Hn & _ & _).
  assert (Hstrip : strip (indent ++ key_prefix ++ value)
                   = key_prefix ++ rstrip value).
  { unfold strip. rewrite lstrip_blank by done.
    replace (lstrip (key_prefix ++ value)) with (key_prefix ++ value)
      by reflexivity.
    rewrite Hname, <- app_assoc. cbn [app].
    rewrite rstrip_app_solid by done. by rewrite <- app_assoc. }
  rewrite Hstrip, startswith_app.
  rewrite Hname, <- app_assoc. cbn [app].
  rewrite app_assoc, after_first_app; [done|].
  apply Forall_app. split; [by apply blank_no_equals | done].
Qed.

Lemma key_line_is_read_witness :
  _get_or_generate_secret_key (Some [])
    (Content (lit "DEBUG=1
  FLASK_SECRET_KEY= abc 
FLASK_SECRET_KEY=other") false) (lit "t1") (lit "t2")
  = (lit "abc",
     Content (lit "DEBUG=1
  FLASK_SECRET_KEY= abc 
FLASK_SECRET_KEY=other") false).
Proof.
  apply (key_line_is_read (Some []) _ false (lit "t1") (lit "t2")
           [lit "DEBUG=1"] [lit "FLASK_SECRET_KEY=other"]
           (lit "  ") (lit " abc ")).
  - reflexivity.
  - reflexivity.
  - reflexivity.
  - vm_compute. repeat constructor.
Defined.

(** ** The supervisor's verdicts *)

Section Verdicts.

Variable w : world.
Variable set0 : bool.





End Verdicts.


(** A stop request between the worker's look at the event and
    [completed]: the supervisor sees the event set, waits, finds the
    thread over and breaks, and what it returns is the worker's own
    text; the thread then finds the event set and drops it. *)
Lemma stop_between_look_and_flag :
  (exists r',
     run_with_timeout world_races false 100 300
       (tick world_races false (first_run world_races hello_gen))
     = (Returned (lit "late", StopBreak, CANCELLED), r'))
  /\ exists fin,
       process_agent_response world_races 100 hello_gen hello_ui = Some fin
       /\ conversations (f_ui fin) = conversations hello_ui
       /\ f_emitted fin
          = [agent_typing true (lit "sid1");
             agent_streaming_start (lit "session_1") (lit "sid1");
             generation_stopped stopped_during (lit "sid1");
             agent_typing false (lit "sid1")].
Proof.
  split.
  - eexists. vm_compute. reflexivity.
  - eexists. split; [vm_compute; reflexivity|]. split; reflexivity.
Qed.

(** ** How a generation ends *)

Section Shape.

Variable w : world.
Variable set0 : bool.
Variable g : generation.

Lemma thread_body_shape fuel r e r' :
  thread_body w set0 g fuel r = (Some e, r') ->
  exists partials tail,
    Forall (fun ev => is_partial ev = true) partials
    /\ emitted r' = emitted r ++ partials ++ tail
    /\ closing (g_sid g) (appended e) tail
    /\ match appended e with
       | Some m => msg_role m = assistant
       | None => True
       end.
Proof.
  unfold thread_body, bind, stop_is_set, look.
  pose proof (tick_facts w set0 r) as (Hi0 & _ & _ & He0 & _).
  destruct (is_set_at w set0 (instant r)).
  { unfold emit, restore_stdout, ret. intros Heq.
    apply pair_equal_spec in Heq as [[= <-] <-].
    cbn [appended]. rewrite ?emitted_Run, ?emitted_set_capture.
    destruct (extends_emitted _ _ He0) as (p0 & Hp0 & Hf0).
    exists p0, [generation_stopped stopped_before_starting (g_sid g)].
    split; [exact Hf0|]. split; [by rewrite Hp0, <- app_assoc|].
    split; [constructor | done]. }
  pose proof (run_with_timeout_facts w set0 fuel 300 (tick w set0 r))
    as [He1 Hx].
  unfold _run_agent_with_stop_check.
  destruct (run_with_timeout w set0 fuel 300 (tick w set0 r)) as [x r1].
  cbn [fst snd] in *.
  assert (He01 : extends r r1) by (by eapply extends_trans).
  destruct x as [|err|[[response how] st]].
  - unfold ret. discriminate.
  - destruct Hx as [Herr ->]. unfold restore_stdout.
    set (r2 := Run _ _ false _ _).
    pose proof (on_exception_facts w set0 g err r2 eq_refl) as (p2 & Hf2 & H2).
    destruct (on_exception w set0 g err r2) as [m r3].
    unfold ret. intros Heq. apply pair_equal_spec in Heq as [[= <-] <-].
    cbn [appended fst snd] in *.
    destruct (extends_emitted _ _ He0) as (p0 & Hp0 & Hf0).
    exists (p0 ++ p2).
    destruct (is_set_at w set0 (S (instant r2))).
    + destruct H2 as [-> Hem]. eexists. split; [by apply Forall_app|].
      split; [rewrite Hem; subst r2; cbn [emitted];
              rewrite Hp0, <- !app_assoc; reflexivity|].
      split; [constructor | done].
    + destruct H2 as (now & -> & Hem). eexists. split; [by apply Forall_app|].
      split; [rewrite Hem; subst r2; cbn [emitted];
              rewrite Hp0, <- !app_assoc; reflexivity|].
      split; [constructor | done].
  - pose proof (tick_facts w set0 r1) as (Hi1 & _ & _ & He1' & _).
    destruct (is_set_at w set0 (instant r1)).
    + unfold emit, restore_stdout, ret. intros Heq.
      apply pair_equal_spec in Heq as [[= <-] <-].
      cbn [appended]. rewrite ?emitted_Run, ?emitted_set_capture.
      assert (He : extends r (tick w set0 r1)) by (by eapply extends_trans).
      destruct (extends_emitted _ _ He) as (p & Hp & Hf).
      exists p, [generation_stopped stopped_during (g_sid g)].
      split; [exact Hf|]. split; [by rewrite Hp, <- app_assoc|].
      split; [constructor | done].
    + pose proof (after_response_facts w set0 g (tick w set0 r1)) as Ha.
      destruct (after_response w set0 g (tick w set0 r1)) as [[] r2].
      cbn [snd] in Ha. unfold restore_stdout.
      set (r3 := Run _ _ false _ _).
      pose proof (respond_facts w set0 g response r3 eq_refl) as H3.
      destruct (respond w set0 g response r3) as [m r4].
      unfold ret. intros Heq. apply pair_equal_spec in Heq as [Hsome Hrun].
      injection Hsome as Hsome. subst e r'. cbn [appended].
      assert (He : extends r r2).
      { eapply extends_trans; [exact He01|].
        eapply extends_trans; [exact He1' | exact Ha]. }
      destruct (extends_emitted _ _ He) as (p & Hp & Hf).
      exists p. cbv zeta in H3. cbn [fst snd] in H3.
      destruct (is_set_at w set0 (instant r3)).
      * destruct H3 as [-> Hem]. exists []. split; [exact Hf|].
        split; [rewrite Hem; subst r3; cbn [emitted];
                by rewrite Hp, app_nil_r|].
        split; [constructor | done].
      * destruct H3 as [-> Hem]. eexists. split; [exact Hf|].
        split; [rewrite Hem; subst r3; cbn [emitted];
                rewrite Hp, <- app_assoc; reflexivity|].
        split; [constructor | done].
Qed.

End Shape.

(** X19.  Every generation that ends switches the typing indicator on
    first and off last, and sends nothing in between but the streaming
    start, partial output and one closing: a stop notice, or the end of
    the stream, with an [agent_response] after it when the thread
    itself failed, or nothing at all.  A stop notice never goes with an
    appended message: the conversations are untouched unless the
    closing is the end of the stream, and then they gain one assistant
    message in the session of the generation; and nothing is appended
    only when a stop request has come. *)
Theorem generation_ends_in_one_closing (w : world) (fuel : nat)
    (g : generation) (ui : ChatUI) (fin : finished) :
  process_agent_response w fuel g ui = Some fin ->
  exists partials tail reply,
    Forall (fun ev => is_partial ev = true) partials
    /\ f_emitted fin
       = [agent_typing true (g_sid g);
          agent_streaming_start (g_session g) (g_sid g)]
         ++ partials ++ tail ++ [agent_typing false (g_sid g)]
    /\ closing (g_sid g) reply tail
    /\ match reply with
       | Some m =>
           msg_role m = assistant
           /\ conversations (f_ui fin)
              = conversations (conversation_append (g_session g) m ui)
       | None =>
           conversations (f_ui fin) = conversations ui
           /\ ~ never_stopped w (default false (events ui !! g_stop_event g))
       end.
Proof.
  intros Hrun.
  destruct (process_agent_response_inv _ _ _ _ _ Hrun)
    as (e & r' & Hbody & Hconv & _ & Hem & _ & _).
  destruct (thread_body_shape _ _ _ _ _ _ _ Hbody)
    as (p & tail & Hf & Hp & Hclose & Hrole).
  destruct (thread_body_facts _ _ _ _ _ _ _ Hbody) as [_ Hnever].
  exists p, tail, (appended e). split; [exact Hf|]. split.
  - rewrite Hem, Hp. cbn [emitted first_run]. by rewrite <- !app_assoc.
  - split; [exact Hclose|]. destruct (appended e) as [m|]; [done|].
    split; [exact Hconv|]. intros Hn.
    by destruct (Hnever Hn) as (_ & ? & ? & ? & _).
Qed.

Lemma guard_exit_reply (w : world) (fuel : nat) (g : generation)
    (ui : ChatUI) (fin : finished) :
  never_stopped w (default false (events ui !! g_stop_event g)) ->
  is_Some (conversations ui !! g_session g) ->
  process_agent_response w fuel g ui = Some fin ->
  f_exit fin = Some GuardExit ->
  let a := run_in_thread (agent_does w) false new_StoppableAgent in
  f_state fin = terminal_of GuardExit a
  /\ exists partials now,
       Forall (fun ev => is_partial ev = true) partials
       /\ transcript (f_ui fin) (g_session g)
          = transcript ui (g_session g)
            ++ [Message assistant (returned_text a) now]
       /\ f_emitted fin
          = [agent_typing true (g_sid g);
             agent_streaming_start (g_session g) (g_sid g)]
            ++ partials
            ++ [agent_streaming_end (g_sid g);
                agent_typing false (g_sid g)].
Proof.
  intros Hn Hkey Hrun Hexit.
  destruct (process_agent_response_inv _ _ _ _ _ Hrun)
    as (en & r' & Hbody & Hconv & _ & Hem & Hex & Hst).
  destruct (thread_body_facts _ _ _ _ _ _ _ Hbody) as [_ Hnever].
  destruct (Hnever Hn) as (_ & p & m & Happ & Hrole & Hf & Hcase).
  rewrite Hex in Hexit.
  destruct Hcase as [((how & Hhow & Hret) & Hp & _) | (Hnone & _)];
    [|congruence].
  assert (how = GuardExit) by congruence. subst how.
  destruct (run_with_timeout_guard_exit _ _ _ _ _ _ _ Hret)
    as (stopped & Htext & Hstate & Hs).
  rewrite (Hs Hn) in Htext, Hstate. cbv zeta.
  rewrite Hst. split; [exact Hstate|].
  destruct m as [mr mc mt]. cbn in Hrole, Htext. subst mr mc.
  exists p, mt. split; [exact Hf|]. rewrite Happ in Hconv. split.
  - unfold transcript at 1. rewrite Hconv. by apply transcript_append.
  - rewrite Hem, Hp. cbn [emitted first_run]. by rewrite <- !app_assoc.
Qed.

(** X20.  When the agent call returns, no stop request comes and the
    supervisor sees the worker end, the generation is COMPLETED and the
    transcript gains one assistant message: the text of the value
    returned, or "No response generated." for a value that counts as
    false (None, the empty string, a falsy object).  An exception whose
    text is empty is taken the same way: COMPLETED, with "No response
    generated.".  The client is sent the end of the stream and no
    [agent_response]. *)
Theorem worker_result_is_appended (w : world) (fuel : nat) (g : generation)
    (ui : ChatUI) (fin : finished) :
  never_stopped w (default false (events ui !! g_stop_event g)) ->
  is_Some (conversations ui !! g_session g) ->
  process_agent_response w fuel g ui = Some fin ->
  f_exit fin = Some GuardExit ->
  (exists v, agent_does w = Returns v) \/ agent_does w = Raises [] ->
  f_state fin = COMPLETED
  /\ exists partials now,
       Forall (fun ev => is_partial ev = true) partials
       /\ transcript (f_ui fin) (g_session g)
          = transcript ui (g_session g)
            ++ [Message assistant
                  match agent_does w with
                  | Returns v =>
                      if value_truth v then to_text v else no_response
                  | Raises _ => no_response
                  end now]
       /\ f_emitted fin
          = [agent_typing true (g_sid g);
             agent_streaming_start (g_session g) (g_sid g)]
            ++ partials
            ++ [agent_streaming_end (g_sid g);
                agent_typing false (g_sid g)].
Proof.
  intros Hn Hkey Hrun Hexit Hdoes.
  destruct (guard_exit_reply w fuel g ui fin Hn Hkey Hrun Hexit)
    as (Hst & p & now & Hf & Htr & Hem).
  assert (Ha : terminal_of GuardExit
                 (run_in_thread (agent_does w) false new_StoppableAgent)
               = COMPLETED
               /\ returned_text
                    (run_in_thread (agent_does w) false new_StoppableAgent)
                  = match agent_does w with
                    | Returns v =>
                        if value_truth v then to_text v else no_response
                    | Raises _ => no_response
                    end).
  { destruct Hdoes as [[v ->] | ->]; by split. }
  destruct Ha as [Hc Ht]. rewrite Hc in Hst. rewrite Ht in Htr.
  split; [exact Hst|]. by exists p, now.
Qed.

(** X21.  When the agent thread cannot be started and no stop request
    comes, the generation ends at once, whatever the fuel: it is
    ERRORED, the supervisor's loop never ran, the transcript gains the
    error message with the text of the exception, and the same message
    is sent to the client as an [agent_response]. *)
Theorem thread_start_failure_is_reported (w : world) (fuel : nat)
    (g : generation) (ui : ChatUI) (e : str) :
  start_error w = Some e ->
  never_stopped w (default false (events ui !! g_stop_event g)) ->
  is_Some (conversations ui !! g_session g) ->
  exists fin partials now,
    process_agent_response w fuel g ui = Some fin
    /\ f_state fin = ERRORED
    /\ f_exit fin = None
    /\ Forall (fun ev => is_partial ev = true) partials
    /\ transcript (f_ui fin) (g_session g)
       = transcript ui (g_session g)
         ++ [Message assistant (error_intro ++ e ++ error_advice) now]
    /\ f_emitted fin
       = [agent_typing true (g_sid g);
          agent_streaming_start (g_session g) (g_sid g)]
         ++ partials
         ++ [agent_streaming_end (g_sid g);
             agent_response
               (Message assistant (error_intro ++ e ++ error_advice) now)
               (Some (g_sid g));
             agent_typing false (g_sid g)].
Proof.
  intros Hstart Hn Hkey.
  set (set0 := default false (events ui !! g_stop_event g)) in *.
  assert (Hsome : is_Some (process_agent_response w fuel g ui)).
  { unfold process_agent_response. fold set0.
    unfold thread_body, bind, stop_is_set, look.
    rewrite (never_stopped_unset w set0 _ Hn).
    unfold _run_agent_with_stop_check, run_with_timeout. rewrite Hstart.
    unfold ret, restore_stdout.
    destruct (on_exception w set0 g e _) as [m r2]. by eexists. }
  destruct Hsome as [fin Hrun]. exists fin.
  destruct (process_agent_response_inv _ _ _ _ _ Hrun)
    as (en & r' & Hbody & Hconv & _ & Hem & Hex & Hst).
  destruct (thread_body_facts _ _ _ _ _ _ _ Hbody) as [_ Hnever].
  destruct (Hnever Hn) as (_ & p & m & Happ & Hrole & Hf & Hcase).
  destruct Hcase as [((how & _ & Hret) & _) | (Hnone & Herr & Hmsg & Hp)].
  { unfold run_with_timeout in Hret. rewrite Hstart in Hret. discriminate. }
  rewrite Hstart in Hmsg. cbn [default from_option id] in Hmsg.
  destruct m as [mr mc mt]. cbn in Hrole, Hmsg. subst mr mc.
  exists p, mt. split; [exact Hrun|]. split; [congruence|].
  split; [congruence|]. split; [exact Hf|]. rewrite Happ in Hconv. split.
  - unfold transcript at 1. rewrite Hconv. by apply transcript_append.
  - rewrite Hem, Hp. cbn [emitted first_run]. by rewrite <- !app_assoc.
Qed.

(** ** Stop requests and generations *)

Section StopEnds.

Variable w : world.
Variable set0 : bool.

Lemma poll_loop_stop_ends (s : nat) (start : Q) (timeout : Z) :
  is_set_at w set0 s = true ->
  forall k r, s <= instant r + 2 + 5 * k ->
  forall fuel, k < fuel ->
  fst (poll_loop w set0 fuel start timeout r) <> None.
Proof.
  intros Hset.
  induction k as [|k IH]; intros r Hs fuel Hfuel;
    (destruct fuel as [|fuel]; [lia|]); cbn [poll_loop]; unfold bind.
  all: pose proof (poll_chain w set0 start timeout r) as Hchain;
    cbv zeta in Hchain;
    pose proof (poll_facts w set0 start timeout r) as Hp;
    destruct (poll w set0 start timeout r) as [[how|] r1];
    cbn [fst snd] in *; [unfold ret; cbn [fst]; discriminate|];
    destruct Hp as (_ & _ & _ & _ & _ & Hcont); specialize (Hcont eq_refl).
  all: destruct (negb _ || _); [discriminate|];
    rewrite !instant_tick in Hchain.
  - rewrite (is_set_mono w set0 s (S (S (instant r))) ltac:(lia) Hset)
      in Hchain.
    by destruct Hchain.
  - destruct (is_set_at w set0 (S (S (instant r)))); [by destruct Hchain|].
    apply IH; lia.
Qed.

Lemma run_with_timeout_stop_ends (s : nat) (timeout : Z) (r : run) :
  is_set_at w set0 s = true ->
  forall fuel, s < fuel ->
  fst (run_with_timeout w set0 fuel timeout r) <> Unfinished.
Proof.
  intros Hset fuel Hfuel. unfold run_with_timeout.
  destruct (start_error w); [unfold ret; cbn [fst]; discriminate|].
  unfold bind, start_thread, look.
  set (r0 := tick w set0 (tick w set0 _)).
  pose proof (poll_loop_stop_ends s
                (clock w (instant (tick w set0
                   (Run (instant r) (capture r) (redirected r) (emitted r)
                      (Some (instant r)))))) timeout Hset s r0
                ltac:(lia) fuel Hfuel) as Hend.
  destruct (poll_loop w set0 fuel _ timeout r0) as [[how|] r1];
    [|by cbn [fst] in Hend].
  destruct how; unfold ret; cbn [fst]; discriminate.
Qed.

End StopEnds.

(** X22.  A stop request ends the generation whatever the agent and
    the clock do: when the event is set from instant [s] on, the
    supervisor's loop is left after at most [s] turns, so the generation
    comes to its end without any assumption on time. *)
Theorem stop_request_ends_generation (w : world) (g : generation)
    (ui : ChatUI) (s : nat) :
  stop_at w = Some s ->
  forall fuel, s < fuel -> is_Some (process_agent_response w fuel g ui).
Proof.
  intros Hstop fuel Hfuel.
  set (set0 := default false (events ui !! g_stop_event g)).
  assert (Hset : is_set_at w set0 s = true).
  { unfold is_set_at. rewrite Hstop, Nat.leb_refl. apply orb_true_r. }
  pose proof (run_with_timeout_stop_ends w set0 s 300
                (tick w set0 (first_run w g)) Hset fuel Hfuel) as Hends.
  unfold process_agent_response. fold set0.
  unfold thread_body, bind, stop_is_set, look.
  destruct (is_set_at w set0 (instant (first_run w g))).
  { unfold emit, restore_stdout, ret. by eexists. }
  unfold _run_agent_with_stop_check.
  destruct (run_with_timeout w set0 fuel 300 (tick w set0 (first_run w g)))
    as [[|err|[[response how] st]] r1]; cbn [fst] in Hends.
  - done.
  - unfold restore_stdout.
    destruct (on_exception w set0 g err _) as [m r2]. unfold ret. by eexists.
  - destruct (is_set_at w set0 (instant r1)).
    + unfold emit, restore_stdout, ret. by eexists.
    + destruct (after_response w set0 g _) as [[] r2]. unfold restore_stdout.
      destruct (respond w set0 g response _) as [m r3]. unfold ret.
      by eexists.
Qed.

Lemma handle_message_started ui cl e data ui' cl' evs g :
  handle_message ui cl e data = (ui', cl', evs, Some g) ->
  ready ui'
  /\ cl' = snd (ensure_session cl e)
  /\ g_session g = fst (ensure_session cl e)
  /\ g_stop_event g = length (events ui)
  /\ events ui' = events ui ++ [false]
  /\ stop_events ui' = <[g_session g := g_stop_event g]> (stop_events ui).
Proof.
  unfold handle_message.
  destruct (agent_ready ui) eqn:Hr; cbn [negb orb]; [|discriminate].
  destruct (present (sfc_agent ui)) eqn:Ha; cbn [negb]; [|discriminate].
  destruct (ensure_session cl e) as [sess cl1]. cbn [fst snd].
  destruct (negb (truthy (strip (default [] data)))); [discriminate|].
  destruct (mem _ _); [discriminate|].
  intros [= <- <- <- <-]. cbn.
  by destruct (present (conversations ui !! sess)).
Qed.

(** X23.  A second message of a client, sent while the generation of
    its first is still at work, takes the session's place in the
    registry: the two generations are for the same session and have
    different events, and a stop request that follows is acknowledged
    and sets the event of the second and not that of the first, which
    the client can no longer stop. *)
Theorem stop_reaches_latest_generation (ui ui1 ui2 : ChatUI)
    (cl cl1 cl2 : client) (e1 e2 : env) (d1 d2 : option str)
    (evs1 evs2 : list event) (g1 g2 : generation) :
  handle_message ui cl e1 d1 = (ui1, cl1, evs1, Some g1) ->
  handle_message ui1 cl1 e2 d2 = (ui2, cl2, evs2, Some g2) ->
  truthy (g_session g1) = true ->
  g_session g2 = g_session g1
  /\ g_stop_event g2 <> g_stop_event g1
  /\ exists ui3,
       handle_stop_generation ui2 cl2
         = (ui3, [generation_stop_acknowledged (g_session g1)])
       /\ events ui3 !! g_stop_event g2 = Some true
       /\ events ui3 !! g_stop_event g1 = Some false.
Proof.
  intros H1 H2 Ht.
  destruct (handle_message_started _ _ _ _ _ _ _ _ H1)
    as (_ & Hcl1 & Hs1 & Hev1 & Hevs1 & _).
  destruct (handle_message_started _ _ _ _ _ _ _ _ H2)
    as (_ & Hcl2 & Hs2 & Hev2 & Hevs2 & Hreg2).
  assert (Hsess : flask_session cl1 = Some (g_session g1)).
  { rewrite Hcl1, Hs1. apply ensure_session_kept. }
  assert (He : ensure_session cl1 e2 = (g_session g1, cl1)).
  { unfold ensure_session. by rewrite Hsess, Ht. }
  rewrite He in Hcl2, Hs2. cbn [fst snd] in Hcl2, Hs2. subst cl2.
  split; [exact Hs2|].
  rewrite Hevs1, length_app in Hev2. cbn [length] in Hev2.
  split; [lia|].
  unfold handle_stop_generation. rewrite Hsess, Ht. cbn [negb].
  rewrite Hreg2, Hs2, lookup_insert_eq.
  eexists. split; [reflexivity|]. cbn [events set_stop_events].
  rewrite Hevs2, Hevs1. split.
  - apply list_lookup_insert_eq. rewrite Hev2, !length_app. cbn. lia.
  - rewrite list_lookup_insert_ne by lia.
    rewrite <- app_assoc, Hev1. by rewrite lookup_app_r, Nat.sub_diag.
Qed.

Lemma stop_reaches_latest_generation_witness :
  g_session (Generation (lit "session_1") (lit "sid1") 1 (lit "again"))
    = g_session hello_gen
  /\ g_stop_event (Generation (lit "session_1") (lit "sid1") 1 (lit "again"))
     <> g_stop_event hello_gen
  /\ exists ui3,
       handle_stop_generation again_ui client1
         = (ui3, [generation_stop_acknowledged (g_session hello_gen)])
       /\ events ui3
            !! g_stop_event
                 (Generation (lit "session_1") (lit "sid1") 1 (lit "again"))
          = Some true
       /\ events ui3 !! g_stop_event hello_gen = Some false.
Proof.
  apply (stop_reaches_latest_generation idle_ui hello_ui again_ui
           client1 client1 client1 env1 env1 hello (Some (lit "again"))
           [message_received (Message user (lit "hello") (lit "0"))]
           [message_received (Message user (lit "again") (lit "0"))]).
  - reflexivity.
  - reflexivity.
  - reflexivity.
Defined.

(** X24.  Once a generation has come to its end, a stop request of its
    client finds nothing to stop: the state is left as it is and the
    answer is "No active generation to stop.". *)
Theorem stop_after_end_finds_nothing (ui ui1 : ChatUI) (cl cl1 : client)
    (e : env) (data : option str) (evs : list event) (g : generation)
    (w : world) (fuel : nat) (fin : finished) :
  handle_message ui cl e data = (ui1, cl1, evs, Some g) ->
  truthy (g_session g) = true ->
  process_agent_response w fuel g ui1 = Some fin ->
  handle_stop_generation (f_ui fin) cl1
  = (f_ui fin, [generation_stop_error no_active_generation]).
Proof.
  intros Hmsg Ht Hrun.
  destruct (handle_message_started _ _ _ _ _ _ _ _ Hmsg)
    as (_ & Hcl1 & Hs & _).
  assert (Hsess : flask_session cl1 = Some (g_session g)).
  { rewrite Hcl1, Hs. apply ensure_session_kept. }
  destruct (process_agent_response_inv _ _ _ _ _ Hrun)
    as (_ & _ & _ & _ & Hstop & _).
  unfold handle_stop_generation. rewrite Hsess, Ht. cbn [negb].
  by rewrite Hstop, lookup_delete_eq.
Qed.

(** ** The properties above, at the sample states *)


Lemma generation_ends_in_one_closing_witness :
  exists fin,
    process_agent_response world_returns 100 hello_gen hello_ui = Some fin
    /\ exists partials tail reply,
         Forall (fun ev => is_partial ev = true) partials
         /\ f_emitted fin
            = [agent_typing true (g_sid hello_gen);
               agent_streaming_start (g_session hello_gen) (g_sid hello_gen)]
              ++ partials ++ tail ++ [agent_typing false (g_sid hello_gen)]
         /\ closing (g_sid hello_gen) reply tail
         /\ match reply with
            | Some m =>
                msg_role m = assistant
                /\ conversations (f_ui fin)
                   = conversations
                       (conversation_append (g_session hello_gen) m hello_ui)
            | None =>
                conversations (f_ui fin) = conversations hello_ui
                /\ ~ never_stopped world_returns
                       (default false
                          (events hello_ui !! g_stop_event hello_gen))
            end.
Proof.
  destruct (process_agent_response world_returns 100 hello_gen hello_ui)
    as [fin|] eqn:E; [|vm_compute in E; discriminate].
  exists fin. split; [reflexivity|].
  exact (generation_ends_in_one_closing world_returns 100 hello_gen hello_ui
           fin E).
Defined.

Lemma worker_result_is_appended_witness :
  exists fin,
    process_agent_response world_returns 100 hello_gen hello_ui = Some fin
    /\ f_state fin = COMPLETED
    /\ exists partials now,
         Forall (fun ev => is_partial ev = true) partials
         /\ transcript (f_ui fin) (g_session hello_gen)
            = transcript hello_ui (g_session hello_gen)
              ++ [Message assistant
                    match agent_does world_returns with
                    | Returns v =>
                        if value_truth v then to_text v else no_response
                    | Raises _ => no_response
                    end now]
         /\ f_emitted fin
            = [agent_typing true (g_sid hello_gen);
               agent_streaming_start (g_session hello_gen) (g_sid hello_gen)]
              ++ partials
              ++ [agent_streaming_end (g_sid hello_gen);
                  agent_typing false (g_sid hello_gen)].
Proof.
  destruct (process_agent_response world_returns 100 hello_gen hello_ui)
    as [fin|] eqn:E; [|vm_compute in E; discriminate].
  exists fin. split; [reflexivity|].
  apply (worker_result_is_appended world_returns 100 hello_gen hello_ui fin).
  - split; reflexivity.
  - vm_compute. by eexists.
  - exact E.
  - vm_compute in E. injection E as <-. reflexivity.
  - left. by eexists.
Defined.

Lemma thread_start_failure_is_reported_witness :
  exists fin partials now,
    process_agent_response world_no_thread 0 hello_gen hello_ui = Some fin
    /\ f_state fin = ERRORED
    /\ f_exit fin = None
    /\ Forall (fun ev => is_partial ev = true) partials
    /\ transcript (f_ui fin) (g_session hello_gen)
       = transcript hello_ui (g_session hello_gen)
         ++ [Message assistant
               (error_intro ++ lit "can't start new thread" ++ error_advice)
               now]
    /\ f_emitted fin
       = [agent_typing true (g_sid hello_gen);
          agent_streaming_start (g_session hello_gen) (g_sid hello_gen)]
         ++ partials
         ++ [agent_streaming_end (g_sid hello_gen);
             agent_response
               (Message assistant
                  (error_intro ++ lit "can't start new thread"
                   ++ error_advice) now)
               (Some (g_sid hello_gen));
             agent_typing false (g_sid hello_gen)].
Proof.
  apply (thread_start_failure_is_reported world_no_thread 0 hello_gen hello_ui
           (lit "can't start new thread")).
  - reflexivity.
  - split; reflexivity.
  - vm_compute. by eexists.
Defined.

Lemma stop_request_ends_generation_witness :
  is_Some (process_agent_response world_stopped 10 hello_gen hello_ui).
Proof.
  apply (stop_request_ends_generation world_stopped hello_gen hello_ui 9).
  - reflexivity.
  - lia.
Defined.

Lemma stop_after_end_finds_nothing_witness :
  exists fin,
    process_agent_response world_returns 100 hello_gen hello_ui = Some fin
    /\ handle_stop_generation (f_ui fin) client1
       = (f_ui fin, [generation_stop_error no_active_generation]).
Proof.
  destruct (process_agent_response world_returns 100 hello_gen hello_ui)
    as [fin|] eqn:E; [|vm_compute in E; discriminate].
  exists fin. split; [reflexivity|].
  apply (stop_after_end_finds_nothing idle_ui hello_ui client1 client1 env1
           hello [message_received (Message user (lit "hello") (lit "0"))]
           hello_gen world_returns 100 fin).
  - reflexivity.
  - reflexivity.
  - exact E.
Defined.

Lemma generation_ends_witness :
  exists fuel0, forall fuel, fuel0 <= fuel ->
    is_Some (process_agent_response world_blocks fuel hello_gen hello_ui).
Proof.
  apply (generation_ends world_blocks hello_gen hello_ui).
  apply (steady_clock_passes world_blocks 50); [lia | reflexivity].
Defined.

Lemma stop_after_registration_cancels_witness :
  exists fin,
    process_agent_response world_returns 0 hello_gen
      (fst (handle_stop_generation hello_ui client1))
      = Some fin
    /\ f_state fin = CANCELLED
    /\ f_exit fin = None
    /\ conversations (f_ui fin) = conversations hello_ui
    /\ f_emitted fin
       = [agent_typing true (g_sid hello_gen);
          agent_streaming_start (g_session hello_gen) (g_sid hello_gen);
          generation_stopped stopped_before_starting (g_sid hello_gen);
          agent_typing false (g_sid hello_gen)].
Proof.
  apply (stop_after_registration_cancels idle_ui client1 client1 env1 hello
           [message_received (Message user (lit "hello") (lit "0"))]
           hello_ui hello_gen world_returns 0).
  - reflexivity.
  - reflexivity.
  - reflexivity.
Defined.

Lemma raised_error_goes_to_transcript_only_witness :
  exists fin,
    process_agent_response world_raises 100 hello_gen hello_ui = Some fin
    /\ f_state fin = ERRORED
    /\ exists partials now,
         Forall (fun ev => is_partial ev = true) partials
         /\ transcript (f_ui fin) (g_session hello_gen)
            = transcript hello_ui (g_session hello_gen)
              ++ [Message assistant (error_prefix ++ lit "boom") now]
         /\ f_emitted fin
            = [agent_typing true (g_sid hello_gen);
               agent_streaming_start (g_session hello_gen) (g_sid hello_gen)]
              ++ partials
              ++ [agent_streaming_end (g_sid hello_gen);
                  agent_typing false (g_sid hello_gen)].
Proof.
  destruct (process_agent_response world_raises 100 hello_gen hello_ui)
    as [fin|] eqn:E; [|vm_compute in E; discriminate].
  exists fin. split; [reflexivity|].
  apply (raised_error_goes_to_transcript_only world_raises 100 hello_gen
           hello_ui fin (lit "boom")).
  - reflexivity.
  - discriminate.
  - split; reflexivity.
  - vm_compute. by eexists.
  - exact E.
  - vm_compute in E. injection E as <-. reflexivity.
Defined.
